(** * ResearchTracker: a shallow embedding of the durable research actor

    The development follows the TypeScript sources
      - restate/services/types.ts
      - restate/services/research-tracker.ts
      - restate/services/utils/browser-fetcher.ts
      - restate/services/utils/idealista-scraper.ts
      - restate/services/utils/immobiliare-scraper.ts
      - restate/services/utils/ai-config.ts
    and states the behaviour of the handlers of the [researchTracker]
    virtual object as theorems over that embedding. *)

From Stdlib Require Import NArith Ascii String Decimal DecimalString.
From stdpp Require Import base option list numbers strings.

Set Default Proof Using "Type".
Local Open Scope N_scope.

(** ** JavaScript strings

    A JavaScript string is a sequence of UTF-16 code units; [length],
    [slice], [includes] and [trim] all work on code units. *)

Definition JsString : Type := list N.

(** A source literal that only holds ASCII characters. *)
Definition lit (s : string) : JsString :=
  map N_of_ascii (list_ascii_of_string s).

(** [String(n)] for a non-negative integer. *)
Definition decimal (n : N) : JsString :=
  lit (NilEmpty.string_of_uint (N.to_uint n)).

(** [!!s]: every string but the empty one is truthy; [null] and
    [undefined] are falsy. *)
Definition truthy (s : JsString) : bool :=
  match s with
  | [] => false
  | _ :: _ => true
  end.

Definition truthy_opt (s : option JsString) : bool :=
  match s with
  | Some s => truthy s
  | None => false
  end.

(** [a || b] on strings. *)
Definition or_str (a b : JsString) : JsString :=
  if truthy a then a else b.

(** [a || b] where [a] may be [undefined]. *)
Definition or_opt (a : option JsString) (b : JsString) : JsString :=
  match a with
  | Some s => or_str s b
  | None => b
  end.

(** [s.slice(0, n)]. *)
Definition slice0 (n : N) (s : JsString) : JsString := take (N.to_nat n) s.

Fixpoint startsWith (p s : JsString) : bool :=
  match p, s with
  | [], _ => true
  | _ :: _, [] => false
  | a :: p', b :: s' => (a =? b) && startsWith p' s'
  end.

(** [s.includes(p)]. *)
Fixpoint includes (p s : JsString) : bool :=
  startsWith p s ||
  match s with
  | [] => false
  | _ :: s' => includes p s'
  end.

(** [l.join(sep)]. *)
Fixpoint join (sep : JsString) (l : list JsString) : JsString :=
  match l with
  | [] => []
  | [x] => x
  | x :: rest => x ++ sep ++ join sep rest
  end.

(** The code units that [String.prototype.trim] strips: the WhiteSpace
    and LineTerminator productions of ECMAScript. *)
Definition isWhiteSpace (c : N) : bool :=
  ((9 <=? c) && (c <=? 13))          (* TAB, LF, VT, FF, CR *)
  || (c =? 32)                       (* SPACE *)
  || (c =? 160)                      (* NO-BREAK SPACE *)
  || (c =? 5760)                     (* U+1680 *)
  || ((8192 <=? c) && (c <=? 8202))  (* U+2000 .. U+200A *)
  || (c =? 8232) || (c =? 8233)      (* LINE / PARAGRAPH SEPARATOR *)
  || (c =? 8239)                     (* U+202F *)
  || (c =? 8287)                     (* U+205F *)
  || (c =? 12288)                    (* U+3000 *)
  || (c =? 65279).                   (* U+FEFF *)

Fixpoint trimStart (s : JsString) : JsString :=
  match s with
  | [] => []
  | c :: s' => if isWhiteSpace c then trimStart s' else s
  end.

Definition trimEnd (s : JsString) : JsString :=
  reverse (trimStart (reverse s)).

(** [s.trim()]. *)
Definition trim (s : JsString) : JsString := trimEnd (trimStart s).

(** ** The platform

    What the handlers take from the JavaScript platform and from the
    libraries they import: the number type and its conversions, the
    WHATWG URL parser, and the cheerio-based HTML reduction. *)

Class Platform := {
  (** JavaScript numbers (IEEE doubles). *)
  Number : Type;
  (** [String(x)], as used by template literals. *)
  numberToString : Number -> JsString;
  (** [!!x]: false for [0] and [NaN]. *)
  numberTruthy : Number -> bool;
  (** [new URL(url).hostname]; [None] when the constructor throws. *)
  hostname : JsString -> option JsString;
  (** [cleanHtmlForAI] of utils/html-cleaner.ts. *)
  cleanHtmlForAI : JsString -> JsString;
  (** The inline cheerio clean-up of the immobiliare scraper:
      [$("script, style, ...").remove(); $.html()]. *)
  stripNoise : JsString -> JsString
}.

(** ** Data model (types.ts) *)

Inductive RenovationStatus :=
| RenoNew
| RenoLittle
| RenoExtensive.

Definition RenovationStatus_str (r : RenovationStatus) : JsString :=
  match r with
  | RenoNew => lit "new"
  | RenoLittle => lit "little renovation"
  | RenoExtensive => lit "to renovate extensively"
  end.

Inductive AdStatus :=
| ToReachOut
| VisitAppointmentTaken
| SentTheOffer
| Bought
| Rejected.

Definition AdStatus_str (s : AdStatus) : JsString :=
  match s with
  | ToReachOut => lit "to reach out"
  | VisitAppointmentTaken => lit "visit appointment taken"
  | SentTheOffer => lit "sent the offer"
  | Bought => lit "bought"
  | Rejected => lit "rejected"
  end.

Definition AdStatus_all : list AdStatus :=
  [ToReachOut; VisitAppointmentTaken; SentTheOffer; Bought; Rejected].

(** [AdStatusSchema.safeParse(v)]: succeeds exactly on the five enum
    strings. *)
Definition AdStatusSchema_safeParse (v : JsString) : option AdStatus :=
  find (fun s => bool_decide (AdStatus_str s = v)) AdStatus_all.

Inductive Source := Idealista | Immobiliare.

Section DataModel.
Context `{Platform}.

Record PropertyAd := {
  id : JsString;
  url : JsString;
  source : Source;
  title : JsString;
  price : option Number;
  location : JsString;
  size : option Number;
  rooms : option Number;
  bathrooms : option Number;
  description : JsString;
  descriptionSummary : JsString;
  renovationStatus : RenovationStatus;
  features : list JsString;
  status : AdStatus;
  notes : option JsString;
  adAge : JsString;
  scrapedAt : JsString
}.

Record QuestionAnswer := {
  qa_id : JsString;
  question : JsString;
  answer : JsString;
  askedAt : JsString
}.

(** [{...ad, id: v}] *)
Definition with_id (v : JsString) (ad : PropertyAd) : PropertyAd :=
  {| id := v; url := url ad; source := source ad; title := title ad;
     price := price ad; location := location ad; size := size ad;
     rooms := rooms ad; bathrooms := bathrooms ad;
     description := description ad;
     descriptionSummary := descriptionSummary ad;
     renovationStatus := renovationStatus ad; features := features ad;
     status := status ad; notes := notes ad; adAge := adAge ad;
     scrapedAt := scrapedAt ad |}.

(** [ad.status = v] *)
Definition with_status (v : AdStatus) (ad : PropertyAd) : PropertyAd :=
  {| id := id ad; url := url ad; source := source ad; title := title ad;
     price := price ad; location := location ad; size := size ad;
     rooms := rooms ad; bathrooms := bathrooms ad;
     description := description ad;
     descriptionSummary := descriptionSummary ad;
     renovationStatus := renovationStatus ad; features := features ad;
     status := v; notes := notes ad; adAge := adAge ad;
     scrapedAt := scrapedAt ad |}.

(** [ad.notes = v] *)
Definition with_notes (v : JsString) (ad : PropertyAd) : PropertyAd :=
  {| id := id ad; url := url ad; source := source ad; title := title ad;
     price := price ad; location := location ad; size := size ad;
     rooms := rooms ad; bathrooms := bathrooms ad;
     description := description ad;
     descriptionSummary := descriptionSummary ad;
     renovationStatus := renovationStatus ad; features := features ad;
     status := status ad; notes := Some v; adAge := adAge ad;
     scrapedAt := scrapedAt ad |}.

(** The state of one virtual object: the four keys the handlers read
    with [ctx.get] and write with [ctx.set].  A key never written
    reads as [null], here [None]. *)
Record Store := {
  criteria : option JsString;
  ads : option (list PropertyAd);
  questions : option (list QuestionAnswer);
  createdAt : option JsString
}.

Definition emptyStore : Store :=
  {| criteria := None; ads := None; questions := None; createdAt := None |}.

End DataModel.

(** ** Failures and journaled steps (the Restate runtime)

    A handler fails by throwing.  The runtime tells two kinds of
    exceptions apart: a [TerminalError] is never retried, any other
    [Error] is. *)

Inductive Exn :=
| TerminalError (msg : JsString)
| Error (msg : JsString).

(** What one execution of a handler, or of a step inside it, comes to:
    a value, an exception, or [Pending]: the step is still being retried
    when the observed behaviour of the outside world ends. *)
Inductive Outcome (A : Type) :=
| Ok (a : A)
| Throw (e : Exn)
| Pending.
Arguments Ok {A} a.
Arguments Throw {A} e.
Arguments Pending {A}.

Inductive Provider := ScraperAPI | ScrapingBee | ZenRows | Puppeteer.

(** The calls that leave the process.  The prompt and the schema of an
    extraction call are fixed for each site, so such a call is given by
    the site and the HTML put in its prompt. *)
Inductive Call :=
| CallProvider (p : Provider) (target : JsString)
| CallGenerateObject (site : Source) (html : JsString)
| CallGenerateText (prompt : JsString).

(** Retry options of a journaled step ({maxRetryAttempts: n}); [None]
    when the step is run without options, which retries without bound. *)
Definition RetryConfig := option nat.

(** ai-config.ts *)
Definition DURABLE_AI_RETRY_CONFIG : RetryConfig := Some 10%nat.
Definition DURABLE_FETCH_RETRY_CONFIG : RetryConfig := Some 10%nat.

(** [ctx.run(name, action, options)].  [attempts] lists, for the
    successive executions of [action], the calls it makes and what it
    returns or throws.  A value ends the step; a [TerminalError] ends it
    at once; another error is retried, and with [maxRetryAttempts: n]
    the n-th failed attempt is the last one: the step then gives up with
    a [TerminalError] carrying the message of that failure.  The result
    of a finished step is what the journal records for it. *)
Fixpoint ctx_run {A} (cfg : RetryConfig) (attempts : list (list Call * (Exn + A)))
  : Outcome A * list Call :=
  match attempts with
  | [] => (Pending, [])
  | (cs, r) :: rest =>
    match r with
    | inr v => (Ok v, cs)
    | inl (TerminalError m) => (Throw (TerminalError m), cs)
    | inl (Error m) =>
      match cfg with
      | Some n =>
        if (n <=? 1)%nat then (Throw (TerminalError m), cs)
        else let '(o, cs') := ctx_run (Some (n - 1)%nat) rest in (o, cs ++ cs')
      | None =>
        let '(o, cs') := ctx_run None rest in (o, cs ++ cs')
      end
    end
  end.

(** ** Fetch providers (browser-fetcher.ts) *)

(** The three keys [fetchWithBrowser] reads from [process.env]. *)
Record ProcessEnv := {
  SCRAPERAPI_API_KEY : option JsString;
  SCRAPINGBEE_API_KEY : option JsString;
  ZENROWS_API_KEY : option JsString
}.

(** What the global [fetch] does on a request to a scraping service. *)
Inductive FetchOutcome :=
| FetchRejects (msg : JsString)
| FetchResponse (status : N) (body : JsString).

(** What the headless browser does: no executable or a failed launch,
    [page.goto] rejecting (a navigation timeout after 30s among others),
    [page.goto] resolving to [null], or a response with its status, its
    headers as printed by [JSON.stringify], and the page content. *)
Inductive BrowserOutcome :=
| LaunchFails (msg : JsString)
| GotoRejects (msg : JsString)
| GotoNull
| GotoResponse (status : N) (headersStr : JsString) (content : JsString).

(** How the outside world answers each provider at one attempt of the
    fetch step. *)
Record Web := {
  scraperApi : FetchOutcome;
  scrapingBee : FetchOutcome;
  zenRows : FetchOutcome;
  browser : BrowserOutcome
}.

Definition nl : JsString := [10].

(** [response.ok] *)
Definition response_ok (status : N) : bool :=
  (200 <=? status) && (status <=? 299).

(** The shared shape of [fetchWithScraperAPI], [fetchWithScrapingBee]
    and [fetchWithZenRows]; they differ in the request parameters and in
    the name put in the message. *)
Definition fetchWithService (name : JsString) (o : FetchOutcome) (url : JsString)
  : Exn + JsString :=
  match o with
  | FetchRejects m => inl (Error m)
  | FetchResponse status text =>
    if response_ok status then inr text
    else inl (Error (name ++ lit " error (" ++ decimal status ++ lit "): "
                     ++ text ++ nl ++ lit "URL: " ++ url))
  end.

(** The API key only goes into the request. *)

Definition fetchWithScraperAPI (w : Web) (url apiKey : JsString) :=
  fetchWithService (lit "ScraperAPI") (scraperApi w) url.

Definition fetchWithScrapingBee (w : Web) (url apiKey : JsString) :=
  fetchWithService (lit "ScrapingBee") (scrapingBee w) url.

Definition fetchWithZenRows (w : Web) (url apiKey : JsString) :=
  fetchWithService (lit "ZenRows") (zenRows w) url.

(** [fetchWithPuppeteer], as far as the response decides it: the mouse
    moves, the waits and the reading of the content that follow the
    status test are taken to succeed. *)
Definition fetchWithPuppeteer (w : Web) (url : JsString) : Exn + JsString :=
  match browser w with
  | LaunchFails m => inl (Error m)
  | GotoRejects m => inl (Error m)
  | GotoNull =>
    inl (Error (lit "Failed to load page: " ++ url ++ lit " - No response received"))
  | GotoResponse status headersStr content =>
    if status =? 404 then
      inl (Error (lit "Ad not found (404): " ++ url ++ nl
                  ++ lit "Response headers:" ++ nl ++ headersStr))
    else if status =? 403 then
      inl (Error (lit "Access denied (403): " ++ url ++ nl
                  ++ lit "Possible anti-bot protection detected." ++ nl
                  ++ lit "Response headers:" ++ nl ++ headersStr ++ nl
                  ++ lit "Body preview:" ++ nl ++ slice0 500 content))
    else if 500 <=? status then
      inl (Error (lit "Server error (" ++ decimal status ++ lit "): " ++ url ++ nl
                  ++ lit "Response headers:" ++ nl ++ headersStr))
    else if negb (status =? 200) && negb (status =? 304) then
      inl (Error (lit "Failed to fetch (" ++ decimal status ++ lit "): " ++ url ++ nl
                  ++ lit "Response headers:" ++ nl ++ headersStr))
    else inr content
  end.

(** [fetchWithBrowser]: the provider is chosen by the first API key that
    is set (a key set to the empty string is falsy); the result carries
    the calls made. *)
Definition fetchWithBrowser (env : ProcessEnv) (w : Web) (url : JsString)
  : list Call * (Exn + JsString) :=
  let scraperApiKey := SCRAPERAPI_API_KEY env in
  let scrapingBeeApiKey := SCRAPINGBEE_API_KEY env in
  let zenRowsApiKey := ZENROWS_API_KEY env in
  if truthy_opt scraperApiKey then
    ([CallProvider ScraperAPI url],
     fetchWithScraperAPI w url (default [] scraperApiKey))
  else if truthy_opt scrapingBeeApiKey then
    ([CallProvider ScrapingBee url],
     fetchWithScrapingBee w url (default [] scrapingBeeApiKey))
  else if truthy_opt zenRowsApiKey then
    ([CallProvider ZenRows url],
     fetchWithZenRows w url (default [] zenRowsApiKey))
  else
    ([CallProvider Puppeteer url], fetchWithPuppeteer w url).

(** ** Handlers *)

Section Handlers.
Context `{Platform}.

(** The object a successful [generateObject] call returns.  The call
    validates the model's answer against the zod schema of the
    scraper, so the required fields are strings (possibly empty), the
    renovation status is one of the enum values, and only the numeric
    fields may be missing.  An answer that does not fit the schema,
    which [generateObject] refuses after the journaled model call, is
    not represented. *)
Record Extraction := {
  x_title : JsString;
  x_price : option Number;
  x_location : JsString;
  x_size : option Number;
  x_rooms : option Number;
  x_bathrooms : option Number;
  x_description : JsString;
  x_descriptionSummary : JsString;
  x_renovationStatus : RenovationStatus;
  x_features : list JsString;
  x_adAge : JsString
}.

(** What one execution of a handler observes of its surroundings.  An
    execution is followed from the start of the handler.  The results
    of the journaled steps and the draws of the seeded generator belong
    to the invocation: every execution of it sees the same ones.  The
    clock belongs to the execution. *)
Record Env := {
  (** [process.env] *)
  processEnv : ProcessEnv;
  (** the answers of the fetch providers at the successive attempts
      of the [fetch-html] step *)
  web : list Web;
  (** the successive results of the extraction model call for a site
      and the HTML put in its prompt *)
  objectModel : Source -> JsString -> list (Exn + Extraction);
  (** the successive results of the text model call for a prompt *)
  textModel : JsString -> list (Exn + JsString);
  (** [ctx.rand.uuidv4()]: the generator is seeded by the runtime with
      the invocation id; the k-th draw of this invocation *)
  uuidv4 : nat -> JsString;
  (** [new Date().toISOString()]: the k-th read of the system clock
      during this execution *)
  now : nat -> JsString
}.

(** The state threaded through a handler: the object's store, the
    external calls made so far, and how often the random generator and
    the clock have been read. *)
Record Exec := {
  store : Store;
  calls : list Call;
  randDraws : nat;
  clockReads : nat
}.

Definition M (A : Type) : Type := Exec -> Outcome A * Exec.

Definition ret {A} (a : A) : M A := fun x => (Ok a, x).

Definition bind {A B} (m : M A) (k : A -> M B) : M B :=
  fun x =>
    match m x with
    | (Ok a, x') => k a x'
    | (Throw e, x') => (Throw e, x')
    | (Pending, x') => (Pending, x')
    end.

Definition throw {A} (e : Exn) : M A := fun x => (Throw e, x).

Definition modify_store (f : Store -> Store) : M unit :=
  fun x => (Ok tt, {| store := f (store x); calls := calls x;
                      randDraws := randDraws x; clockReads := clockReads x |}).

Definition read_store {A} (f : Store -> A) : M A :=
  fun x => (Ok (f (store x)), x).

(** [ctx.get(key)] and [ctx.set(key, value)] for the four keys. *)
Definition ctx_get_criteria : M (option JsString) := read_store criteria.
Definition ctx_get_ads : M (option (list PropertyAd)) := read_store ads.
Definition ctx_get_questions : M (option (list QuestionAnswer)) :=
  read_store questions.

Definition ctx_set_criteria (v : JsString) : M unit :=
  modify_store (fun s => {| criteria := Some v; ads := ads s;
                            questions := questions s; createdAt := createdAt s |}).
Definition ctx_set_ads (v : list PropertyAd) : M unit :=
  modify_store (fun s => {| criteria := criteria s; ads := Some v;
                            questions := questions s; createdAt := createdAt s |}).
Definition ctx_set_questions (v : list QuestionAnswer) : M unit :=
  modify_store (fun s => {| criteria := criteria s; ads := ads s;
                            questions := Some v; createdAt := createdAt s |}).
Definition ctx_set_createdAt (v : JsString) : M unit :=
  modify_store (fun s => {| criteria := criteria s; ads := ads s;
                            questions := questions s; createdAt := Some v |}).

(** [ctx.rand.uuidv4()] *)
Definition ctx_rand_uuidv4 (env : Env) : M JsString :=
  fun x => (Ok (uuidv4 env (randDraws x)),
            {| store := store x; calls := calls x;
               randDraws := S (randDraws x); clockReads := clockReads x |}).

(** [new Date().toISOString()] *)
Definition new_Date_toISOString (env : Env) : M JsString :=
  fun x => (Ok (now env (clockReads x)),
            {| store := store x; calls := calls x;
               randDraws := randDraws x; clockReads := S (clockReads x) |}).

(** A journaled step inside a handler. *)
Definition step {A} (cfg : RetryConfig) (attempts : list (list Call * (Exn + A)))
  : M A :=
  fun x =>
    let '(o, cs) := ctx_run cfg attempts in
    (o, {| store := store x; calls := calls x ++ cs;
           randDraws := randDraws x; clockReads := clockReads x |}).

(** A model call behind the [durableCalls(ctx, cfg)] middleware: every
    attempt is one call to the provider. *)
Definition durableCall {A} (cfg : RetryConfig) (c : Call) (results : list (Exn + A))
  : M A :=
  step cfg (map (fun r => ([c], r)) results).

End Handlers.

Notation "'let*' x ':=' m 'in' k" := (bind m (fun x => k))
  (at level 10, x name, m at level 100, k at level 200).
Notation "m ';;;' k" := (bind m (fun _ => k))
  (at level 100, k at level 200, right associativity).

(** [l.findIndex(p)]; [None] stands for [-1]. *)
Fixpoint findIndex {A} (p : A -> bool) (l : list A) : option nat :=
  match l with
  | [] => None
  | x :: l' => if p x then Some 0%nat else S <$> findIndex p l'
  end.

Section Scrapers.
Context `{Platform}.

(** The fetch step both scrapers run:
    [ctx.run("fetch-html", () => fetchWithBrowser(url), cfg)]. *)
Definition fetch_html (cfg : RetryConfig) (env : Env) (url : JsString) : M JsString :=
  step cfg (map (fun w => fetchWithBrowser (processEnv env) w url) (web env)).

(** idealista-scraper.ts *)
Definition scrapeIdealistaAd (env : Env) (url : JsString) : M PropertyAd :=
  match hostname url with
  | None => throw (Error (lit "Invalid URL"))
  | Some host =>
    if negb (includes (lit "idealista.it") host) then
      throw (Error (lit "URL must be from idealista.it"))
    else
      let* html := fetch_html DURABLE_FETCH_RETRY_CONFIG env url in
      let cleanedHtml := cleanHtmlForAI html in
      let shown := slice0 40000 cleanedHtml in
      let* extracted :=
        durableCall DURABLE_AI_RETRY_CONFIG
          (CallGenerateObject Idealista shown) (objectModel env Idealista shown) in
      let* scrapedAt := new_Date_toISOString env in
      ret {| id := [];
             url := url;
             source := Idealista;
             title := or_str (x_title extracted) (lit "Annuncio senza titolo");
             price := x_price extracted;
             location := or_str (x_location extracted)
                           (lit "Localit" ++ [224] ++ lit " non specificata");
             size := x_size extracted;
             rooms := x_rooms extracted;
             bathrooms := x_bathrooms extracted;
             description := or_str (x_description extracted)
                              (lit "Descrizione non disponibile");
             descriptionSummary :=
               or_str (or_str (x_descriptionSummary extracted)
                              (slice0 200 (x_description extracted) ++ lit "..."))
                      (lit "Nessuna descrizione disponibile");
             renovationStatus :=
               if truthy (RenovationStatus_str (x_renovationStatus extracted))
               then x_renovationStatus extracted else RenoLittle;
             features :=
               if (0 <? length (x_features extracted))%nat
               then x_features extracted else [];
             status := ToReachOut;
             notes := None;
             adAge := or_str (x_adAge extracted) (lit "non specificato");
             scrapedAt := scrapedAt |}
  end.

(** immobiliare-scraper.ts *)
Definition scrapeImmobiliareAd (env : Env) (url : JsString) : M PropertyAd :=
  match hostname url with
  | None => throw (Error (lit "Invalid URL"))
  | Some host =>
    if negb (includes (lit "immobiliare.it") host) then
      throw (Error (lit "URL must be from immobiliare.it"))
    else
      let* html := fetch_html None env url in
      let cleanedHtml := stripNoise html in
      let shown := slice0 50000 cleanedHtml in
      let* aiExtraction :=
        durableCall (Some 3%nat)
          (CallGenerateObject Immobiliare shown) (objectModel env Immobiliare shown) in
      let* scrapedAt := new_Date_toISOString env in
      ret {| id := [];
             url := url;
             source := Immobiliare;
             title := x_title aiExtraction;
             price := x_price aiExtraction;
             location := x_location aiExtraction;
             size := x_size aiExtraction;
             rooms := x_rooms aiExtraction;
             bathrooms := x_bathrooms aiExtraction;
             description := x_description aiExtraction;
             descriptionSummary := x_descriptionSummary aiExtraction;
             renovationStatus := x_renovationStatus aiExtraction;
             features := x_features aiExtraction;
             status := ToReachOut;
             notes := None;
             adAge := x_adAge aiExtraction;
             scrapedAt := scrapedAt |}
  end.

End Scrapers.

(** ** The virtual object (research-tracker.ts) *)

Section ResearchTracker.
Context `{Platform}.

Definition createResearch (env : Env) (criteria : JsString) : M unit :=
  let* existingCriteria := ctx_get_criteria in
  if truthy_opt existingCriteria then
    throw (TerminalError
      (lit "Research with this name already exists. Please choose a different name."))
  else
    ctx_set_criteria criteria ;;;
    ctx_set_ads [] ;;;
    ctx_set_questions [] ;;;
    let* t := new_Date_toISOString env in
    ctx_set_createdAt t.

Definition getCriteria : M JsString :=
  let* criteria := ctx_get_criteria in
  if negb (truthy_opt criteria) then
    throw (TerminalError (lit "Research not found"))
  else ret (default [] criteria).

Definition addAd (env : Env) (url : JsString) : M PropertyAd :=
  match hostname url with
  | None => throw (TerminalError (lit "Invalid URL format"))
  | Some host =>
    let* scrapedAd :=
      if includes (lit "idealista.it") host then scrapeIdealistaAd env url
      else if includes (lit "immobiliare.it") host then scrapeImmobiliareAd env url
      else throw (TerminalError
                    (lit "Only idealista.it and immobiliare.it URLs are supported")) in
    let* adId := ctx_rand_uuidv4 env in
    let propertyAd := with_id adId scrapedAd in
    let* stored := ctx_get_ads in
    let ads := default [] stored ++ [propertyAd] in
    ctx_set_ads ads ;;;
    ret propertyAd
  end.

Definition getAds : M (list PropertyAd) :=
  let* stored := ctx_get_ads in
  ret (default [] stored).

Definition updateAdStatus (adId status : JsString) : M unit :=
  match AdStatusSchema_safeParse status with
  | None => throw (TerminalError (lit "Invalid status value: " ++ status))
  | Some parsed =>
    let* stored := ctx_get_ads in
    let ads := default [] stored in
    match findIndex (fun ad => bool_decide (id ad = adId)) ads with
    | None => throw (TerminalError (lit "Property ad not found in this research"))
    | Some adIndex => ctx_set_ads (alter (with_status parsed) adIndex ads)
    end
  end.

Definition updateAdNotes (adId notes : JsString) : M unit :=
  let* stored := ctx_get_ads in
  let ads := default [] stored in
  match findIndex (fun ad => bool_decide (id ad = adId)) ads with
  | None => throw (TerminalError (lit "Property ad not found in this research"))
  | Some adIndex => ctx_set_ads (alter (with_notes notes) adIndex ads)
  end.

(** [x ? `${x}${unit}` : "Not specified"] with a prefix or a suffix. *)
Definition shown_number (pre : JsString) (x : option Number) (post : JsString)
  : JsString :=
  match x with
  | Some n => if numberTruthy n then pre ++ numberToString n ++ post
              else lit "Not specified"
  | None => lit "Not specified"
  end.

(** The text [askQuestion] renders for the ad at index [idx]. *)
Definition adContext (idx : nat) (ad : PropertyAd) : JsString :=
  nl ++ lit "Property " ++ decimal (N.of_nat idx + 1) ++ lit ":" ++ nl
  ++ lit "- Title: " ++ title ad ++ nl
  ++ lit "- Price: " ++ shown_number [8364] (price ad) [] ++ nl
  ++ lit "- Location: " ++ location ad ++ nl
  ++ lit "- Size: " ++ shown_number [] (size ad) (lit "m" ++ [178]) ++ nl
  ++ lit "- Rooms: " ++ shown_number [] (rooms ad) [] ++ nl
  ++ lit "- Bathrooms: " ++ shown_number [] (bathrooms ad) [] ++ nl
  ++ lit "- Renovation Status: " ++ RenovationStatus_str (renovationStatus ad) ++ nl
  ++ lit "- Description Summary: " ++ descriptionSummary ad ++ nl
  ++ lit "- Features: " ++ join (lit ", ") (take 5 (features ad)) ++ nl
  ++ lit "- Status: " ++ AdStatus_str (status ad) ++ nl
  ++ lit "- Notes: " ++ or_opt (notes ad) (lit "No notes") ++ nl
  ++ lit "- URL: " ++ url ad ++ nl.

Definition adsContext (ads : list PropertyAd) : JsString :=
  join (nl ++ lit "---" ++ nl) (imap adContext ads).

(** The prompt of [askQuestion]; a [null] criteria prints as "null". *)
Definition questionPrompt (criteria : option JsString) (ads : list PropertyAd)
    (question : JsString) : JsString :=
  lit "Sei un assistente di analisi immobiliare utile e competente." ++ nl ++ nl
  ++ lit "Criteri di ricerca: " ++ default (lit "null") criteria ++ nl ++ nl
  ++ lit "Immobili nella ricerca:" ++ nl
  ++ adsContext ads ++ nl ++ nl
  ++ lit "Domanda dell'utente: " ++ question ++ nl ++ nl
  ++ lit "Fornisci una risposta dettagliata e utile analizzando gli immobili in base alla domanda. Considera prezzi, posizioni, dimensioni, necessit"
  ++ [224]
  ++ lit " di ristrutturazione e le note dell'utente quando rilevanti. Rispondi sempre in italiano.".

Definition askQuestion (env : Env) (question : JsString) : M JsString :=
  if negb (truthy question) || (length (trim question) =? 0)%nat then
    throw (TerminalError (lit "Question cannot be empty"))
  else
    let* stored := ctx_get_ads in
    let ads := default [] stored in
    let* criteria := ctx_get_criteria in
    let prompt := questionPrompt criteria ads question in
    let* answer :=
      durableCall (Some 3%nat) (CallGenerateText prompt) (textModel env prompt) in
    let* questionId := ctx_rand_uuidv4 env in
    let* t := new_Date_toISOString env in
    let qa := {| qa_id := questionId; question := question;
                 answer := answer; askedAt := t |} in
    let* storedQuestions := ctx_get_questions in
    let questions := default [] storedQuestions ++ [qa] in
    ctx_set_questions questions ;;;
    ret answer.

Definition getQuestions : M (list QuestionAnswer) :=
  let* stored := ctx_get_questions in
  ret (default [] stored).

(** One invocation of a handler on an object whose committed state is
    [s]: the outcome and the state the execution leaves, with the
    calls it made. *)
Definition invoke {A} (h : M A) (s : Store) : Outcome A * Exec :=
  h {| store := s; calls := []; randDraws := 0; clockReads := 0 |}.

End ResearchTracker.

(** ** Requests

    The handlers of the object behind one entry point, as the ingress
    sees them. *)

Section Requests.
Context `{Platform}.

Inductive Request :=
| CreateResearch (criteria : JsString)
| GetCriteria
| AddAd (url : JsString)
| GetAds
| UpdateAdStatus (adId status : JsString)
| UpdateAdNotes (adId notes : JsString)
| AskQuestion (question : JsString)
| GetQuestions.

Inductive Response :=
| RVoid
| RString (s : JsString)
| RAd (ad : PropertyAd)
| RAds (l : list PropertyAd)
| RQuestions (l : list QuestionAnswer).

Definition handle (env : Env) (req : Request) : M Response :=
  match req with
  | CreateResearch c => createResearch env c ;;; ret RVoid
  | GetCriteria => let* c := getCriteria in ret (RString c)
  | AddAd u => let* ad := addAd env u in ret (RAd ad)
  | GetAds => let* l := getAds in ret (RAds l)
  | UpdateAdStatus i st => updateAdStatus i st ;;; ret RVoid
  | UpdateAdNotes i n => updateAdNotes i n ;;; ret RVoid
  | AskQuestion q => let* a := askQuestion env q in ret (RString a)
  | GetQuestions => let* l := getQuestions in ret (RQuestions l)
  end.

(** Another execution of the same invocation: the journaled step
    results ([web], [objectModel], [textModel] fix what the steps
    return) and the seeded generator are those of the invocation; the
    system clock is whatever it is when the execution runs. *)
Definition with_now (clock : nat -> JsString) (env : Env) : Env :=
  {| processEnv := processEnv env; web := web env;
     objectModel := objectModel env; textModel := textModel env;
     uuidv4 := uuidv4 env; now := clock |}.

(** A value with its timestamps blanked. *)
Definition scrub_ad (ad : PropertyAd) : PropertyAd :=
  {| id := id ad; url := url ad; source := source ad; title := title ad;
     price := price ad; location := location ad; size := size ad;
     rooms := rooms ad; bathrooms := bathrooms ad;
     description := description ad;
     descriptionSummary := descriptionSummary ad;
     renovationStatus := renovationStatus ad; features := features ad;
     status := status ad; notes := notes ad; adAge := adAge ad;
     scrapedAt := [] |}.

Definition scrub_qa (qa : QuestionAnswer) : QuestionAnswer :=
  {| qa_id := qa_id qa; question := question qa; answer := answer qa;
     askedAt := [] |}.

Definition scrub_store (s : Store) : Store :=
  {| criteria := criteria s;
     ads := map scrub_ad <$> ads s;
     questions := map scrub_qa <$> questions s;
     createdAt := (fun _ => []) <$> createdAt s |}.

Definition scrub_response (r : Response) : Response :=
  match r with
  | RVoid => RVoid
  | RString s => RString s
  | RAd ad => RAd (scrub_ad ad)
  | RAds l => RAds (map scrub_ad l)
  | RQuestions l => RQuestions (map scrub_qa l)
  end.

Definition scrub_outcome (o : Outcome Response) : Outcome Response :=
  match o with
  | Ok r => Ok (scrub_response r)
  | Throw e => Throw e
  | Pending => Pending
  end.

End Requests.

(** ** Provider selection *)

(** What a provider does when asked at one attempt. *)
Definition askProvider (p : Provider) (w : Web) (url : JsString) : Exn + JsString :=
  match p with
  | ScraperAPI => fetchWithService (lit "ScraperAPI") (scraperApi w) url
  | ScrapingBee => fetchWithService (lit "ScrapingBee") (scrapingBee w) url
  | ZenRows => fetchWithService (lit "ZenRows") (zenRows w) url
  | Puppeteer => fetchWithPuppeteer w url
  end.

(** The HTTP status a provider meets at one attempt, if it gets a
    response at all. *)
Definition statusMet (p : Provider) (w : Web) : option N :=
  let ofFetch o :=
    match o with FetchResponse st _ => Some st | FetchRejects _ => None end in
  match p with
  | ScraperAPI => ofFetch (scraperApi w)
  | ScrapingBee => ofFetch (scrapingBee w)
  | ZenRows => ofFetch (zenRows w)
  | Puppeteer =>
    match browser w with GotoResponse st _ _ => Some st | _ => None end
  end.

(** The providers that are configured, in the order of preference of
    [fetchWithBrowser], the browser last. *)
Definition configuredProviders (env : ProcessEnv) : list Provider :=
  (if truthy_opt (SCRAPERAPI_API_KEY env) then [ScraperAPI] else [])
  ++ (if truthy_opt (SCRAPINGBEE_API_KEY env) then [ScrapingBee] else [])
  ++ (if truthy_opt (ZENROWS_API_KEY env) then [ZenRows] else [])
  ++ [Puppeteer].

(** The provider [fetchWithBrowser] goes to: the first configured one. *)
Definition chosenProvider (env : ProcessEnv) : Provider :=
  hd Puppeteer (configuredProviders env).

(** The fetch as the specification words it, for comparison with
    [fetchWithBrowser]: a chain of providers tried in order, the next
    one asked when the one before it failed. *)
Fixpoint fetchThroughChain_spec (chain : list Provider) (w : Web) (url : JsString)
  : list Call * (Exn + JsString) :=
  match chain with
  | [] => ([], inl (Error (lit "no provider")))
  | p :: rest =>
    match askProvider p w url, rest with
    | inr page, _ => ([CallProvider p url], inr page)
    | inl e, [] => ([CallProvider p url], inl e)
    | inl _, _ :: _ =>
      let '(cs, r) := fetchThroughChain_spec rest w url in
      (CallProvider p url :: cs, r)
    end
  end.

(** ** The errors of the handlers, by kind *)

(** AlreadyExists *)
Definition AlreadyExists : Exn :=
  TerminalError
    (lit "Research with this name already exists. Please choose a different name.").

(** NotFound, for a project *)
Definition ResearchNotFound : Exn := TerminalError (lit "Research not found").

(** NotFound, for an ad *)
Definition AdNotFound : Exn :=
  TerminalError (lit "Property ad not found in this research").

(** Validation *)
Definition InvalidStatus (status : JsString) : Exn :=
  TerminalError (lit "Invalid status value: " ++ status).
Definition EmptyQuestion : Exn := TerminalError (lit "Question cannot be empty").
Definition InvalidUrl : Exn := TerminalError (lit "Invalid URL format").
Definition UnsupportedSite : Exn :=
  TerminalError (lit "Only idealista.it and immobiliare.it URLs are supported").

Section Frames.
Context `{Platform}.

(** Two ads that agree on every field but [status]. *)
Definition agree_but_status (a b : PropertyAd) : Prop :=
  id a = id b /\ url a = url b /\ source a = source b /\ title a = title b
  /\ price a = price b /\ location a = location b /\ size a = size b
  /\ rooms a = rooms b /\ bathrooms a = bathrooms b
  /\ description a = description b
  /\ descriptionSummary a = descriptionSummary b
  /\ renovationStatus a = renovationStatus b /\ features a = features b
  /\ notes a = notes b /\ adAge a = adAge b /\ scrapedAt a = scrapedAt b.

(** Two ads that agree on every field but [notes]. *)
Definition agree_but_notes (a b : PropertyAd) : Prop :=
  id a = id b /\ url a = url b /\ source a = source b /\ title a = title b
  /\ price a = price b /\ location a = location b /\ size a = size b
  /\ rooms a = rooms b /\ bathrooms a = bathrooms b
  /\ description a = description b
  /\ descriptionSummary a = descriptionSummary b
  /\ renovationStatus a = renovationStatus b /\ features a = features b
  /\ status a = status b /\ adAge a = adAge b /\ scrapedAt a = scrapedAt b.

(** [ad], at index [i] of [l], is the first ad of [l] whose id is
    [adId]. *)
Definition first_with_id (adId : JsString) (l : list PropertyAd)
    (i : nat) (ad : PropertyAd) : Prop :=
  l !! i = Some ad /\ id ad = adId
  /\ forall j ad', (j < i)%nat -> l !! j = Some ad' -> id ad' <> adId.

(** The stores that differ at most in their ad list. *)
Definition same_but_ads (s s' : Store) : Prop :=
  criteria s' = criteria s /\ questions s' = questions s
  /\ createdAt s' = createdAt s.

(** [q] only contains white space (the empty string included). *)
Definition blank (q : JsString) : Prop := Forall (fun c => isWhiteSpace c = true) q.

(** The results of a model call that fails with the ordinary errors
    [msgs] and then answers [a]. *)
Definition answersAfter {A} (msgs : list JsString) (a : A) (rest : list (Exn + A))
  : list (Exn + A) :=
  map (fun m => inl (Error m)) msgs ++ inr a :: rest.

(** An attempt that fails with an ordinary, retryable error. *)
Definition failsOrdinarily {A} (att : list Call * (Exn + A)) : Prop :=
  exists m, snd att = inl (Error m).

(** [k] failed attempts leave one more attempt under [cfg]. *)
Definition allowsAfter (cfg : RetryConfig) (k : nat) : Prop :=
  match cfg with
  | Some n => (k < n)%nat
  | None => True
  end.

End Frames.

(** ** Concrete surroundings for the examples *)

Fixpoint upTo (c : N) (s : JsString) : JsString :=
  match s with
  | [] => []
  | x :: s' => if x =? c then [] else x :: upTo c s'
  end.

(** A stand-in for the URL parser that is enough for the URLs of the
    examples: the host of [https://host/path]. *)
Definition sampleHostname (u : JsString) : option JsString :=
  if startsWith (lit "https://") u then Some (upTo 47 (drop 8 u)) else None.

Definition samplePlatform : Platform :=
  {| Number := N;
     numberToString := decimal;
     numberTruthy := fun n => negb (n =? 0);
     hostname := sampleHostname;
     cleanHtmlForAI := fun html => html;
     stripNoise := fun html => html |}.

Section Samples.
#[local] Existing Instance samplePlatform.

Definition sampleExtraction : Extraction :=
{| x_title := lit "Trilocale via Roma";
   x_price := Some (250000 : N);
   x_location := lit "Milano";
   x_size := Some (80 : N);
   x_rooms := Some (3 : N);
   x_bathrooms := None;
   x_description := lit "Trilocale luminoso al terzo piano.";
   x_descriptionSummary := lit "Trilocale al terzo piano.";
   x_renovationStatus := RenoNew;
   x_features := [lit "ascensore"];
   x_adAge := lit "oggi" |}.

(** An extraction in which the model left every text field empty. *)
Definition blankExtraction : Extraction :=
{| x_title := [];
   x_price := None;
   x_location := [];
   x_size := None;
   x_rooms := None;
   x_bathrooms := None;
   x_description := [];
   x_descriptionSummary := [];
   x_renovationStatus := RenoExtensive;
   x_features := [];
   x_adAge := [] |}.

Definition noKeys : ProcessEnv :=
{| SCRAPERAPI_API_KEY := None; SCRAPINGBEE_API_KEY := None;
   ZENROWS_API_KEY := None |}.

Definition pageOk : Web :=
{| scraperApi := FetchResponse 200 (lit "<main>ad</main>");
   scrapingBee := FetchResponse 200 (lit "<main>ad</main>");
   zenRows := FetchResponse 200 (lit "<main>ad</main>");
   browser := GotoResponse 200 (lit "{}") (lit "<main>ad</main>") |}.

Definition page404 : Web :=
{| scraperApi := FetchResponse 404 (lit "not found");
   scrapingBee := FetchResponse 404 (lit "not found");
   zenRows := FetchResponse 404 (lit "not found");
   browser := GotoResponse 404 (lit "{}") (lit "not found") |}.

Definition sampleEnv : Env :=
{| processEnv := noKeys;
   web := [pageOk];
   objectModel := fun _ _ => [inr sampleExtraction];
   textModel := fun _ => [inr (lit "Il primo.")];
   uuidv4 := fun k => lit "uuid-" ++ decimal (N.of_nat k);
   now := fun _ => lit "2025-01-01T10:00:00.000Z" |}.

Definition idealistaUrl : JsString := lit "https://www.idealista.it/immobile/1/".
Definition immobiliareUrl : JsString := lit "https://www.immobiliare.it/annunci/2/".
Definition otherUrl : JsString := lit "https://unsupported-site.example/listing/1".

(** The extraction model leaves the text fields empty. *)
Definition blankModelEnv : Env :=
{| processEnv := noKeys;
   web := [pageOk];
   objectModel := fun _ _ => [inr blankExtraction];
   textModel := textModel sampleEnv;
   uuidv4 := uuidv4 sampleEnv;
   now := now sampleEnv |}.


(** The page answers 404 at each of twelve attempts. *)
Definition notFoundEnv : Env :=
{| processEnv := noKeys;
   web := replicate 12 page404;
   objectModel := objectModel sampleEnv;
   textModel := textModel sampleEnv;
   uuidv4 := uuidv4 sampleEnv;
   now := now sampleEnv |}.

(** Two services are configured; the first one is down, the second one
  would serve the page. *)
Definition twoKeys : ProcessEnv :=
{| SCRAPERAPI_API_KEY := Some (lit "key-1");
   SCRAPINGBEE_API_KEY := Some (lit "key-2");
   ZENROWS_API_KEY := None |}.

Definition firstDown : Web :=
{| scraperApi := FetchResponse 500 (lit "down");
   scrapingBee := FetchResponse 200 (lit "<main>ad</main>");
   zenRows := FetchResponse 200 (lit "<main>ad</main>");
   browser := GotoResponse 200 (lit "{}") (lit "<main>ad</main>") |}.

Definition firstDownEnv : Env :=
{| processEnv := twoKeys;
   web := replicate 10 firstDown;
   objectModel := objectModel sampleEnv;
   textModel := textModel sampleEnv;
   uuidv4 := uuidv4 sampleEnv;
   now := now sampleEnv |}.

(** The same invocation executed a day later. *)
Definition laterEnv : Env :=
with_now (fun _ => lit "2025-01-02T10:00:00.000Z") sampleEnv.

Definition sampleAd (adId : JsString) : PropertyAd :=
{| id := adId; url := idealistaUrl; source := Idealista;
   title := lit "Trilocale via Roma"; price := Some (250000 : N);
   location := lit "Milano"; size := Some (80 : N); rooms := Some (3 : N);
   bathrooms := None; description := lit "Trilocale luminoso al terzo piano.";
   descriptionSummary := lit "Trilocale al terzo piano.";
   renovationStatus := RenoNew; features := [lit "ascensore"];
   status := ToReachOut; notes := None; adAge := lit "oggi";
   scrapedAt := lit "2025-01-01T10:00:00.000Z" |}.

(** A project with two ads. *)
Definition milanStore : Store :=
{| criteria := Some (lit "2 bed Milan under 300k");
   ads := Some [sampleAd (lit "ad-1"); sampleAd (lit "ad-2")];
   questions := Some [];
   createdAt := Some (lit "2025-01-01T09:00:00.000Z") |}.

End Samples.

(** ** The API routes (app/api)

    The routes parse a request, check its fields, call one handler of
    the object named in the path through the ingress client, and turn
    the result, or the error they catch, into a response. *)

(** A field of a parsed request body, as far as the routes look at it:
    not there, of another type than string, or a string. *)
Inductive Field :=
| Missing
| NotAString
| Str (s : JsString).

(** [!v || typeof v !== "string"] fails exactly on the non-empty
    strings. *)
Definition nonEmptyString (v : Field) : option JsString :=
  match v with
  | Str (c :: s) => Some (c :: s)
  | _ => None
  end.

(** A code unit of the class [[a-zA-Z0-9-]]. *)
Definition isNameChar (c : N) : bool :=
  ((97 <=? c) && (c <=? 122))
  || ((65 <=? c) && (c <=? 90))
  || ((48 <=? c) && (c <=? 57))
  || (c =? 45).

(** [/^[a-zA-Z0-9-]+$/.test(name)] *)
Definition nameRegex_test (name : JsString) : bool :=
  truthy name && forallb isNameChar name.

(** What a call through the ingress client comes to for the route that
    awaits it: the value the handler returned, a refusal when the
    handler failed terminally, or nothing yet while the runtime keeps
    retrying the invocation. *)
Inductive Settled (A : Type) :=
| Fulfilled (a : A)
| Refused (message : JsString)
| Unsettled.
Arguments Fulfilled {A} a.
Arguments Refused {A} message.
Arguments Unsettled {A}.

Section Ingress.
Context `{Platform}.

(** The message of the error the ingress client throws when the handler
    failed with a terminal error of the given message. *)
Variable clientError : JsString -> JsString.

(** The JSON bodies the routes answer with. *)
Inductive Payload :=
| PError (error : JsString) (details : option JsString)
| PInvalidStatus (error : JsString) (validStatuses : list JsString)
| PMessage (message : JsString) (created : option JsString)
| PResearch (researchName : JsString) (researchCriteria : JsString)
| PAd (ad : PropertyAd)
| PAds (l : list PropertyAd)
| PAnswer (asked : JsString) (answered : JsString)
| PQuestions (l : list QuestionAnswer).

Record HttpResponse := {
  code : N;
  payload : Payload
}.

(** The objects of the service, by key. *)
Definition Objects : Type := JsString -> Store.

(** What a route leaves behind: its response, if it has one yet, the
    objects, and the external calls made on the way. *)
Definition Served : Type := option HttpResponse * Objects * list Call.

Definition responseOf (r : Served) : option HttpResponse := fst (fst r).
Definition objectsOf (r : Served) : Objects := snd (fst r).
Definition callsOf (r : Served) : list Call := snd r.

(** [getRestateClient().objectClient(researchTracker, key).handler(...)],
    as far as the handler decides it; a failure of the transport between
    the route and the runtime is left out. *)
Definition objectClient {A} (objs : Objects) (key : JsString) (h : M A)
  : Settled A * Objects * list Call :=
  let r := invoke h (objs key) in
  (match fst r with
   | Ok a => Fulfilled a
   | Throw (TerminalError m) => Refused (clientError m)
   | Throw (Error _) => Unsettled
   | Pending => Unsettled
   end,
   fun k => if bool_decide (k = key) then store (snd r) else objs k,
   calls (snd r)).

Definition respond (c : N) (p : Payload) : option HttpResponse :=
  Some {| code := c; payload := p |}.

(** The [catch] block the routes share: a message that contains
    [needle] gets the status [c] and the error text [known], any other
    one a 500 with the text [failed] and the message as details. *)
Definition caught (needle : JsString) (c : N) (known failed errorMessage : JsString)
  : option HttpResponse :=
  if includes needle errorMessage then respond c (PError known None)
  else respond 500 (PError failed (Some errorMessage)).

(** The route awaiting a call: [done] answers for the value, the catch
    block for a refusal. *)
Definition awaited {A} (call : Settled A * Objects * list Call)
    (done : A -> option HttpResponse) (onError : JsString -> option HttpResponse)
  : Served :=
  let '(settled, objs, cs) := call in
  (match settled with
   | Fulfilled a => done a
   | Refused errorMessage => onError errorMessage
   | Unsettled => None
   end, objs, cs).

(** POST /api/research.  [body] is [inl m] when reading the body throws
    an error of message [m]. *)
Record ResearchBody := { b_name : Field; b_criteria : Field }.

Definition POST_research (env : Env) (body : JsString + ResearchBody) (objs : Objects)
  : Served :=
  let onError :=
    caught (lit "already exists") 409 (lit "Research with this name already exists")
      (lit "Failed to create research") in
  match body with
  | inl errorMessage => (onError errorMessage, objs, [])
  | inr b =>
    match nonEmptyString (b_name b) with
    | None => (respond 400 (PError (lit "Research name is required") None), objs, [])
    | Some name =>
      match nonEmptyString (b_criteria b) with
      | None =>
        (respond 400 (PError (lit "Research criteria is required") None), objs, [])
      | Some criteria =>
        if negb (nameRegex_test name) || (50 <? length name)%nat then
          (respond 400
             (PError (lit "Research name must contain only letters, numbers, and hyphens (max 50 characters)")
                None), objs, [])
        else
          awaited (objectClient objs name (createResearch env criteria))
            (fun _ => respond 201
                        (PMessage (lit "Research created successfully") (Some name)))
            onError
      end
    end
  end.

(** GET /api/research/:name *)
Definition GET_research (name : JsString) (objs : Objects) : Served :=
  awaited (objectClient objs name getCriteria)
    (fun criteria => respond 200 (PResearch name criteria))
    (caught (lit "not found") 404 (lit "Research not found")
       (lit "Failed to fetch research")).

(** POST /api/ads/:researchName *)
Definition POST_ads (env : Env) (researchName : JsString) (body : JsString + Field)
    (objs : Objects) : Served :=
  let onError :=
    caught (lit "not found") 404 (lit "Research not found")
      (lit "Failed to add property ad") in
  match body with
  | inl errorMessage => (onError errorMessage, objs, [])
  | inr b_url =>
    match nonEmptyString b_url with
    | None => (respond 400 (PError (lit "URL is required") None), objs, [])
    | Some url =>
      match hostname url with
      | None => (respond 400 (PError (lit "Invalid URL format") None), objs, [])
      | Some host =>
        if negb (includes (lit "idealista.it") host)
           && negb (includes (lit "immobiliare.it") host) then
          (respond 400
             (PError (lit "Only idealista.it and immobiliare.it URLs are supported")
                None), objs, [])
        else
          awaited (objectClient objs researchName (addAd env url))
            (fun propertyAd => respond 201 (PAd propertyAd))
            onError
      end
    end
  end.

(** GET /api/ads/:researchName *)
Definition GET_ads (researchName : JsString) (objs : Objects) : Served :=
  awaited (objectClient objs researchName getAds)
    (fun ads => respond 200 (PAds ads))
    (caught (lit "not found") 404 (lit "Research not found")
       (lit "Failed to fetch ads")).

(** PATCH /api/ads/:researchName/:adId/status *)
Definition PATCH_status (researchName adId : JsString) (body : JsString + Field)
    (objs : Objects) : Served :=
  let onError :=
    caught (lit "not found") 404 (lit "Property ad not found in this research")
      (lit "Failed to update ad status") in
  match body with
  | inl errorMessage => (onError errorMessage, objs, [])
  | inr b_status =>
    match match b_status with
          | Str v => AdStatusSchema_safeParse v
          | _ => None
          end with
    | None =>
      (respond 400
         (PInvalidStatus (lit "Invalid status value") (map AdStatus_str AdStatus_all)),
       objs, [])
    | Some data =>
      awaited (objectClient objs researchName (updateAdStatus adId (AdStatus_str data)))
        (fun _ => respond 200 (PMessage (lit "Status updated successfully") None))
        onError
    end
  end.

(** PATCH /api/ads/:researchName/:adId/notes *)
Definition PATCH_notes (researchName adId : JsString) (body : JsString + Field)
    (objs : Objects) : Served :=
  let onError :=
    caught (lit "not found") 404 (lit "Property ad not found in this research")
      (lit "Failed to update ad notes") in
  match body with
  | inl errorMessage => (onError errorMessage, objs, [])
  | inr b_notes =>
    match b_notes with
    | Str notes =>
      awaited (objectClient objs researchName (updateAdNotes adId notes))
        (fun _ => respond 200 (PMessage (lit "Notes updated successfully") None))
        onError
    | _ => (respond 400 (PError (lit "Notes must be a string") None), objs, [])
    end
  end.

(** POST /api/questions/:researchName *)
Definition POST_questions (env : Env) (researchName : JsString) (body : JsString + Field)
    (objs : Objects) : Served :=
  let onError :=
    caught (lit "not found") 404 (lit "Research not found")
      (lit "Failed to process question") in
  match body with
  | inl errorMessage => (onError errorMessage, objs, [])
  | inr b_question =>
    match nonEmptyString b_question with
    | Some question =>
      if (length (trim question) =? 0)%nat then
        (respond 400
           (PError (lit "Question is required and must be a non-empty string") None),
         objs, [])
      else
        awaited (objectClient objs researchName (askQuestion env question))
          (fun answer => respond 200 (PAnswer question answer))
          onError
    | None =>
      (respond 400
         (PError (lit "Question is required and must be a non-empty string") None),
       objs, [])
    end
  end.

(** GET /api/questions/:researchName *)
Definition GET_questions (researchName : JsString) (objs : Objects) : Served :=
  awaited (objectClient objs researchName getQuestions)
    (fun questions => respond 200 (PQuestions questions))
    (caught (lit "not found") 404 (lit "Research not found")
       (lit "Failed to fetch questions")).

(** The client keeps the handler's message inside the message of the
    error it throws; the catch blocks of the routes look for parts of
    that message. *)
Definition keepsMessage : Prop :=
  forall needle m, includes needle m = true -> includes needle (clientError m) = true.

(** The same for one part only: whenever the handler's message contains
    [needle], so does the message of the error the client throws. *)
Definition keepsPart (needle : JsString) : Prop :=
  forall m, includes needle m = true -> includes needle (clientError m) = true.

(** The names POST /api/research lets through. *)
Definition validName (name : JsString) : Prop :=
  name <> [] /\ (length name <= 50)%nat /\ Forall (fun c => isNameChar c = true) name.

End Ingress.

(** ** The ingress client (lib/restate-client.ts) *)

(** The two variables the module reads from [process.env] when it is
    loaded. *)
Record ClientEnv := {
  RESTATE_URL_var : option JsString;
  RESTATE_CLOUD_TOKEN_var : option JsString
}.

(** [process.env.RESTATE_URL || "http://localhost:8080"] *)
Definition RESTATE_URL (e : ClientEnv) : JsString :=
  or_opt (RESTATE_URL_var e) (lit "http://localhost:8080").

(** What [clients.connect] is given. *)
Record IngressClient := {
  ingress_url : JsString;
  ingress_headers : list (JsString * JsString)
}.

(** The state of the module: the singleton, and how often
    [clients.connect] has been called. *)
Record ClientModule := {
  restateClient : option IngressClient;
  connects : nat
}.

Definition freshModule : ClientModule := {| restateClient := None; connects := 0 |}.

Definition getRestateClient (e : ClientEnv) (m : ClientModule)
  : IngressClient * ClientModule :=
  match restateClient m with
  | Some client => (client, m)
  | None =>
    let headers :=
      if truthy_opt (RESTATE_CLOUD_TOKEN_var e) then
        [(lit "Authorization",
          lit "Bearer " ++ default [] (RESTATE_CLOUD_TOKEN_var e))]
      else [] in
    let client := {| ingress_url := RESTATE_URL e; ingress_headers := headers |} in
    (client, {| restateClient := Some client; connects := S (connects m) |})
  end.

(** [n] calls in a row: the clients returned, and the module after the
    last call. *)
Fixpoint getRestateClient_times (n : nat) (e : ClientEnv) (m : ClientModule)
  : list IngressClient * ClientModule :=
  match n with
  | O => ([], m)
  | S n' =>
    let '(client, m') := getRestateClient e m in
    let '(clients, m'') := getRestateClient_times n' e m' in
    (client :: clients, m'')
  end.

(** ** Sequences of invocations *)

Section Sequences.
Context `{Platform}.

(** The store an invocation leaves. *)
Definition after {A} (h : M A) (s : Store) : Store := store (snd (invoke h s)).

(** The ads of a store, as [getAds] returns them. *)
Definition adsOf (s : Store) : list PropertyAd := default [] (ads s).

(** The questions of a store, as [getQuestions] returns them. *)
Definition questionsOf (s : Store) : list QuestionAnswer := default [] (questions s).

End Sequences.

(** ** Concrete surroundings for the routes *)

(** A client that puts the handler's message behind a prefix. *)
Definition sampleClientError (m : JsString) : JsString :=
  lit "Request failed: " ++ m.

Section RouteSamples.
#[local] Existing Instance samplePlatform.

Definition noObjects : Objects := fun _ => emptyStore.

(** One project, "milan-apts", with two ads. *)
Definition milanObjects : Objects :=
  fun k => if bool_decide (k = lit "milan-apts") then milanStore else emptyStore.

Definition milanBody : ResearchBody :=
  {| b_name := Str (lit "milan-apts");
     b_criteria := Str (lit "2 bed Milan under 300k") |}.

(** The page is served with a 503. *)
Definition page503 : Web :=
  {| scraperApi := FetchResponse 503 (lit "unavailable");
     scrapingBee := FetchResponse 503 (lit "unavailable");
     zenRows := FetchResponse 503 (lit "unavailable");
     browser := GotoResponse 503 (lit "{}") (lit "unavailable") |}.

(** The page fails twice and then loads; the extraction model fails
    once and then answers. *)
Definition flakyEnv : Env :=
  {| processEnv := noKeys;
     web := [page503; page503; pageOk];
     objectModel := fun _ _ => [inl (Error (lit "rate limited")); inr sampleExtraction];
     textModel := textModel sampleEnv;
     uuidv4 := uuidv4 sampleEnv;
     now := now sampleEnv |}.

End RouteSamples.

(** * Properties *)

(** Unfold the handlers down to the store and the outside world. *)
Ltac run_handlers :=
  unfold invoke, handle, createResearch, getCriteria, addAd, getAds,
    updateAdStatus, updateAdNotes, askQuestion, getQuestions,
    scrapeIdealistaAd, scrapeImmobiliareAd, fetch_html, durableCall, step,
    bind, ret, throw, ctx_get_criteria, ctx_get_ads, ctx_get_questions,
    ctx_set_criteria, ctx_set_ads, ctx_set_questions, ctx_set_createdAt,
    ctx_rand_uuidv4, new_Date_toISOString, read_store, modify_store, with_now;
  cbn [store calls randDraws clockReads processEnv web objectModel textModel
       uuidv4 now fst snd].

(** Case analysis on the innermost scrutinee, until none is left. *)
Ltac split_on_scrutinee :=
  repeat match goal with
         | |- context [match ?X with _ => _ end] =>
           lazymatch X with
           | context [match _ with _ => _ end] => fail
           | _ => destruct X eqn:?
           end
         end.

(** ** Creation and the read-only handlers *)

Section Existence.
Context `{Platform}.

Lemma truthy_opt_true (o : option JsString) :
  truthy_opt o = true <-> exists c cs, o = Some (c :: cs).
Proof.
  split.
  - destruct o as [[|c cs]|]; simpl; try discriminate. eauto.
  - intros (c & cs & ->). reflexivity.
Qed.

Lemma truthy_opt_false (o : option JsString) :
  truthy_opt o = false <-> o = None \/ o = Some [].
Proof.
  destruct o as [[|c cs]|]; simpl; split; auto; try discriminate.
  intros [?|?]; discriminate.
Qed.

Lemma createResearch_exists env c s :
  truthy_opt (criteria s) = true ->
  invoke (createResearch env c) s
  = (Throw AlreadyExists,
     {| store := s; calls := []; randDraws := 0; clockReads := 0 |}).
Proof.
  intros Hset. unfold invoke, createResearch, bind, ctx_get_criteria, read_store.
  simpl. rewrite Hset. reflexivity.
Qed.

Lemma createResearch_fresh env c s :
  truthy_opt (criteria s) = false ->
  invoke (createResearch env c) s
  = (Ok tt,
     {| store := {| criteria := Some c; ads := Some []; questions := Some [];
                    createdAt := Some (now env 0%nat) |};
        calls := []; randDraws := 0; clockReads := 1 |}).
Proof.
  intros Hunset. unfold invoke, createResearch, bind, ctx_get_criteria, read_store.
  simpl. rewrite Hunset. reflexivity.
Qed.

(** C3 (as amended).  [createResearch] fails with the already-exists
    error exactly when the stored criteria is a non-empty string, and
    then leaves the whole store as it was; otherwise it succeeds and
    sets the criteria to its argument, the ad list and the question
    list to the empty list, and the creation time to the clock's
    reading.  After a creation with a non-empty criteria every further
    creation on the same object fails. *)
Theorem createResearch_spec (env : Env) (c : JsString) (s : Store) :
  let r := invoke (createResearch env c) s in
  (fst r = Throw AlreadyExists <-> exists x xs, criteria s = Some (x :: xs))
  /\ (fst r = Throw AlreadyExists -> store (snd r) = s)
  /\ (fst r <> Throw AlreadyExists ->
      fst r = Ok tt
      /\ store (snd r)
         = {| criteria := Some c; ads := Some []; questions := Some [];
              createdAt := Some (now env 0%nat) |})
  /\ (fst r = Ok tt -> c <> [] ->
      forall env' c', fst (invoke (createResearch env' c') (store (snd r)))
                      = Throw AlreadyExists).
Proof.
  intros r. subst r. rewrite <- truthy_opt_true.
  destruct (truthy_opt (criteria s)) eqn:Hset.
  - rewrite createResearch_exists by assumption. simpl.
    split; [tauto|]. split; [reflexivity|]. split.
    + intros Hne. contradict Hne. reflexivity.
    + discriminate.
  - rewrite createResearch_fresh by assumption. simpl.
    split; [split; discriminate|]. split; [discriminate|]. split.
    + intros _. split; reflexivity.
    + intros _ Hc env' c'. rewrite createResearch_exists; [reflexivity|].
      simpl. destruct c; [congruence | reflexivity].
Qed.

(** C10.  On an object without (truthy) criteria, creating with the
    empty string succeeds and overwrites the ad and question lists
    with empty lists, yet the object still does not exist for the
    interface: a further creation succeeds as well, and [getCriteria]
    still fails with "Research not found". *)
Theorem createResearch_empty_criteria (env env' : Env) (c' : JsString) (s : Store) :
  truthy_opt (criteria s) = false ->
  let r := invoke (createResearch env []) s in
  fst r = Ok tt
  /\ criteria (store (snd r)) = Some []
  /\ ads (store (snd r)) = Some []
  /\ questions (store (snd r)) = Some []
  /\ fst (invoke (createResearch env' c') (store (snd r))) = Ok tt
  /\ fst (invoke getCriteria (store (snd r))) = Throw ResearchNotFound.
Proof.
  intros Hunset r. subst r.
  rewrite createResearch_fresh by assumption.
  cbn [fst snd store criteria ads questions].
  rewrite createResearch_fresh by reflexivity.
  repeat split; reflexivity.
Qed.

(** C9 (as amended).  Of the read-only handlers only [getCriteria]
    checks that the project exists: it fails with "Research not found"
    when no non-empty criteria is stored.  [getAds] and [getQuestions]
    never fail; they return the stored list, and the empty list when
    none is stored.  None of the three changes the store. *)
Theorem readers_spec (s : Store) :
  (truthy_opt (criteria s) = false ->
   fst (invoke getCriteria s) = Throw ResearchNotFound)
  /\ (forall c, criteria s = Some c -> c <> [] ->
      fst (invoke getCriteria s) = Ok c)
  /\ fst (invoke getAds s) = Ok (default [] (ads s))
  /\ fst (invoke getQuestions s) = Ok (default [] (questions s))
  /\ store (snd (invoke getCriteria s)) = s
  /\ store (snd (invoke getAds s)) = s
  /\ store (snd (invoke getQuestions s)) = s.
Proof.
  unfold invoke, getCriteria, getAds, getQuestions, bind, ret, throw,
    ctx_get_criteria, ctx_get_ads, ctx_get_questions, read_store; simpl.
  split; [intros ->; reflexivity|].
  split; [intros c -> Hc; destruct c; [congruence | reflexivity]|].
  split; [reflexivity|]. split; [reflexivity|].
  split; [destruct (truthy_opt (criteria s)); reflexivity|].
  split; reflexivity.
Qed.

End Existence.

(** ** Updating an ad *)

Section Updates.
Context `{Platform}.

Lemma safeParse_complete (st : AdStatus) :
  AdStatusSchema_safeParse (AdStatus_str st) = Some st.
Proof. destruct st; reflexivity. Qed.

Lemma safeParse_sound (v : JsString) (st : AdStatus) :
  AdStatusSchema_safeParse v = Some st -> AdStatus_str st = v.
Proof.
  unfold AdStatusSchema_safeParse, AdStatus_all. simpl.
  repeat case_bool_decide; intros [= <-]; assumption.
Qed.

Lemma safeParse_outside (v : JsString) :
  (forall st, AdStatus_str st <> v) -> AdStatusSchema_safeParse v = None.
Proof.
  intros Hout. destruct (AdStatusSchema_safeParse v) as [st|] eqn:E; [|reflexivity].
  apply safeParse_sound in E. destruct (Hout st E).
Qed.

Lemma findIndex_None {A} (p : A -> bool) (l : list A) :
  (forall x, x ∈ l -> p x = false) -> findIndex p l = None.
Proof.
  induction l as [|x l IH]; intros Hall; [reflexivity|]. simpl.
  rewrite (Hall x) by left. rewrite IH; [reflexivity|].
  intros y Hy. apply Hall. right. exact Hy.
Qed.

Lemma findIndex_first {A} (p : A -> bool) (l : list A) (i : nat) (x : A) :
  l !! i = Some x -> p x = true ->
  (forall j y, (j < i)%nat -> l !! j = Some y -> p y = false) ->
  findIndex p l = Some i.
Proof.
  revert i. induction l as [|y l IH]; intros i Hi Hp Hbefore; [discriminate|].
  destruct i as [|i]; simpl in *.
  - injection Hi as ->. rewrite Hp. reflexivity.
  - rewrite (Hbefore 0%nat y) by (lia || reflexivity).
    rewrite (IH i); [reflexivity | assumption | assumption |].
    intros j z Hj Hz. apply (Hbefore (S j) z); [lia | exact Hz].
Qed.

Lemma no_ad_with_id (adId : JsString) (l : list PropertyAd) :
  (forall ad, ad ∈ l -> id ad <> adId) ->
  findIndex (fun ad => bool_decide (id ad = adId)) l = None.
Proof.
  intros Hno. apply findIndex_None. intros ad Had.
  apply bool_decide_eq_false. auto.
Qed.

Lemma found_first_with_id (adId : JsString) (l : list PropertyAd) i ad :
  first_with_id adId l i ad ->
  findIndex (fun ad => bool_decide (id ad = adId)) l = Some i.
Proof.
  intros (Hi & Hid & Hbefore). apply (findIndex_first _ l i ad); auto.
  - apply bool_decide_eq_true. exact Hid.
  - intros j y Hj Hy. apply bool_decide_eq_false. eauto.
Qed.

(** What [ads[i] = f(ads[i])] does to the list. *)
Lemma alter_frame (f : PropertyAd -> PropertyAd) (l : list PropertyAd) i ad :
  l !! i = Some ad ->
  length (alter f i l) = length l
  /\ alter f i l !! i = Some (f ad)
  /\ forall j, j <> i -> alter f i l !! j = l !! j.
Proof.
  intros Hi. split; [apply length_alter|]. split.
  - rewrite list_lookup_alter_eq, Hi. reflexivity.
  - intros j Hj. apply list_lookup_alter_ne. auto.
Qed.

Lemma updateAdStatus_invalid adId status s :
  (forall st, AdStatus_str st <> status) ->
  invoke (updateAdStatus adId status) s
  = (Throw (InvalidStatus status),
     {| store := s; calls := []; randDraws := 0; clockReads := 0 |}).
Proof.
  intros Hout. unfold invoke, updateAdStatus.
  rewrite safeParse_outside by assumption. reflexivity.
Qed.

Lemma updateAdStatus_unknown adId st s :
  (forall ad, ad ∈ default [] (ads s) -> id ad <> adId) ->
  invoke (updateAdStatus adId (AdStatus_str st)) s
  = (Throw AdNotFound,
     {| store := s; calls := []; randDraws := 0; clockReads := 0 |}).
Proof.
  intros Hno. unfold invoke, updateAdStatus.
  rewrite safeParse_complete.
  unfold bind, ctx_get_ads, read_store. cbn [store].
  rewrite no_ad_with_id by assumption. reflexivity.
Qed.

Lemma updateAdStatus_known adId st s i ad :
  first_with_id adId (default [] (ads s)) i ad ->
  invoke (updateAdStatus adId (AdStatus_str st)) s
  = (Ok tt,
     {| store := {| criteria := criteria s;
                    ads := Some (alter (with_status st) i (default [] (ads s)));
                    questions := questions s; createdAt := createdAt s |};
        calls := []; randDraws := 0; clockReads := 0 |}).
Proof.
  intros Hfirst. unfold invoke, updateAdStatus.
  rewrite safeParse_complete.
  unfold bind, ctx_get_ads, read_store. cbn [store].
  rewrite (found_first_with_id _ _ _ _ Hfirst). reflexivity.
Qed.

Lemma updateAdNotes_unknown adId notes s :
  (forall ad, ad ∈ default [] (ads s) -> id ad <> adId) ->
  invoke (updateAdNotes adId notes) s
  = (Throw AdNotFound,
     {| store := s; calls := []; randDraws := 0; clockReads := 0 |}).
Proof.
  intros Hno. unfold invoke, updateAdNotes.
  unfold bind, ctx_get_ads, read_store. cbn [store].
  rewrite no_ad_with_id by assumption. reflexivity.
Qed.

Lemma updateAdNotes_known adId notes s i ad :
  first_with_id adId (default [] (ads s)) i ad ->
  invoke (updateAdNotes adId notes) s
  = (Ok tt,
     {| store := {| criteria := criteria s;
                    ads := Some (alter (with_notes notes) i (default [] (ads s)));
                    questions := questions s; createdAt := createdAt s |};
        calls := []; randDraws := 0; clockReads := 0 |}).
Proof.
  intros Hfirst. unfold invoke, updateAdNotes.
  unfold bind, ctx_get_ads, read_store. cbn [store].
  rewrite (found_first_with_id _ _ _ _ Hfirst). reflexivity.
Qed.

(** C4.  [updateAdStatus] rejects a status outside the enum before it
    looks at the ads; with a status of the enum it fails with the
    not-found error, the store untouched, when no ad has the id, and
    otherwise sets the status of the first ad with that id, leaving
    the other fields of that ad, the other ads, and the criteria, the
    questions and the creation time as they were.  [updateAdNotes]
    does the same for the notes, without any check on the value. *)
Theorem update_handlers_frame (adId newStatus newNotes : JsString) (s : Store) :
  let l := default [] (ads s) in
  let r := invoke (updateAdStatus adId newStatus) s in
  let r' := invoke (updateAdNotes adId newNotes) s in
  ((forall st, AdStatus_str st <> newStatus) ->
   fst r = Throw (InvalidStatus newStatus) /\ store (snd r) = s)
  /\ (forall st, AdStatus_str st = newStatus ->
      ((forall ad, ad ∈ l -> id ad <> adId) ->
       fst r = Throw AdNotFound /\ store (snd r) = s)
      /\ (forall i ad, first_with_id adId l i ad ->
          fst r = Ok tt
          /\ same_but_ads s (store (snd r))
          /\ exists l' ad',
              ads (store (snd r)) = Some l'
              /\ length l' = length l
              /\ l' !! i = Some ad'
              /\ status ad' = st /\ agree_but_status ad' ad
              /\ forall j, j <> i -> l' !! j = l !! j))
  /\ ((forall ad, ad ∈ l -> id ad <> adId) ->
      fst r' = Throw AdNotFound /\ store (snd r') = s)
  /\ (forall i ad, first_with_id adId l i ad ->
      fst r' = Ok tt
      /\ same_but_ads s (store (snd r'))
      /\ exists l' ad',
          ads (store (snd r')) = Some l'
          /\ length l' = length l
          /\ l' !! i = Some ad'
          /\ notes ad' = Some newNotes /\ agree_but_notes ad' ad
          /\ forall j, j <> i -> l' !! j = l !! j).
Proof.
  intros l r r'. subst l r r'. split; [|split; [|split]].
  - intros Hout. rewrite updateAdStatus_invalid by assumption. split; reflexivity.
  - intros st <-. split.
    + intros Hno. rewrite updateAdStatus_unknown by assumption. split; reflexivity.
    + intros i ad Hfirst. rewrite (updateAdStatus_known _ _ _ _ _ Hfirst).
      cbn [fst snd store]. split; [reflexivity|].
      split; [repeat split|].
      destruct Hfirst as (Hi & _ & _).
      destruct (alter_frame (with_status st) _ _ _ Hi) as (Hlen & Hat & Hother).
      eexists _, _. cbn [ads].
      split; [reflexivity|]. split; [exact Hlen|]. split; [exact Hat|].
      split; [reflexivity|]. split; [repeat split | exact Hother].
  - intros Hno. rewrite updateAdNotes_unknown by assumption. split; reflexivity.
  - intros i ad Hfirst. rewrite (updateAdNotes_known _ _ _ _ _ Hfirst).
    cbn [fst snd store]. split; [reflexivity|].
    split; [repeat split|].
    destruct Hfirst as (Hi & _ & _).
    destruct (alter_frame (with_notes newNotes) _ _ _ Hi) as (Hlen & Hat & Hother).
    eexists _, _. cbn [ads].
    split; [reflexivity|]. split; [exact Hlen|]. split; [exact Hat|].
    split; [reflexivity|]. split; [repeat split | exact Hother].
Qed.

End Updates.

(** ** Journaled steps *)

Section Steps.
Context `{Platform}.

(** Every call of a step is a call of one of its attempts. *)
Lemma ctx_run_calls {A} (cfg : RetryConfig) (attempts : list (list Call * (Exn + A))) c :
  c ∈ snd (ctx_run cfg attempts) -> exists att, att ∈ attempts /\ c ∈ fst att.
Proof.
  revert cfg. induction attempts as [|[cs r] rest IH]; intros cfg Hc; simpl in Hc.
  - inversion Hc.
  - assert (Hhere : c ∈ cs -> exists att, att ∈ (cs, r) :: rest /\ c ∈ fst att).
    { intros Hin. exists (cs, r). split; [left | exact Hin]. }
    assert (Hlater : forall cfg', c ∈ snd (ctx_run cfg' rest) ->
              exists att, att ∈ (cs, r) :: rest /\ c ∈ fst att).
    { intros cfg' Hin. destruct (IH cfg' Hin) as (att & Hatt & Hcin).
      exists att. split; [right; exact Hatt | exact Hcin]. }
    destruct r as [[m|m]|v]; simpl in Hc; auto.
    destruct cfg as [n|].
    + destruct (n <=? 1)%nat; simpl in Hc; auto.
      destruct (ctx_run (Some (n - 1)%nat) rest) as [o cs'] eqn:E. simpl in Hc.
      apply elem_of_app in Hc as [Hc|Hc]; auto.
      apply (Hlater (Some (n - 1)%nat)). rewrite E. exact Hc.
    + destruct (ctx_run None rest) as [o cs'] eqn:E. simpl in Hc.
      apply elem_of_app in Hc as [Hc|Hc]; auto.
      apply (Hlater None). rewrite E. exact Hc.
Qed.

(** A step whose attempts fail with ordinary errors and then succeed,
    within the attempts the configuration allows, returns the value. *)
Lemma ctx_run_retried {A} (cfg : RetryConfig) (failed : list (list Call * JsString))
    (cs : list Call) (a : A) rest :
  allowsAfter cfg (length failed) ->
  ctx_run cfg (map (fun f => (fst f, inl (Error (snd f)))) failed ++ (cs, inr a) :: rest)
  = (Ok a, concat (map fst failed) ++ cs).
Proof.
  revert cfg. induction failed as [|[cs0 m] failed IH]; intros cfg Hallow; simpl.
  - reflexivity.
  - destruct cfg as [n|]; simpl in Hallow.
    + destruct (n <=? 1)%nat eqn:En; [apply Nat.leb_le in En; lia|].
      rewrite (IH (Some (n - 1)%nat)) by (simpl; lia).
      rewrite <- app_assoc. reflexivity.
    + rewrite (IH None) by exact I. rewrite <- app_assoc. reflexivity.
Qed.

Lemma durableCall_answers {A} cfg (c : Call) (msgs : list JsString) (a : A) rest x :
  allowsAfter cfg (length msgs) ->
  durableCall cfg c (answersAfter msgs a rest) x
  = (Ok a, {| store := store x;
              calls := calls x ++ replicate (S (length msgs)) c;
              randDraws := randDraws x; clockReads := clockReads x |}).
Proof.
  intros Hallow. unfold durableCall, step, answersAfter.
  rewrite map_app, map_map. simpl.
  rewrite <- (map_map (fun m => ([c], m)) (fun f => (fst f, inl (Error (snd f))))).
  rewrite ctx_run_retried by (rewrite length_map; exact Hallow).
  rewrite map_map. simpl. do 3 f_equal.
  clear. induction msgs as [|m msgs IH]; [reflexivity|].
  simpl. simpl in IH. rewrite IH. reflexivity.
Qed.

Lemma durableCall_calls {A} cfg (c : Call) (results : list (Exn + A)) x c' :
  c' ∈ calls (snd (durableCall cfg c results x)) -> c' ∈ calls x \/ c' = c.
Proof.
  unfold durableCall, step.
  destruct (ctx_run cfg (map (fun r => ([c], r)) results)) as [o cs] eqn:E.
  simpl. intros Hin. apply elem_of_app in Hin as [Hin|Hin]; [left; exact Hin|].
  right. assert (Hc : c' ∈ snd (ctx_run cfg (map (fun r => ([c], r)) results)))
    by (rewrite E; exact Hin).
  apply ctx_run_calls in Hc as (att & Hatt & Hcin).
  apply list_elem_of_fmap in Hatt as (r & -> & _). simpl in Hcin.
  apply list_elem_of_singleton in Hcin. exact Hcin.
Qed.


(** With a cap of [n] attempts it gives up at the n-th failure, with
    a terminal error. *)
Lemma ctx_run_gives_up {A} (n : nat) (attempts : list (list Call * (Exn + A))) :
  Forall failsOrdinarily attempts ->
  (1 <= n <= length attempts)%nat ->
  exists m, ctx_run (Some n) attempts
            = (Throw (TerminalError m), concat (map fst (take n attempts))).
Proof.
  intros Hall. revert n.
  induction Hall as [|[cs r] rest (m & Hm) _ IH]; intros n [Hn Hlen]; simpl in *.
  { lia. }
  subst r. destruct (n <=? 1)%nat eqn:En.
  - apply Nat.leb_le in En. assert (n = 1%nat) as -> by lia.
    exists m. simpl. rewrite app_nil_r. reflexivity.
  - apply Nat.leb_gt in En. destruct (IH (n - 1)%nat) as (m' & Hrun); [lia|].
    exists m'. rewrite Hrun. destruct n as [|n]; [lia|].
    simpl. rewrite Nat.sub_0_r. reflexivity.
Qed.

Lemma concat_single_calls {A B} (c : Call) (f : A -> B) (l : list A) :
  concat (map fst (map (fun a => ([c], f a)) l)) = replicate (length l) c.
Proof. induction l as [|a l IH]; [reflexivity|]. simpl. rewrite IH. reflexivity. Qed.

Lemma step_store {A} cfg (attempts : list (list Call * (Exn + A))) x :
  store (snd (step cfg attempts x)) = store x.
Proof. unfold step. destruct (ctx_run cfg attempts). reflexivity. Qed.

End Steps.

(** ** Parts of strings *)

Section Substrings.

Lemma startsWith_app (p a b : JsString) :
  startsWith p a = true -> startsWith p (a ++ b) = true.
Proof.
  revert a. induction p as [|c p IH]; intros a; [reflexivity|].
  destruct a as [|d a]; [discriminate|]. simpl.
  rewrite !andb_true_iff. intros [Hc Hp]. auto.
Qed.

Lemma includes_app_l (p a b : JsString) :
  includes p a = true -> includes p (a ++ b) = true.
Proof.
  induction a as [|d a IH]; simpl.
  - rewrite orb_false_r. intros Hp. destruct p; [|discriminate].
    destruct b; reflexivity.
  - rewrite !orb_true_iff. intros [Hp|Hp]; [left|right; auto].
    apply (startsWith_app p (d :: a) b Hp).
Qed.

Lemma includes_app_r (p a b : JsString) :
  includes p b = true -> includes p (a ++ b) = true.
Proof.
  intros Hp. induction a as [|d a IH]; [exact Hp|].
  simpl. rewrite IH. apply orb_true_r.
Qed.

Lemma startsWith_refl (p : JsString) : startsWith p p = true.
Proof. induction p as [|c p IH]; [reflexivity|]. simpl. rewrite N.eqb_refl. exact IH. Qed.

Lemma includes_refl (p : JsString) : includes p p = true.
Proof. destruct p; simpl; [reflexivity|]. rewrite N.eqb_refl, startsWith_refl. reflexivity. Qed.

Lemma includes_join (p sep : JsString) (l : list JsString) (x : JsString) :
  x ∈ l -> includes p x = true -> includes p (join sep l) = true.
Proof.
  intros Hx Hp. induction l as [|y l IH]; [inversion Hx|].
  apply elem_of_cons in Hx as [<-|Hx].
  - destruct l; [exact Hp|]. cbn [join]. apply includes_app_l. exact Hp.
  - destruct l as [|z l]; [inversion Hx|].
    change (join sep (y :: z :: l)) with (y ++ sep ++ join sep (z :: l)).
    do 2 apply includes_app_r. exact (IH Hx).
Qed.

Lemma startsWith_here (p rest : JsString) : startsWith p (p ++ rest) = true.
Proof. apply startsWith_app, startsWith_refl. Qed.

Lemma startsWith_app_same (a p h : JsString) :
  startsWith p h = true -> startsWith (a ++ p) (a ++ h) = true.
Proof.
  intros Hp. induction a as [|c a IH]; [exact Hp|].
  simpl. rewrite N.eqb_refl. exact IH.
Qed.

Lemma includes_starts (p h : JsString) : startsWith p h = true -> includes p h = true.
Proof. intros Hp. destruct h; simpl in *; rewrite Hp; reflexivity. Qed.

End Substrings.

(** Find a part in a concatenation. *)
Ltac find_part :=
  solve [ apply includes_refl
        | apply includes_app_l; apply includes_refl
        | apply includes_app_r; find_part ].

(** Check that a concatenation starts with the parts of another. *)
Ltac starts_line :=
  solve [ apply startsWith_refl
        | apply startsWith_here
        | apply startsWith_app_same; starts_line ].

(** Find consecutive parts in a concatenation. *)
Ltac find_line :=
  solve [ apply includes_starts; starts_line
        | apply includes_app_r; find_line ].

(** ** Questions *)

Section Questions.
Context `{Platform}.

Lemma trimStart_blank (q : JsString) : blank q -> trimStart q = [].
Proof.
  induction 1 as [|c q Hc _ IH]; [reflexivity|]. simpl. rewrite Hc. exact IH.
Qed.

Lemma trimStart_nil (q : JsString) : trimStart q = [] -> blank q.
Proof.
  induction q as [|c q IH]; intros Hq; [constructor|].
  simpl in Hq. destruct (isWhiteSpace c) eqn:Hc; [|discriminate].
  apply Forall_cons. split; [exact Hc | exact (IH Hq)].
Qed.

(** What [trimStart] leaves does not start with white space. *)
Lemma trimStart_blank_nil (q : JsString) : blank (trimStart q) -> trimStart q = [].
Proof.
  induction q as [|c q IH]; intros Hq; [reflexivity|].
  simpl in *. destruct (isWhiteSpace c) eqn:Hc; [auto|].
  inversion Hq; congruence.
Qed.

Lemma blank_reverse (q : JsString) : blank (reverse q) -> blank q.
Proof.
  unfold blank. rewrite !Forall_forall. intros Hq c Hc.
  apply Hq. rewrite elem_of_reverse. exact Hc.
Qed.

Lemma trim_nil_iff (q : JsString) : trim q = [] <-> blank q.
Proof.
  unfold trim, trimEnd. split.
  - intros Hq. apply trimStart_nil, trimStart_blank_nil.
    apply blank_reverse, trimStart_nil.
    apply (f_equal reverse) in Hq. rewrite reverse_involutive in Hq. exact Hq.
  - intros Hq. rewrite (trimStart_blank q Hq). reflexivity.
Qed.

(** The guard of [askQuestion] holds exactly for the blank strings. *)
Lemma empty_question_iff (q : JsString) :
  negb (truthy q) || (length (trim q) =? 0)%nat = true <-> blank q.
Proof.
  rewrite orb_true_iff, Nat.eqb_eq, length_zero_iff_nil, trim_nil_iff.
  split; [|auto]. intros [Hq|Hq]; [|exact Hq].
  destruct q; [constructor | discriminate].
Qed.

Lemma askQuestion_blank env q s :
  blank q ->
  invoke (askQuestion env q) s
  = (Throw EmptyQuestion,
     {| store := s; calls := []; randDraws := 0; clockReads := 0 |}).
Proof.
  intros Hq. apply empty_question_iff in Hq.
  unfold invoke, askQuestion. rewrite Hq. reflexivity.
Qed.

Lemma askQuestion_answered env q s msgs a rest :
  ~ blank q ->
  textModel env (questionPrompt (criteria s) (default [] (ads s)) q)
  = answersAfter msgs a rest ->
  (length msgs < 3)%nat ->
  invoke (askQuestion env q) s
  = (Ok a,
     {| store :=
          {| criteria := criteria s; ads := ads s;
             questions :=
               Some (default [] (questions s)
                     ++ [{| qa_id := uuidv4 env 0%nat; question := q;
                            answer := a; askedAt := now env 0%nat |}]);
             createdAt := createdAt s |};
        calls := replicate (S (length msgs))
                   (CallGenerateText
                      (questionPrompt (criteria s) (default [] (ads s)) q));
        randDraws := 1; clockReads := 1 |}).
Proof.
  intros Hq Hmodel Hlen.
  assert (Hguard : negb (truthy q) || (length (trim q) =? 0)%nat = false).
  { destruct (negb (truthy q) || (length (trim q) =? 0)%nat) eqn:E; [|reflexivity].
    apply empty_question_iff in E. contradiction. }
  unfold invoke, askQuestion. rewrite Hguard.
  unfold bind at 1. unfold ctx_get_ads, read_store. cbn [store fst snd].
  unfold bind at 1. unfold ctx_get_criteria, read_store. cbn [store fst snd].
  unfold bind at 1. rewrite Hmodel.
  rewrite durableCall_answers by exact Hlen.
  reflexivity.
Qed.

Lemma askQuestion_calls env q s c :
  c ∈ calls (snd (invoke (askQuestion env q) s)) ->
  c = CallGenerateText (questionPrompt (criteria s) (default [] (ads s)) q).
Proof.
  unfold invoke, askQuestion.
  destruct (negb (truthy q) || (length (trim q) =? 0)%nat).
  { simpl. intros Hc. inversion Hc. }
  unfold bind at 1. unfold ctx_get_ads, read_store. cbn [store fst snd].
  unfold bind at 1. unfold ctx_get_criteria, read_store. cbn [store fst snd].
  unfold bind at 1.
  set (prompt := questionPrompt (criteria s) (default [] (ads s)) q).
  set (x0 := {| store := s; calls := []; randDraws := 0; clockReads := 0 |}).
  pose proof (durableCall_calls (Some 3%nat) (CallGenerateText prompt)
                (textModel env prompt) x0 c) as Hcalls.
  destruct (durableCall (Some 3%nat) (CallGenerateText prompt)
              (textModel env prompt) x0) as [[a| e |] x1] eqn:E;
    cbn [fst snd calls] in *; intros Hc.
  - destruct Hcalls as [Hin|Heq]; [exact Hc | inversion Hin | exact Heq].
  - destruct Hcalls as [Hin|Heq]; [exact Hc | inversion Hin | exact Heq].
  - destruct Hcalls as [Hin|Heq]; [exact Hc | inversion Hin | exact Heq].
Qed.

Lemma shown_number_shown (pre post : JsString) (x : option Number) (n : Number) :
  x = Some n -> numberTruthy n = true ->
  shown_number pre x post = pre ++ numberToString n ++ post.
Proof. intros -> Hn. unfold shown_number. rewrite Hn. reflexivity. Qed.

(** The lines of the text rendered for one ad. *)
Lemma adContext_lines (i : nat) (ad : PropertyAd) :
  let shown line := includes line (adContext i ad) = true in
  shown (lit "Property " ++ decimal (N.of_nat i + 1) ++ lit ":" ++ nl)
  /\ shown (lit "- Title: " ++ title ad ++ nl)
  /\ (forall n, price ad = Some n -> numberTruthy n = true ->
      shown (lit "- Price: " ++ [8364] ++ numberToString n ++ nl))
  /\ shown (lit "- Location: " ++ location ad ++ nl)
  /\ (forall n, size ad = Some n -> numberTruthy n = true ->
      shown (lit "- Size: " ++ numberToString n ++ lit "m" ++ [178] ++ nl))
  /\ (forall n, rooms ad = Some n -> numberTruthy n = true ->
      shown (lit "- Rooms: " ++ numberToString n ++ nl))
  /\ (forall n, bathrooms ad = Some n -> numberTruthy n = true ->
      shown (lit "- Bathrooms: " ++ numberToString n ++ nl))
  /\ shown (lit "- Renovation Status: "
            ++ RenovationStatus_str (renovationStatus ad) ++ nl)
  /\ shown (lit "- Description Summary: " ++ descriptionSummary ad ++ nl)
  /\ shown (lit "- Features: " ++ join (lit ", ") (take 5 (features ad)) ++ nl)
  /\ shown (lit "- Status: " ++ AdStatus_str (status ad) ++ nl)
  /\ (forall n, notes ad = Some n -> n <> [] -> shown (lit "- Notes: " ++ n ++ nl))
  /\ (notes ad = None \/ notes ad = Some [] ->
      shown (lit "- Notes: " ++ lit "No notes" ++ nl))
  /\ shown (lit "- URL: " ++ url ad ++ nl).
Proof.
  intros shown. subst shown. cbv beta. unfold adContext.
  split; [find_line|]. split; [find_line|].
  split.
  { intros n Hn Ht. rewrite (shown_number_shown _ _ _ n Hn Ht).
    rewrite app_nil_r, <- !app_assoc. find_line. }
  split; [find_line|].
  split.
  { intros n Hn Ht. rewrite (shown_number_shown _ _ _ n Hn Ht).
    rewrite app_nil_l, <- !app_assoc. find_line. }
  split.
  { intros n Hn Ht. rewrite (shown_number_shown _ _ _ n Hn Ht).
    rewrite app_nil_l, app_nil_r. find_line. }
  split.
  { intros n Hn Ht. rewrite (shown_number_shown _ _ _ n Hn Ht).
    rewrite app_nil_l, app_nil_r. find_line. }
  split; [find_line|]. split; [find_line|]. split; [find_line|].
  split; [find_line|].
  split.
  { intros n Hn Hne. rewrite Hn. destruct n as [|c n]; [congruence|].
    change (or_opt (Some (c :: n)) (lit "No notes")) with (c :: n). find_line. }
  split; [|find_line].
  intros [Hn|Hn]; rewrite Hn;
    change (or_opt _ (lit "No notes")) with (lit "No notes"); find_line.
Qed.

(** What the prompt of [askQuestion] is made of: the criteria, the
    question, and the text rendered for every ad. *)
Lemma questionPrompt_parts (c : option JsString) (l : list PropertyAd) (q : JsString) :
  let prompt := questionPrompt c l q in
  includes (lit "Criteri di ricerca: " ++ default (lit "null") c ++ nl) prompt = true
  /\ includes (lit "Domanda dell'utente: " ++ q ++ nl) prompt = true
  /\ forall i ad line,
       l !! i = Some ad ->
       includes line (adContext i ad) = true -> includes line prompt = true.
Proof.
  intros prompt. subst prompt. unfold questionPrompt.
  split; [find_line|]. split; [find_line|].
  intros i ad line Hi Hline.
  do 9 apply includes_app_r. apply includes_app_l.
  unfold adsContext. apply (includes_join _ _ _ (adContext i ad)); [|exact Hline].
  apply elem_of_lookup_imap_2. exact Hi.
Qed.

(** C5.  [askQuestion] rejects a question that is empty or only white
    space, changing nothing and calling nothing.  Whatever the
    question, the only calls it makes are text-model calls with one
    prompt: no fetch provider and no extraction.  That prompt carries
    the stored criteria ("null" when none is stored), the question
    and, for every stored ad, a numbered block with its title, price,
    location, size, rooms, bathrooms, renovation status, summary,
    first five features, status, notes ("No notes" when there are none
    or they are empty) and URL, each on its labelled line; a number is
    shown when it is there and truthy.  When the model answers that
    prompt within its three attempts, the handler returns the answer
    and appends one entry holding the question and that same answer to
    the question list, the rest of the store unchanged. *)
Theorem askQuestion_spec (env : Env) (q : JsString) (s : Store) :
  let r := invoke (askQuestion env q) s in
  let prompt := questionPrompt (criteria s) (default [] (ads s)) q in
  let carries line := includes line prompt = true in
  (blank q ->
   fst r = Throw EmptyQuestion /\ store (snd r) = s /\ calls (snd r) = [])
  /\ (forall c, c ∈ calls (snd r) -> c = CallGenerateText prompt)
  /\ (~ blank q ->
      forall msgs a rest,
        textModel env prompt = answersAfter msgs a rest ->
        (length msgs < 3)%nat ->
        fst r = Ok a
        /\ exists qa,
            store (snd r)
            = {| criteria := criteria s; ads := ads s;
                 questions := Some (default [] (questions s) ++ [qa]);
                 createdAt := createdAt s |}
            /\ question qa = q /\ answer qa = a
            /\ qa_id qa = uuidv4 env 0%nat /\ askedAt qa = now env 0%nat)
  /\ carries (lit "Criteri di ricerca: " ++ default (lit "null") (criteria s) ++ nl)
  /\ carries (lit "Domanda dell'utente: " ++ q ++ nl)
  /\ (forall i ad,
        default [] (ads s) !! i = Some ad ->
        carries (lit "Property " ++ decimal (N.of_nat i + 1) ++ lit ":" ++ nl)
        /\ carries (lit "- Title: " ++ title ad ++ nl)
        /\ (forall n, price ad = Some n -> numberTruthy n = true ->
            carries (lit "- Price: " ++ [8364] ++ numberToString n ++ nl))
        /\ carries (lit "- Location: " ++ location ad ++ nl)
        /\ (forall n, size ad = Some n -> numberTruthy n = true ->
            carries (lit "- Size: " ++ numberToString n ++ lit "m" ++ [178] ++ nl))
        /\ (forall n, rooms ad = Some n -> numberTruthy n = true ->
            carries (lit "- Rooms: " ++ numberToString n ++ nl))
        /\ (forall n, bathrooms ad = Some n -> numberTruthy n = true ->
            carries (lit "- Bathrooms: " ++ numberToString n ++ nl))
        /\ carries (lit "- Renovation Status: "
                    ++ RenovationStatus_str (renovationStatus ad) ++ nl)
        /\ carries (lit "- Description Summary: " ++ descriptionSummary ad ++ nl)
        /\ carries (lit "- Features: "
                    ++ join (lit ", ") (take 5 (features ad)) ++ nl)
        /\ carries (lit "- Status: " ++ AdStatus_str (status ad) ++ nl)
        /\ (forall n, notes ad = Some n -> n <> [] ->
            carries (lit "- Notes: " ++ n ++ nl))
        /\ (notes ad = None \/ notes ad = Some [] ->
            carries (lit "- Notes: " ++ lit "No notes" ++ nl))
        /\ carries (lit "- URL: " ++ url ad ++ nl)).
Proof.
  intros r prompt carries. subst r prompt carries. cbv beta.
  split; [|split; [|split]].
  - intros Hq. rewrite askQuestion_blank by exact Hq. repeat split.
  - apply askQuestion_calls.
  - intros Hq msgs a rest Hmodel Hlen.
    rewrite (askQuestion_answered env q s msgs a rest Hq Hmodel Hlen).
    cbn [fst snd store]. split; [reflexivity|].
    eexists. split; [reflexivity|]. repeat split.
  - destruct (questionPrompt_parts (criteria s) (default [] (ads s)) q)
      as (Hcriteria & Hquestion & Hads).
    split; [exact Hcriteria|]. split; [exact Hquestion|].
    intros i ad Hi.
    pose proof (adContext_lines i ad) as Hlines. cbv beta zeta in Hlines.
    destruct Hlines as (L1 & L2 & L3 & L4 & L5 & L6 & L7 & L8 & L9 & L10 & L11
                        & L12 & L13 & L14).
    split; [exact (Hads _ _ _ Hi L1)|]. split; [exact (Hads _ _ _ Hi L2)|].
    split; [intros n Hn Ht; exact (Hads _ _ _ Hi (L3 n Hn Ht))|].
    split; [exact (Hads _ _ _ Hi L4)|].
    split; [intros n Hn Ht; exact (Hads _ _ _ Hi (L5 n Hn Ht))|].
    split; [intros n Hn Ht; exact (Hads _ _ _ Hi (L6 n Hn Ht))|].
    split; [intros n Hn Ht; exact (Hads _ _ _ Hi (L7 n Hn Ht))|].
    split; [exact (Hads _ _ _ Hi L8)|]. split; [exact (Hads _ _ _ Hi L9)|].
    split; [exact (Hads _ _ _ Hi L10)|]. split; [exact (Hads _ _ _ Hi L11)|].
    split; [intros n Hn Hne; exact (Hads _ _ _ Hi (L12 n Hn Hne))|].
    split; [intros Hn; exact (Hads _ _ _ Hi (L13 Hn))|].
    exact (Hads _ _ _ Hi L14).
Qed.

End Questions.

(** ** Adding an ad *)

Section Adding.
Context `{Platform}.

Lemma bind_store_preserved {A B} (m : M A) (k : A -> M B) :
  (forall x, store (snd (m x)) = store x) ->
  (forall a x, store (snd (k a x)) = store x) ->
  forall x, store (snd (bind m k x)) = store x.
Proof.
  intros Hm Hk x. unfold bind. specialize (Hm x).
  destruct (m x) as [[a|e|] x']; cbn [snd] in *; [|exact Hm|exact Hm].
  rewrite Hk. exact Hm.
Qed.

Lemma fetch_html_store cfg env url x :
  store (snd (fetch_html cfg env url x)) = store x.
Proof. apply step_store. Qed.

Lemma durableCall_store {A} cfg c (results : list (Exn + A)) x :
  store (snd (durableCall cfg c results x)) = store x.
Proof. apply step_store. Qed.

(** Scraping reads and writes no key of the object. *)
Lemma scrapeIdealistaAd_store env url x :
  store (snd (scrapeIdealistaAd env url x)) = store x.
Proof.
  unfold scrapeIdealistaAd. destruct (hostname url) as [host|]; [|reflexivity].
  destruct (negb (includes (lit "idealista.it") host)); [reflexivity|].
  revert x. apply bind_store_preserved; [apply fetch_html_store|]. intros html.
  apply bind_store_preserved; [apply durableCall_store|]. intros extracted.
  apply bind_store_preserved; reflexivity.
Qed.

Lemma scrapeImmobiliareAd_store env url x :
  store (snd (scrapeImmobiliareAd env url x)) = store x.
Proof.
  unfold scrapeImmobiliareAd. destruct (hostname url) as [host|]; [|reflexivity].
  destruct (negb (includes (lit "immobiliare.it") host)); [reflexivity|].
  revert x. apply bind_store_preserved; [apply fetch_html_store|]. intros html.
  apply bind_store_preserved; [apply durableCall_store|]. intros extracted.
  apply bind_store_preserved; reflexivity.
Qed.

(** The scraper [addAd] hands the URL to, by host. *)
Lemma addAd_scraper_store env url host x :
  store (snd ((if includes (lit "idealista.it") host then scrapeIdealistaAd env url
               else if includes (lit "immobiliare.it") host
                    then scrapeImmobiliareAd env url
                    else throw UnsupportedSite) x)) = store x.
Proof.
  destruct (includes (lit "idealista.it") host); [apply scrapeIdealistaAd_store|].
  destruct (includes (lit "immobiliare.it") host); [apply scrapeImmobiliareAd_store|].
  reflexivity.
Qed.

(** Either [addAd] returns an ad, which is then the one entry added
    at the end of the list, or the store is what it was. *)
Lemma addAd_cases env url s :
  let r := invoke (addAd env url) s in
  (exists ad, fst r = Ok ad
              /\ store (snd r)
                 = {| criteria := criteria s;
                      ads := Some (default [] (ads s) ++ [ad]);
                      questions := questions s; createdAt := createdAt s |})
  \/ ((forall ad, fst r <> Ok ad) /\ store (snd r) = s).
Proof.
  unfold invoke, addAd. destruct (hostname url) as [host|].
  2:{ right. split; [discriminate | reflexivity]. }
  set (x0 := {| store := s; calls := []; randDraws := 0; clockReads := 0 |}).
  unfold bind.
  pose proof (addAd_scraper_store env url host x0) as Hstore.
  unfold UnsupportedSite in Hstore.
  destruct ((if includes (lit "idealista.it") host then scrapeIdealistaAd env url
             else if includes (lit "immobiliare.it") host
                  then scrapeImmobiliareAd env url
                  else throw _) x0) as [[scraped|e|] x1];
    cbn [fst snd] in *.
  - left. eexists. unfold bind, ctx_rand_uuidv4, ctx_get_ads, ctx_set_ads,
      read_store, modify_store, ret. cbn [fst snd store].
    split; [reflexivity|]. rewrite Hstore. reflexivity.
  - right. split; [discriminate | exact Hstore].
  - right. split; [discriminate | exact Hstore].
Qed.

(** C1.  A failed [addAd] leaves the store, and with it the ad list,
    as it was, whatever the failure, so that [getAds] afterwards
    returns what it returned before.  The URL failures are among
    them: a URL that does not parse fails with "Invalid URL format",
    a host outside the two supported sites with the unsupported-site
    error. *)
Theorem addAd_atomic (env : Env) (url : JsString) (s : Store) :
  let r := invoke (addAd env url) s in
  ((forall ad, fst r <> Ok ad) ->
   store (snd r) = s
   /\ ads (store (snd r)) = ads s
   /\ fst (invoke getAds (store (snd r))) = fst (invoke getAds s))
  /\ (hostname url = None -> fst r = Throw InvalidUrl)
  /\ (forall host, hostname url = Some host ->
      includes (lit "idealista.it") host = false ->
      includes (lit "immobiliare.it") host = false ->
      fst r = Throw UnsupportedSite).
Proof.
  intros r. split; [|split].
  - intros Hfail. destruct (addAd_cases env url s) as [(ad & Hok & _)|[_ Hsame]].
    + destruct (Hfail ad Hok).
    + fold r in Hsame. rewrite Hsame. repeat split.
  - subst r. unfold invoke, addAd. intros ->. reflexivity.
  - subst r. unfold invoke, addAd. intros host -> -> ->. reflexivity.
Qed.

End Adding.

(** ** Fetching a page *)

Section Fetching.
Context `{Platform}.

Lemma fetchWithBrowser_chosen (penv : ProcessEnv) (w : Web) (url : JsString) :
  fetchWithBrowser penv w url
  = ([CallProvider (chosenProvider penv) url],
     askProvider (chosenProvider penv) w url).
Proof.
  unfold fetchWithBrowser, chosenProvider, configuredProviders.
  destruct (truthy_opt (SCRAPERAPI_API_KEY penv)); [reflexivity|].
  destruct (truthy_opt (SCRAPINGBEE_API_KEY penv)); [reflexivity|].
  destruct (truthy_opt (ZENROWS_API_KEY penv)); reflexivity.
Qed.

(** No provider ever throws a terminal error. *)
Lemma askProvider_failure (p : Provider) (w : Web) (url : JsString) e :
  askProvider p w url = inl e -> exists m, e = Error m.
Proof.
  destruct p; simpl; unfold fetchWithService, fetchWithPuppeteer.
  1-3: match goal with |- context [match ?o with _ => _ end] => destruct o end;
       try (destruct (response_ok _)); intros [= <-]; eauto.
  destruct (browser w) as [m|m| |st h c]; try (intros [= <-]; eauto).
  repeat match goal with
         | |- context [if ?b then _ else _] => destruct b
         end; intros [= <-]; eauto.
Qed.

Lemma askProvider_404 (p : Provider) (w : Web) (url : JsString) :
  statusMet p w = Some 404 -> exists m, askProvider p w url = inl (Error m).
Proof.
  destruct p; simpl; unfold fetchWithService, fetchWithPuppeteer.
  1-3: match goal with |- context [match ?o with _ => _ end] => destruct o end;
       intros [= ->]; simpl; eauto.
  destruct (browser w) as [m|m| |st h c]; intros [= ->]. simpl. eauto.
Qed.

Lemma all_404_fail (penv : ProcessEnv) (url : JsString) (ws : list Web) :
  (forall w, w ∈ ws -> statusMet (chosenProvider penv) w = Some 404) ->
  Forall failsOrdinarily (map (fun w => fetchWithBrowser penv w url) ws).
Proof.
  intros H404. apply Forall_forall. intros att Hatt.
  apply list_elem_of_fmap in Hatt as (w & -> & Hw).
  rewrite fetchWithBrowser_chosen.
  destruct (askProvider_404 _ w url (H404 w Hw)) as (m & Hm).
  exists m. exact Hm.
Qed.

Lemma fetch_attempt_calls (penv : ProcessEnv) (url : JsString) (ws : list Web) :
  map (fun w => fetchWithBrowser penv w url) ws
  = map (fun w => ([CallProvider (chosenProvider penv) url],
                   askProvider (chosenProvider penv) w url)) ws.
Proof. apply map_ext. intros w. apply fetchWithBrowser_chosen. Qed.

(** The idealista fetch step against pages that all answer 404. *)
Lemma fetch_html_404_capped env url x :
  (forall w, w ∈ web env -> statusMet (chosenProvider (processEnv env)) w = Some 404) ->
  (10 <= length (web env))%nat ->
  exists m,
    fetch_html DURABLE_FETCH_RETRY_CONFIG env url x
    = (Throw (TerminalError m),
       {| store := store x;
          calls := calls x
                   ++ replicate 10 (CallProvider (chosenProvider (processEnv env)) url);
          randDraws := randDraws x; clockReads := clockReads x |}).
Proof.
  intros H404 Hlen. unfold fetch_html, step, DURABLE_FETCH_RETRY_CONFIG.
  destruct (ctx_run_gives_up 10 _ (all_404_fail (processEnv env) url _ H404))
    as (m & Hrun).
  { rewrite length_map. lia. }
  exists m. rewrite Hrun. rewrite firstn_map, fetch_attempt_calls.
  rewrite concat_single_calls, length_take, Nat.min_l by exact Hlen.
  reflexivity.
Qed.



Lemma addAd_idealista_404 env url s host :
  hostname url = Some host ->
  includes (lit "idealista.it") host = true ->
  (forall w, w ∈ web env -> statusMet (chosenProvider (processEnv env)) w = Some 404) ->
  (10 <= length (web env))%nat ->
  exists m,
    invoke (addAd env url) s
    = (Throw (TerminalError m),
       {| store := s;
          calls := replicate 10 (CallProvider (chosenProvider (processEnv env)) url);
          randDraws := 0; clockReads := 0 |}).
Proof.
  intros Hhost Hsite H404 Hlen.
  destruct (fetch_html_404_capped env url
              {| store := s; calls := []; randDraws := 0; clockReads := 0 |}
              H404 Hlen) as (m & Hfetch).
  exists m. unfold invoke, addAd, scrapeIdealistaAd.
  rewrite Hhost, Hsite. cbn [negb]. unfold bind. rewrite Hfetch. reflexivity.
Qed.



(** C7 (as amended).  [fetchWithBrowser] asks exactly one provider,
    the first configured one in the order ScraperAPI, ScrapingBee,
    ZenRows, or the browser when no key is set, and returns what that
    provider returns or throws.  A failure of that provider is the
    failure of the attempt: every call the fetch step makes, over all
    its retries, goes to that same provider. *)
Theorem fetchWithBrowser_single_provider (penv : ProcessEnv) (url : JsString) :
  let p := chosenProvider penv in
  (forall w, fetchWithBrowser penv w url = ([CallProvider p url], askProvider p w url))
  /\ (truthy_opt (SCRAPERAPI_API_KEY penv) = true -> p = ScraperAPI)
  /\ (truthy_opt (SCRAPERAPI_API_KEY penv) = false ->
      truthy_opt (SCRAPINGBEE_API_KEY penv) = true -> p = ScrapingBee)
  /\ (truthy_opt (SCRAPERAPI_API_KEY penv) = false ->
      truthy_opt (SCRAPINGBEE_API_KEY penv) = false ->
      truthy_opt (ZENROWS_API_KEY penv) = true -> p = ZenRows)
  /\ (truthy_opt (SCRAPERAPI_API_KEY penv) = false ->
      truthy_opt (SCRAPINGBEE_API_KEY penv) = false ->
      truthy_opt (ZENROWS_API_KEY penv) = false -> p = Puppeteer)
  /\ (forall cfg ws c,
        c ∈ snd (ctx_run cfg (map (fun w => fetchWithBrowser penv w url) ws)) ->
        c = CallProvider p url).
Proof.
  intros p. subst p. split; [intros w; apply fetchWithBrowser_chosen|].
  unfold chosenProvider, configuredProviders.
  split; [intros ->; reflexivity|].
  split; [intros -> ->; reflexivity|].
  split; [intros -> -> ->; reflexivity|].
  split; [intros -> -> ->; reflexivity|].
  intros cfg ws c Hc. apply ctx_run_calls in Hc as (att & Hatt & Hin).
  apply list_elem_of_fmap in Hatt as (w & -> & _).
  rewrite fetchWithBrowser_chosen in Hin. simpl in Hin.
  apply list_elem_of_singleton in Hin. exact Hin.
Qed.

End Fetching.

(** ** Replay *)

Section Replay.
Context `{Platform}.

Lemma replay_agrees env clock req s :
  let r1 := invoke (handle env req) s in
  let r2 := invoke (handle (with_now clock env) req) s in
  scrub_outcome (fst r1) = scrub_outcome (fst r2)
  /\ scrub_store (store (snd r1)) = scrub_store (store (snd r2))
  /\ calls (snd r1) = calls (snd r2).
Proof.
  intros r1 r2. subst r1 r2. destruct req; run_handlers.
  all: split_on_scrutinee; cbn [fst snd store calls]; try (repeat split; reflexivity).
  all: unfold scrub_store; cbn [fst snd store calls criteria ads questions createdAt
                                fmap option_fmap option_map];
    rewrite ?map_app; repeat split; reflexivity.
Qed.

Lemma createResearch_stamp env c s :
  fst (invoke (handle env (CreateResearch c)) s) = Ok RVoid ->
  createdAt (store (snd (invoke (handle env (CreateResearch c)) s)))
  = Some (now env 0%nat).
Proof.
  run_handlers. split_on_scrutinee; cbn [fst snd store createdAt];
    [discriminate | reflexivity].
Qed.

Lemma addAd_stamps env u s ad :
  fst (invoke (handle env (AddAd u)) s) = Ok (RAd ad) ->
  id ad = uuidv4 env 0%nat /\ scrapedAt ad = now env 0%nat.
Proof.
  run_handlers. split_on_scrutinee; cbn [fst snd]; try discriminate.
  all: intros [= <-]; split; reflexivity.
Qed.

Lemma askQuestion_stamps env q s a :
  fst (invoke (handle env (AskQuestion q)) s) = Ok (RString a) ->
  exists qa,
    questions (store (snd (invoke (handle env (AskQuestion q)) s)))
    = Some (default [] (questions s) ++ [qa])
    /\ answer qa = a
    /\ qa_id qa = uuidv4 env 0%nat /\ askedAt qa = now env 0%nat.
Proof.
  run_handlers. split_on_scrutinee; cbn [fst snd store questions]; try discriminate.
  intros [= <-]. eexists. split; [reflexivity|]. repeat split.
Qed.

(** C2 (as amended).  The identifiers come from the runtime's seeded
    generator and are the same in every execution of an invocation;
    the timestamps are read from the system clock where they are
    needed, outside any journaled step, and are those of the
    execution that runs.  So two executions of one invocation that
    see the same step results and differ in their clocks return the
    same result and leave the same store up to [createdAt],
    [scrapedAt] and [askedAt]; the second one gives what it writes
    the same ids and stamps it with its own clock. *)
Theorem replay_same_ids_own_clock (env : Env) (clock : nat -> JsString)
    (req : Request) (s : Store) :
  let replay := with_now clock env in
  let r1 := invoke (handle env req) s in
  let r2 := invoke (handle replay req) s in
  scrub_outcome (fst r1) = scrub_outcome (fst r2)
  /\ scrub_store (store (snd r1)) = scrub_store (store (snd r2))
  /\ (forall c,
        fst (invoke (handle replay (CreateResearch c)) s) = Ok RVoid ->
        createdAt (store (snd (invoke (handle replay (CreateResearch c)) s)))
        = Some (clock 0%nat))
  /\ (forall u ad,
        fst (invoke (handle replay (AddAd u)) s) = Ok (RAd ad) ->
        id ad = uuidv4 env 0%nat /\ scrapedAt ad = clock 0%nat)
  /\ (forall q a,
        fst (invoke (handle replay (AskQuestion q)) s) = Ok (RString a) ->
        exists qa,
          questions (store (snd (invoke (handle replay (AskQuestion q)) s)))
          = Some (default [] (questions s) ++ [qa])
          /\ answer qa = a
          /\ qa_id qa = uuidv4 env 0%nat /\ askedAt qa = clock 0%nat).
Proof.
  intros replay r1 r2.
  destruct (replay_agrees env clock req s) as (Hout & Hstore & _).
  split; [exact Hout|]. split; [exact Hstore|].
  split; [|split].
  - intros c. apply (createResearch_stamp replay).
  - intros u ad. apply (addAd_stamps replay).
  - intros q a. apply (askQuestion_stamps replay).
Qed.

End Replay.

(** ** Extraction fallbacks *)

Section Fallbacks.
Context `{Platform}.

Lemma or_str_filled (a b : JsString) : b <> [] -> or_str a b <> [].
Proof. unfold or_str. destruct a; simpl; [auto | discriminate]. Qed.

Lemma or_str_empty (b : JsString) : or_str [] b = b.
Proof. reflexivity. Qed.

Lemma or_str_kept (a b : JsString) : a <> [] -> or_str a b = a.
Proof. destruct a; [congruence | reflexivity]. Qed.

(** The idealista scraper: no required text field of the ad it
    returns is empty; a field the model left empty holds its
    placeholder (for the summary, the start of the description
    followed by an ellipsis), a field the model filled is kept; the
    numeric fields are passed on as they are, present or absent. *)
Lemma scrapeIdealistaAd_fallbacks env url x ad x' :
  scrapeIdealistaAd env url x = (Ok ad, x') ->
  (title ad <> [] /\ location ad <> [] /\ description ad <> []
   /\ descriptionSummary ad <> [] /\ adAge ad <> [])
  /\ exists e : Extraction,
      (price ad = x_price e /\ size ad = x_size e
       /\ rooms ad = x_rooms e /\ bathrooms ad = x_bathrooms e)
      /\ (x_title e = [] -> title ad = lit "Annuncio senza titolo")
      /\ (x_location e = [] ->
          location ad = lit "Localit" ++ [224] ++ lit " non specificata")
      /\ (x_description e = [] -> description ad = lit "Descrizione non disponibile")
      /\ (x_descriptionSummary e = [] ->
          descriptionSummary ad = slice0 200 (x_description e) ++ lit "...")
      /\ (x_adAge e = [] -> adAge ad = lit "non specificato")
      /\ (x_title e <> [] -> title ad = x_title e)
      /\ (x_location e <> [] -> location ad = x_location e)
      /\ (x_description e <> [] -> description ad = x_description e)
      /\ (x_descriptionSummary e <> [] ->
          descriptionSummary ad = x_descriptionSummary e)
      /\ (x_adAge e <> [] -> adAge ad = x_adAge e).
Proof.
  unfold scrapeIdealistaAd.
  destruct (hostname url) as [host|]; [|discriminate].
  destruct (negb (includes (lit "idealista.it") host)); [discriminate|].
  unfold bind, fetch_html, durableCall, step, new_Date_toISOString, ret.
  destruct (ctx_run DURABLE_FETCH_RETRY_CONFIG _) as [[html|?|] cs]; try discriminate.
  destruct (ctx_run DURABLE_AI_RETRY_CONFIG _) as [[e|?|] cs']; try discriminate.
  intros [= <- _]. cbn [title location description descriptionSummary adAge
                        price size rooms bathrooms].
  split.
  - repeat split; apply or_str_filled; discriminate.
  - exists e. split; [repeat split|].
    split; [intros ->; reflexivity|]. split; [intros ->; reflexivity|].
    split; [intros ->; reflexivity|].
    split.
    { intros ->. rewrite or_str_empty. apply or_str_kept.
      intros Hnil. apply app_eq_nil in Hnil as [_ Hnil]. discriminate. }
    split; [intros ->; reflexivity|].
    split; [apply or_str_kept|]. split; [apply or_str_kept|].
    split; [apply or_str_kept|].
    split; [|apply or_str_kept].
    intros Hne. rewrite (or_str_kept (x_descriptionSummary e)) by exact Hne.
    apply or_str_kept. exact Hne.
Qed.

(** The immobiliare scraper passes every field on as the model
    returned it. *)
Lemma scrapeImmobiliareAd_copies env url x ad x' :
  scrapeImmobiliareAd env url x = (Ok ad, x') ->
  exists e : Extraction,
    title ad = x_title e /\ location ad = x_location e
    /\ description ad = x_description e
    /\ descriptionSummary ad = x_descriptionSummary e
    /\ adAge ad = x_adAge e
    /\ price ad = x_price e /\ size ad = x_size e
    /\ rooms ad = x_rooms e /\ bathrooms ad = x_bathrooms e.
Proof.
  unfold scrapeImmobiliareAd.
  destruct (hostname url) as [host|]; [|discriminate].
  destruct (negb (includes (lit "immobiliare.it") host)); [discriminate|].
  unfold bind, fetch_html, durableCall, step, new_Date_toISOString, ret.
  destruct (ctx_run None _) as [[html|?|] cs]; try discriminate.
  destruct (ctx_run (Some 3%nat) _) as [[e|?|] cs']; try discriminate.
  intros [= <- _]. exists e. repeat split.
Qed.

End Fallbacks.

(** ** The handlers on concrete projects *)

Section Examples.
#[local] Existing Instance samplePlatform.

(** C8.  On an immobiliare URL, when the model call succeeds with the
    required text fields left empty, the ad that [addAd] returns and
    stores has an empty title, location, description, summary and ad
    age: no placeholder is filled in.  On an idealista URL the same
    extraction gives an ad with the placeholders.  The missing numeric
    fields are absent for both sites. *)
Theorem immobiliare_keeps_empty_fields :
  (exists ad,
     fst (invoke (addAd blankModelEnv immobiliareUrl) emptyStore) = Ok ad
     /\ ads (store (snd (invoke (addAd blankModelEnv immobiliareUrl) emptyStore)))
        = Some [ad]
     /\ title ad = [] /\ location ad = [] /\ description ad = []
     /\ descriptionSummary ad = [] /\ adAge ad = []
     /\ price ad = None /\ size ad = None /\ rooms ad = None /\ bathrooms ad = None)
  /\ (exists ad,
        fst (invoke (addAd blankModelEnv idealistaUrl) emptyStore) = Ok ad
        /\ title ad = lit "Annuncio senza titolo"
        /\ location ad = lit "Localit" ++ [224] ++ lit " non specificata"
        /\ description ad = lit "Descrizione non disponibile"
        /\ descriptionSummary ad = lit "..."
        /\ adAge ad = lit "non specificato"
        /\ price ad = None /\ size ad = None /\ rooms ad = None
        /\ bathrooms ad = None).
Proof.
  split; eexists; (split; [vm_compute; reflexivity|]); repeat split.
Qed.

(** C1, on a URL of an unsupported site and on an idealista URL whose
    page answers 404 until the fetch step gives up. *)
Lemma addAd_atomic_witness :
  fst (invoke (addAd sampleEnv otherUrl) emptyStore) = Throw UnsupportedSite
  /\ store (snd (invoke (addAd sampleEnv otherUrl) emptyStore)) = emptyStore
  /\ store (snd (invoke (addAd notFoundEnv idealistaUrl) milanStore)) = milanStore.
Proof.
  destruct (addAd_atomic sampleEnv otherUrl emptyStore) as (Hfail & _ & Hsite).
  destruct (addAd_atomic notFoundEnv idealistaUrl milanStore) as (Hfail' & _).
  split; [|split].
  - apply (Hsite (lit "unsupported-site.example")); reflexivity.
  - apply Hfail. intros ad Hok. vm_compute in Hok. discriminate.
  - apply Hfail'. intros ad Hok. vm_compute in Hok. discriminate.
Defined.

(** C2: the same creation executed twice with the same step results
    and generator, a day apart, leaves two different stores. *)
Lemma replay_changes_createdAt :
  processEnv laterEnv = processEnv sampleEnv
  /\ web laterEnv = web sampleEnv
  /\ objectModel laterEnv = objectModel sampleEnv
  /\ textModel laterEnv = textModel sampleEnv
  /\ uuidv4 laterEnv = uuidv4 sampleEnv
  /\ store (snd (invoke (handle sampleEnv (CreateResearch (lit "2 bed Milan")))
                   emptyStore))
     <> store (snd (invoke (handle laterEnv (CreateResearch (lit "2 bed Milan")))
                      emptyStore)).
Proof.
  repeat split. intros Heq. vm_compute in Heq. discriminate.
Qed.

(** C2 (as amended), on an ad added a day later. *)
Lemma replay_same_ids_own_clock_witness :
  exists ad,
    fst (invoke (handle laterEnv (AddAd idealistaUrl)) milanStore) = Ok (RAd ad)
    /\ id ad = lit "uuid-0"
    /\ scrapedAt ad = lit "2025-01-02T10:00:00.000Z".
Proof.
  destruct (replay_same_ids_own_clock sampleEnv
              (fun _ => lit "2025-01-02T10:00:00.000Z")
              (AddAd idealistaUrl) milanStore) as (_ & _ & _ & Hids & _).
  eexists. split; [vm_compute; reflexivity|].
  apply (Hids idealistaUrl). vm_compute. reflexivity.
Defined.

(** C3: a creation with the empty string succeeds and sets the
    criteria, and the next creation on the same object succeeds too. *)
Lemma second_create_after_empty_criteria :
  let first := invoke (createResearch sampleEnv []) emptyStore in
  fst first = Ok tt
  /\ criteria (store (snd first)) = Some []
  /\ fst (invoke (createResearch sampleEnv (lit "anything")) (store (snd first)))
     = Ok tt
  /\ ~ (forall (env : Env) c c' s,
          fst (invoke (createResearch env c) s) = Ok tt ->
          fst (invoke (createResearch env c')
                 (store (snd (invoke (createResearch env c) s))))
          = Throw AlreadyExists).
Proof.
  repeat split. intros Hclaim.
  specialize (Hclaim sampleEnv [] (lit "anything") emptyStore eq_refl).
  vm_compute in Hclaim. discriminate.
Qed.

(** C3 (as amended), the scenario of the two creations of "milan-apts". *)
Lemma createResearch_spec_witness :
  let first := invoke (createResearch sampleEnv (lit "2 bed Milan under 300k"))
                 emptyStore in
  fst first = Ok tt
  /\ fst (invoke (createResearch sampleEnv (lit "anything")) (store (snd first)))
     = Throw AlreadyExists.
Proof.
  destruct (createResearch_spec sampleEnv (lit "2 bed Milan under 300k") emptyStore)
    as (_ & _ & Hfresh & Hsecond).
  assert (Hok : fst (invoke (createResearch sampleEnv (lit "2 bed Milan under 300k"))
                       emptyStore) = Ok tt).
  { apply Hfresh. vm_compute. discriminate. }
  split; [exact Hok|].
  apply Hsecond; [exact Hok | discriminate].
Defined.

(** C4, on the second ad of a project with two ads. *)
Lemma update_handlers_frame_witness :
  fst (invoke (updateAdStatus (lit "ad-2") (lit "visit appointment taken")) milanStore)
  = Ok tt
  /\ fst (invoke (updateAdStatus (lit "ad-3") (lit "bought")) milanStore)
     = Throw AdNotFound
  /\ fst (invoke (updateAdStatus (lit "ad-3") (lit "visited")) milanStore)
     = Throw (InvalidStatus (lit "visited"))
  /\ fst (invoke (updateAdNotes (lit "ad-2") (lit "call on Monday")) milanStore)
     = Ok tt.
Proof.
  pose proof (update_handlers_frame (lit "ad-2") (lit "visit appointment taken")
                (lit "call on Monday") milanStore) as (_ & Hstatus & _ & Hnotes).
  pose proof (update_handlers_frame (lit "ad-3") (lit "bought") [] milanStore)
    as (_ & Hstatus' & _).
  pose proof (update_handlers_frame (lit "ad-3") (lit "visited") [] milanStore)
    as (Hinvalid & _).
  assert (Hfirst : first_with_id (lit "ad-2") (default [] (ads milanStore)) 1
                     (sampleAd (lit "ad-2"))).
  { split; [reflexivity|]. split; [reflexivity|].
    intros j ad' Hj Hat. assert (j = 0%nat) as -> by lia.
    injection Hat as <-. discriminate. }
  assert (Hnone : forall ad, ad ∈ default [] (ads milanStore) -> id ad <> lit "ad-3").
  { intros ad Had. simpl in Had.
    apply elem_of_cons in Had as [->|Had]; [discriminate|].
    apply elem_of_cons in Had as [->|Had]; [discriminate|].
    inversion Had. }
  split; [|split; [|split]].
  - destruct (Hstatus VisitAppointmentTaken eq_refl) as (_ & Hknown).
    destruct (Hknown _ _ Hfirst) as (Hok & _). exact Hok.
  - destruct (Hstatus' Bought eq_refl) as (Hunknown & _).
    destruct (Hunknown Hnone) as (Hthrown & _). exact Hthrown.
  - apply Hinvalid. intros st. destruct st; discriminate.
  - destruct (Hnotes _ _ Hfirst) as (Hok & _). exact Hok.
Defined.

(** C5, on a project with two priced ads; the prompt shows the title of
    the second one. *)
Lemma askQuestion_spec_witness :
  fst (invoke (askQuestion sampleEnv (lit "Which is cheapest?")) milanStore)
  = Ok (lit "Il primo.")
  /\ fst (invoke (askQuestion sampleEnv (lit "  ")) milanStore) = Throw EmptyQuestion
  /\ includes (lit "- Title: " ++ title (sampleAd (lit "ad-2")) ++ nl)
       (questionPrompt (criteria milanStore) (default [] (ads milanStore))
          (lit "Which is cheapest?")) = true.
Proof.
  destruct (askQuestion_spec sampleEnv (lit "Which is cheapest?") milanStore)
    as (_ & _ & Hanswer & _ & _ & Hads).
  destruct (askQuestion_spec sampleEnv (lit "  ") milanStore) as (Hblank & _).
  split; [|split].
  - apply (Hanswer ltac:(intros Hq; inversion Hq; discriminate) [] _ []);
      [reflexivity | simpl; lia].
  - apply Hblank. repeat constructor.
  - exact (proj1 (proj2 (Hads 1%nat (sampleAd (lit "ad-2")) eq_refl))).
Defined.



(** C7: two services are configured, the first answers 500 and the
    second would answer 200; the fetch fails without asking the
    second, at every attempt, and [addAd] fails. *)
Lemma first_provider_down_no_fallback :
  configuredProviders twoKeys = [ScraperAPI; ScrapingBee; Puppeteer]
  /\ askProvider ScrapingBee firstDown idealistaUrl = inr (lit "<main>ad</main>")
  /\ (exists m, fetchWithBrowser twoKeys firstDown idealistaUrl
                = ([CallProvider ScraperAPI idealistaUrl], inl (Error m)))
  /\ fetchThroughChain_spec (configuredProviders twoKeys) firstDown idealistaUrl
     = ([CallProvider ScraperAPI idealistaUrl; CallProvider ScrapingBee idealistaUrl],
        inr (lit "<main>ad</main>"))
  /\ (exists m, fst (invoke (addAd firstDownEnv idealistaUrl) emptyStore)
                = Throw (TerminalError m))
  /\ calls (snd (invoke (addAd firstDownEnv idealistaUrl) emptyStore))
     = replicate 10 (CallProvider ScraperAPI idealistaUrl).
Proof.
  split; [reflexivity|]. split; [reflexivity|].
  split; [eexists; vm_compute; reflexivity|].
  split; [vm_compute; reflexivity|].
  split; [eexists; vm_compute; reflexivity|].
  vm_compute. reflexivity.
Qed.

(** C7 (as amended), with two keys set and with none. *)
Lemma fetchWithBrowser_single_provider_witness :
  chosenProvider twoKeys = ScraperAPI /\ chosenProvider noKeys = Puppeteer.
Proof.
  destruct (fetchWithBrowser_single_provider twoKeys idealistaUrl)
    as (_ & Hfirst & _).
  destruct (fetchWithBrowser_single_provider noKeys idealistaUrl)
    as (_ & _ & _ & _ & Hnone & _).
  split; [apply Hfirst | apply Hnone]; reflexivity.
Defined.

(** C9: on a project that was never created, [getAds] and
    [getQuestions] return the empty list. *)
Lemma readers_on_unknown_project :
  criteria emptyStore = None
  /\ fst (invoke getAds emptyStore) = Ok []
  /\ fst (invoke getQuestions emptyStore) = Ok [].
Proof. repeat split. Qed.

(** C9 (as amended), on the same project. *)
Lemma readers_spec_witness :
  fst (invoke getCriteria emptyStore) = Throw ResearchNotFound
  /\ fst (invoke getCriteria milanStore) = Ok (lit "2 bed Milan under 300k").
Proof.
  destruct (readers_spec emptyStore) as (Hmissing & _).
  destruct (readers_spec milanStore) as (_ & Hfound & _).
  split; [apply Hmissing; reflexivity|].
  apply Hfound; [reflexivity | discriminate].
Defined.

(** C10, on a project that was never created. *)
Lemma createResearch_empty_criteria_witness :
  fst (invoke (createResearch sampleEnv []) emptyStore) = Ok tt
  /\ fst (invoke (createResearch sampleEnv (lit "2 bed Milan"))
            (store (snd (invoke (createResearch sampleEnv []) emptyStore))))
     = Ok tt.
Proof.
  destruct (createResearch_empty_criteria sampleEnv sampleEnv (lit "2 bed Milan")
              emptyStore eq_refl) as (Hok & _ & _ & _ & Hagain & _).
  split; [exact Hok | exact Hagain].
Defined.

End Examples.

(** * Further properties of the object *)

Section Appending.
Context `{Platform}.

(** The ad [addAd] returns is the one it stores, at the end of the
    list: it has the first id of the invocation's generator, the status
    "to reach out", no notes, the URL it was asked for, the site of
    that URL's host and the clock's reading as scrape time; the rest of
    the store is as before, and [getAds] then returns the earlier ads
    followed by it. *)
Theorem addAd_appends_one (env : Env) (u : JsString) (s : Store) (ad : PropertyAd) :
  fst (invoke (addAd env u) s) = Ok ad ->
  after (addAd env u) s
  = {| criteria := criteria s; ads := Some (adsOf s ++ [ad]);
       questions := questions s; createdAt := createdAt s |}
  /\ fst (invoke getAds (after (addAd env u) s)) = Ok (adsOf s ++ [ad])
  /\ id ad = uuidv4 env 0%nat
  /\ status ad = ToReachOut /\ notes ad = None /\ url ad = u
  /\ scrapedAt ad = now env 0%nat
  /\ exists host,
      hostname u = Some host
      /\ source ad = (if includes (lit "idealista.it") host
                      then Idealista else Immobiliare).
Proof.
  unfold after, adsOf. run_handlers.
  split_on_scrutinee; cbn [fst snd store]; try discriminate.
  all: intros [= <-]; repeat (split; [reflexivity|]); eexists; split;
    [reflexivity|].
  all: match goal with
       | Hsite : includes (lit "idealista.it") _ = _ |- _ => rewrite Hsite
       end; reflexivity.
Qed.

(** A URL that does not parse, or whose host is neither of the two
    sites, is refused with a terminal error before anything leaves the
    process: no fetch provider and no model is called, no id is drawn
    and the clock is not read. *)
Theorem addAd_refuses_before_fetching (env : Env) (u : JsString) (s : Store) :
  (forall host, hostname u = Some host ->
     includes (lit "idealista.it") host = false
     /\ includes (lit "immobiliare.it") host = false) ->
  (exists m, fst (invoke (addAd env u) s) = Throw (TerminalError m))
  /\ snd (invoke (addAd env u) s)
     = {| store := s; calls := []; randDraws := 0; clockReads := 0 |}.
Proof.
  intros Hhost. unfold invoke, addAd.
  destruct (hostname u) as [host|]; [|split; [eexists|]; reflexivity].
  destruct (Hhost host eq_refl) as [-> ->]. split; [eexists|]; reflexivity.
Qed.

End Appending.

(** ** What leaves the process *)

Section Budgets.
Context `{Platform}.


(** A step whose attempts each make the one call [c] makes it at most
    once per observed attempt, and at most as often as its cap allows. *)
Lemma ctx_run_single_calls {A} (cfg : RetryConfig) (c : Call) (results : list (Exn + A)) :
  exists k,
    snd (ctx_run cfg (map (fun r => ([c], r)) results)) = replicate k c
    /\ (k <= length results)%nat
    /\ forall n, cfg = Some n -> (k <= Nat.max n 1)%nat.
Proof.
  revert cfg. induction results as [|r results IH]; intros cfg; simpl.
  { exists 0%nat. repeat split; [lia | intros; lia]. }
  assert (Hone : exists k, [c] = replicate k c /\ (k <= S (length results))%nat
                           /\ forall n, cfg = Some n -> (k <= Nat.max n 1)%nat).
  { exists 1%nat. repeat split; [lia | intros; lia]. }
  destruct r as [[m|m]|v]; simpl; try exact Hone.
  destruct cfg as [n|].
  - destruct (n <=? 1)%nat eqn:En; simpl; [exact Hone|].
    apply Nat.leb_gt in En.
    destruct (IH (Some (n - 1)%nat)) as (k & Hk & Hlen & Hcap).
    destruct (ctx_run (Some (n - 1)%nat) (map (fun r => ([c], r)) results)) as [o cs].
    simpl in *. subst cs. exists (S k). repeat split; [lia|].
    intros n' [= <-]. specialize (Hcap _ eq_refl). lia.
  - destruct (IH None) as (k & Hk & Hlen & _).
    destruct (ctx_run None (map (fun r => ([c], r)) results)) as [o cs].
    simpl in *. subst cs. exists (S k). repeat split; [lia | discriminate].
Qed.

Lemma fetch_step_calls (cfg : RetryConfig) (env : Env) (u : JsString) :
  exists k,
    snd (ctx_run cfg (map (fun w => fetchWithBrowser (processEnv env) w u) (web env)))
    = replicate k (CallProvider (chosenProvider (processEnv env)) u)
    /\ (k <= length (web env))%nat
    /\ forall n, cfg = Some n -> (k <= Nat.max n 1)%nat.
Proof.
  rewrite fetch_attempt_calls.
  rewrite <- (map_map (fun w => askProvider (chosenProvider (processEnv env)) w u)
                      (fun r => ([CallProvider (chosenProvider (processEnv env)) u], r))).
  destruct (ctx_run_single_calls cfg
              (CallProvider (chosenProvider (processEnv env)) u)
              (map (fun w => askProvider (chosenProvider (processEnv env)) w u) (web env)))
    as (k & Hk & Hlen & Hcap).
  exists k. rewrite length_map in Hlen. auto.
Qed.

Lemma slice0_length (n : N) (s : JsString) : (N.of_nat (length (slice0 n s)) <= n)%N.
Proof. unfold slice0. rewrite length_take. lia. Qed.

(** The calls of [addAd] on an idealista URL: fetches by the one chosen
    provider, at most ten and at most one per observed answer of the
    page, then extraction calls on one and the same HTML of at most
    40000 code units, at most ten. *)
Theorem addAd_idealista_calls (env : Env) (u host : JsString) (s : Store) :
  hostname u = Some host ->
  includes (lit "idealista.it") host = true ->
  exists k j html,
    calls (snd (invoke (addAd env u) s))
    = replicate k (CallProvider (chosenProvider (processEnv env)) u)
      ++ replicate j (CallGenerateObject Idealista html)
    /\ (k <= 10)%nat /\ (k <= length (web env))%nat /\ (j <= 10)%nat
    /\ (N.of_nat (length html) <= 40000)%N.
Proof.
  intros Hhost Hsite. unfold invoke, addAd, scrapeIdealistaAd.
  rewrite Hhost, Hsite. cbn [negb].
  unfold bind, fetch_html, durableCall, step, new_Date_toISOString,
    ctx_rand_uuidv4, ctx_get_ads, ctx_set_ads, read_store, modify_store, ret.
  destruct (fetch_step_calls DURABLE_FETCH_RETRY_CONFIG env u)
    as (k & Hk & Hlen & Hcap).
  specialize (Hcap _ eq_refl). simpl in Hcap.
  destruct (ctx_run DURABLE_FETCH_RETRY_CONFIG _) as [[page|e|] cs];
    cbn [fst snd calls] in *; subst cs.
  2,3: exists k, 0%nat, []; simpl; rewrite app_nil_r;
       repeat split; (reflexivity || lia).
  set (shown := slice0 40000 (cleanHtmlForAI page)).
  destruct (ctx_run_single_calls DURABLE_AI_RETRY_CONFIG
              (CallGenerateObject Idealista shown) (objectModel env Idealista shown))
    as (j & Hj & _ & Hcapj).
  specialize (Hcapj _ eq_refl). simpl in Hcapj.
  exists k, j, shown.
  destruct (ctx_run DURABLE_AI_RETRY_CONFIG _) as [[e|e|] cs'];
    cbn [fst snd calls] in *; subst cs'.
  all: repeat split; try lia; try apply slice0_length.
Qed.

(** The calls of [addAd] on an immobiliare URL: fetches by the one
    chosen provider, one per observed answer of the page at most and
    without a cap of their own, then extraction calls on one and the
    same HTML of at most 50000 code units, at most three. *)
Theorem addAd_immobiliare_calls (env : Env) (u host : JsString) (s : Store) :
  hostname u = Some host ->
  includes (lit "idealista.it") host = false ->
  includes (lit "immobiliare.it") host = true ->
  exists k j html,
    calls (snd (invoke (addAd env u) s))
    = replicate k (CallProvider (chosenProvider (processEnv env)) u)
      ++ replicate j (CallGenerateObject Immobiliare html)
    /\ (k <= length (web env))%nat /\ (j <= 3)%nat
    /\ (N.of_nat (length html) <= 50000)%N.
Proof.
  intros Hhost Hsite Hsite'. unfold invoke, addAd, scrapeImmobiliareAd.
  rewrite Hhost, Hsite, Hsite'. cbn [negb].
  unfold bind, fetch_html, durableCall, step, new_Date_toISOString,
    ctx_rand_uuidv4, ctx_get_ads, ctx_set_ads, read_store, modify_store, ret.
  destruct (fetch_step_calls None env u) as (k & Hk & Hlen & _).
  destruct (ctx_run None _) as [[page|e|] cs]; cbn [fst snd calls] in *; subst cs.
  2,3: exists k, 0%nat, []; simpl; rewrite app_nil_r;
       repeat split; (reflexivity || lia).
  set (shown := slice0 50000 (stripNoise page)).
  destruct (ctx_run_single_calls (Some 3%nat)
              (CallGenerateObject Immobiliare shown) (objectModel env Immobiliare shown))
    as (j & Hj & _ & Hcapj).
  specialize (Hcapj _ eq_refl). simpl in Hcapj.
  exists k, j, shown.
  destruct (ctx_run (Some 3%nat) _) as [[e|e|] cs'];
    cbn [fst snd calls] in *; subst cs'.
  all: repeat split; try lia; try apply slice0_length.
Qed.

(** [askQuestion] calls the text model at most three times, each time
    with the prompt rendered from the stored criteria and ads, and
    calls nothing else. *)
Theorem askQuestion_calls_bounded (env : Env) (q : JsString) (s : Store) :
  exists j,
    calls (snd (invoke (askQuestion env q) s))
    = replicate j (CallGenerateText (questionPrompt (criteria s) (adsOf s) q))
    /\ (j <= 3)%nat.
Proof.
  unfold invoke, askQuestion, adsOf.
  destruct (negb (truthy q) || (length (trim q) =? 0)%nat).
  { exists 0%nat. split; [reflexivity | lia]. }
  unfold bind, durableCall, step, ctx_get_ads, ctx_get_criteria, ctx_get_questions,
    ctx_set_questions, ctx_rand_uuidv4, new_Date_toISOString, read_store,
    modify_store, ret.
  cbn [store fst snd].
  set (prompt := questionPrompt (criteria s) (default [] (ads s)) q).
  destruct (ctx_run_single_calls (Some 3%nat) (CallGenerateText prompt)
              (textModel env prompt)) as (j & Hj & _ & Hcap).
  specialize (Hcap _ eq_refl). simpl in Hcap. exists j.
  destruct (ctx_run (Some 3%nat) _) as [[a|e|] cs];
    cbn [fst snd calls] in *; subst cs; split; (reflexivity || lia).
Qed.

(** The other handlers never leave the process, draw no id and do not
    read the clock, except [createResearch], which reads it once when it
    creates the project. *)
Theorem quiet_handlers (env : Env) (req : Request) (s : Store) :
  (forall u, req <> AddAd u) ->
  (forall q, req <> AskQuestion q) ->
  calls (snd (invoke (handle env req) s)) = []
  /\ randDraws (snd (invoke (handle env req) s)) = 0%nat
  /\ ((forall c, req <> CreateResearch c) ->
      clockReads (snd (invoke (handle env req) s)) = 0%nat).
Proof.
  intros Hadd Hask. destruct req; try (destruct (Hadd _ eq_refl));
    try (destruct (Hask _ eq_refl)); run_handlers; split_on_scrutinee;
    cbn [fst snd calls randDraws clockReads]; repeat split.
  all: intros Hcreate; destruct (Hcreate _ eq_refl).
Qed.




End Budgets.

(** ** How the handlers compose *)

Section Composition.
Context `{Platform}.

Lemma findIndex_alter {A} (p : A -> bool) (f : A -> A) (i : nat) (l : list A) :
  (forall a, p (f a) = p a) -> findIndex p (alter f i l) = findIndex p l.
Proof.
  intros Hp. revert i. induction l as [|a l IH]; intros [|i];
    [reflexivity | reflexivity | |].
  - change (alter f 0%nat (a :: l)) with (f a :: l). cbn [findIndex].
    rewrite Hp. reflexivity.
  - change (alter f (S i) (a :: l)) with (a :: alter f i l). cbn [findIndex].
    rewrite IH. reflexivity.
Qed.

Lemma map_alter_same {A B} (g : A -> B) (f : A -> A) (i : nat) (l : list A) :
  (forall a, g (f a) = g a) -> map g (alter f i l) = map g l.
Proof.
  intros Hg. revert i. induction l as [|a l IH]; intros [|i];
    [reflexivity | reflexivity | |].
  - change (alter f 0%nat (a :: l)) with (f a :: l). cbn [map].
    rewrite Hg. reflexivity.
  - change (alter f (S i) (a :: l)) with (a :: alter f i l). cbn [map].
    rewrite IH. reflexivity.
Qed.

(** The store [updateAdStatus] leaves, in closed form. *)
Lemma after_updateAdStatus (adId v : JsString) (s : Store) :
  after (updateAdStatus adId v) s
  = match AdStatusSchema_safeParse v with
    | None => s
    | Some st =>
      match findIndex (fun ad => bool_decide (id ad = adId)) (adsOf s) with
      | None => s
      | Some i => {| criteria := criteria s;
                     ads := Some (alter (with_status st) i (adsOf s));
                     questions := questions s; createdAt := createdAt s |}
      end
    end.
Proof.
  unfold after, adsOf, invoke, updateAdStatus.
  destruct (AdStatusSchema_safeParse v); [|reflexivity].
  unfold bind, ctx_get_ads, read_store. cbn [store fst snd].
  destruct (findIndex _ _); reflexivity.
Qed.

Lemma after_updateAdNotes (adId n : JsString) (s : Store) :
  after (updateAdNotes adId n) s
  = match findIndex (fun ad => bool_decide (id ad = adId)) (adsOf s) with
    | None => s
    | Some i => {| criteria := criteria s;
                   ads := Some (alter (with_notes n) i (adsOf s));
                   questions := questions s; createdAt := createdAt s |}
    end.
Proof.
  unfold after, adsOf, invoke, updateAdNotes.
  unfold bind, ctx_get_ads, read_store. cbn [store fst snd].
  destruct (findIndex _ _); reflexivity.
Qed.

(** Whether an update succeeds depends on the ids in the store only. *)
Lemma updateAdStatus_outcome (adId v : JsString) (s : Store) :
  fst (invoke (updateAdStatus adId v) s)
  = match AdStatusSchema_safeParse v with
    | None => Throw (InvalidStatus v)
    | Some _ =>
      match findIndex (fun ad => bool_decide (id ad = adId)) (adsOf s) with
      | None => Throw AdNotFound
      | Some _ => Ok tt
      end
    end.
Proof.
  unfold adsOf, invoke, updateAdStatus.
  destruct (AdStatusSchema_safeParse v); [|reflexivity].
  unfold bind, ctx_get_ads, read_store. cbn [store fst snd].
  destruct (findIndex _ _); reflexivity.
Qed.

Lemma updateAdNotes_outcome (adId n : JsString) (s : Store) :
  fst (invoke (updateAdNotes adId n) s)
  = match findIndex (fun ad => bool_decide (id ad = adId)) (adsOf s) with
    | None => Throw AdNotFound
    | Some _ => Ok tt
    end.
Proof.
  unfold adsOf, invoke, updateAdNotes.
  unfold bind, ctx_get_ads, read_store. cbn [store fst snd].
  destruct (findIndex _ _); reflexivity.
Qed.

Lemma adsOf_updated (s : Store) (l : list PropertyAd) :
  adsOf {| criteria := criteria s; ads := Some l;
           questions := questions s; createdAt := createdAt s |} = l.
Proof. reflexivity. Qed.

(** A status update and a notes update, on the same ad or on two ads,
    can be made in either order: each one succeeds or fails as it would
    alone, and the store at the end is the same. *)
Theorem updates_commute (adId v adId' n : JsString) (s : Store) :
  after (updateAdNotes adId' n) (after (updateAdStatus adId v) s)
  = after (updateAdStatus adId v) (after (updateAdNotes adId' n) s)
  /\ fst (invoke (updateAdStatus adId v) (after (updateAdNotes adId' n) s))
     = fst (invoke (updateAdStatus adId v) s)
  /\ fst (invoke (updateAdNotes adId' n) (after (updateAdStatus adId v) s))
     = fst (invoke (updateAdNotes adId' n) s).
Proof.
  rewrite !updateAdStatus_outcome, !updateAdNotes_outcome.
  rewrite !after_updateAdStatus, !after_updateAdNotes.
  destruct (AdStatusSchema_safeParse v) as [st|]; [|repeat split].
  destruct (findIndex (fun ad => bool_decide (id ad = adId')) (adsOf s))
    as [i'|] eqn:Hnotes;
    destruct (findIndex (fun ad => bool_decide (id ad = adId)) (adsOf s))
      as [i|] eqn:Hstatus;
    rewrite ?adsOf_updated, ?findIndex_alter, ?Hnotes, ?Hstatus by reflexivity;
    cbn [criteria ads questions createdAt]; repeat split.
  rewrite ?adsOf_updated. do 2 f_equal.
  rewrite list_alter_alter. case_decide; [subst; rewrite list_alter_alter_eq|];
    reflexivity.
Qed.

(** The last update of a field wins: updating the status (or the notes)
    of an ad twice leaves the store a single update with the second
    value leaves. *)
Theorem update_overwrites (adId n1 n2 : JsString) (st1 st2 : AdStatus) (s : Store) :
  after (updateAdStatus adId (AdStatus_str st2))
    (after (updateAdStatus adId (AdStatus_str st1)) s)
  = after (updateAdStatus adId (AdStatus_str st2)) s
  /\ after (updateAdNotes adId n2) (after (updateAdNotes adId n1) s)
     = after (updateAdNotes adId n2) s.
Proof.
  rewrite !after_updateAdStatus, !after_updateAdNotes, !safeParse_complete.
  destruct (findIndex (fun ad => bool_decide (id ad = adId)) (adsOf s))
    as [i|] eqn:Hfound; rewrite ?Hfound; [|split; reflexivity].
  rewrite !adsOf_updated, !findIndex_alter, Hfound by reflexivity.
  cbn [criteria ads questions createdAt].
  rewrite !list_alter_alter_eq. split; reflexivity.
Qed.

(** The two ways [askQuestion] can end. *)
Lemma askQuestion_cases (env : Env) (q : JsString) (s : Store) :
  (exists a qa,
     fst (invoke (askQuestion env q) s) = Ok a
     /\ after (askQuestion env q) s
        = {| criteria := criteria s; ads := ads s;
             questions := Some (questionsOf s ++ [qa]);
             createdAt := createdAt s |}
     /\ question qa = q /\ answer qa = a)
  \/ ((forall a, fst (invoke (askQuestion env q) s) <> Ok a)
      /\ after (askQuestion env q) s = s).
Proof.
  unfold after, questionsOf. run_handlers.
  split_on_scrutinee; cbn [fst snd store].
  all: try (right; split; [discriminate | reflexivity]).
  left. eexists _, _. split; [reflexivity|]. split; [reflexivity|].
  split; reflexivity.
Qed.

(** [askQuestion] either returns an answer, and then the store differs
    from the one before by one entry at the end of the question list,
    holding the question and that answer; or it fails or is still being
    retried, and the store is as it was.  It never touches the
    criteria, the ads or the creation time. *)
Theorem askQuestion_atomic (env : Env) (q : JsString) (s : Store) :
  (exists a qa,
     fst (invoke (askQuestion env q) s) = Ok a
     /\ after (askQuestion env q) s
        = {| criteria := criteria s; ads := ads s;
             questions := Some (questionsOf s ++ [qa]);
             createdAt := createdAt s |}
     /\ question qa = q /\ answer qa = a)
  \/ ((forall a, fst (invoke (askQuestion env q) s) <> Ok a)
      /\ after (askQuestion env q) s = s).
Proof. exact (askQuestion_cases env q s). Qed.

(** Creating a project whose criteria is unset or empty starts it
    afresh: afterwards [getCriteria] returns the criteria given (when
    it is not empty), and [getAds] and [getQuestions] return empty
    lists, whatever ads and questions the object held before. *)
Theorem create_then_read (env : Env) (c : JsString) (s : Store) :
  truthy_opt (criteria s) = false ->
  c <> [] ->
  fst (invoke (createResearch env c) s) = Ok tt
  /\ fst (invoke getCriteria (after (createResearch env c) s)) = Ok c
  /\ fst (invoke getAds (after (createResearch env c) s)) = Ok []
  /\ fst (invoke getQuestions (after (createResearch env c) s)) = Ok [].
Proof.
  intros Hunset Hc. unfold after.
  rewrite createResearch_fresh by exact Hunset. cbn [fst snd store].
  destruct c; [congruence|]. repeat split.
Qed.

End Composition.

(** ** Invariants of an existing project *)

Section Invariants.
Context `{Platform}.

Lemma handle_store (env : Env) (req : Request) (s : Store) :
  store (snd (invoke (handle env req) s))
  = match req with
    | CreateResearch c => after (createResearch env c) s
    | GetCriteria => after getCriteria s
    | AddAd u => after (addAd env u) s
    | GetAds => after getAds s
    | UpdateAdStatus i v => after (updateAdStatus i v) s
    | UpdateAdNotes i n => after (updateAdNotes i n) s
    | AskQuestion q => after (askQuestion env q) s
    | GetQuestions => after getQuestions s
    end.
Proof.
  unfold after, invoke, handle.
  destruct req; unfold bind, ret;
    match goal with
    | |- context [match ?m ?x with _ => _ end] =>
      destruct (m x) as [[?|?|] ?]; reflexivity
    end.
Qed.

(** Once a project exists, no request changes its criteria or its
    creation time, removes or reorders an ad or a question, or changes
    the id of an ad: the ids of the ads before are the first ids after,
    the questions before are the first questions after, and a request
    adds at most one ad and at most one question. *)
Theorem existing_project_frame (env : Env) (req : Request) (s : Store) :
  truthy_opt (criteria s) = true ->
  let s' := store (snd (invoke (handle env req) s)) in
  criteria s' = criteria s
  /\ createdAt s' = createdAt s
  /\ (exists added, map id (adsOf s') = map id (adsOf s) ++ map id added
                    /\ (length added <= 1)%nat)
  /\ (exists asked, questionsOf s' = questionsOf s ++ asked
                    /\ (length asked <= 1)%nat).
Proof.
  intros Hexists s'. subst s'. rewrite handle_store.
  assert (Hsame : criteria s = criteria s /\ createdAt s = createdAt s
            /\ (exists added, map id (adsOf s) = map id (adsOf s) ++ map id added
                              /\ (length added <= 1)%nat)
            /\ (exists asked, questionsOf s = questionsOf s ++ asked
                              /\ (length asked <= 1)%nat)).
  { repeat split; exists []; rewrite app_nil_r; split; (reflexivity || simpl; lia). }
  destruct req as [c| |u| |i v|i n|q|].
  - unfold after. rewrite createResearch_exists by exact Hexists. exact Hsame.
  - unfold after, invoke, getCriteria, bind, ctx_get_criteria, read_store.
    cbn [store fst snd]. rewrite Hexists. exact Hsame.
  - destruct (addAd_cases env u s) as [(ad & _ & Hstore)|[_ Hstore]];
      unfold after; cbn zeta in Hstore; rewrite Hstore; [|exact Hsame].
    cbn [criteria createdAt]. split; [reflexivity|]. split; [reflexivity|]. split.
    + exists [ad]. rewrite adsOf_updated, map_app.
      split; [reflexivity | simpl; lia].
    + exists []. rewrite app_nil_r. split; [reflexivity | simpl; lia].
  - exact Hsame.
  - rewrite after_updateAdStatus.
    destruct (AdStatusSchema_safeParse v) as [st|]; [|exact Hsame].
    destruct (findIndex _ _) as [k|]; [|exact Hsame].
    cbn [criteria createdAt]. split; [reflexivity|]. split; [reflexivity|]. split.
    + exists []. rewrite adsOf_updated, map_alter_same by reflexivity.
      rewrite app_nil_r. split; [reflexivity | simpl; lia].
    + exists []. rewrite app_nil_r. split; [reflexivity | simpl; lia].
  - rewrite after_updateAdNotes.
    destruct (findIndex _ _) as [k|]; [|exact Hsame].
    cbn [criteria createdAt]. split; [reflexivity|]. split; [reflexivity|]. split.
    + exists []. rewrite adsOf_updated, map_alter_same by reflexivity.
      rewrite app_nil_r. split; [reflexivity | simpl; lia].
    + exists []. rewrite app_nil_r. split; [reflexivity | simpl; lia].
  - destruct (askQuestion_cases env q s)
      as [(a & qa & _ & Hstore & _)|[_ Hstore]]; rewrite Hstore; [|exact Hsame].
    cbn [criteria createdAt]. split; [reflexivity|]. split; [reflexivity|]. split.
    + exists []. rewrite app_nil_r. split; [reflexivity | simpl; lia].
    + exists [qa]. split; [reflexivity | simpl; lia].
  - exact Hsame.
Qed.

End Invariants.

(** ** Recovering from failed attempts *)

Section Recovery.
Context `{Platform}.

(** A fetch step whose provider fails a number of times the
    configuration leaves room for, and then returns a page, returns
    that page, having called the provider once per attempt. *)
Lemma fetch_step_recovers (cfg : RetryConfig) (penv : ProcessEnv) (u : JsString)
    (failing : list Web) (w : Web) (rest : list Web) (page : JsString) :
  Forall (fun w' => forall pg, askProvider (chosenProvider penv) w' u <> inr pg) failing ->
  askProvider (chosenProvider penv) w u = inr page ->
  allowsAfter cfg (length failing) ->
  ctx_run cfg (map (fun w => fetchWithBrowser penv w u) (failing ++ w :: rest))
  = (Ok page, replicate (S (length failing)) (CallProvider (chosenProvider penv) u)).
Proof.
  intros Hfail Hpage. rewrite fetch_attempt_calls. revert cfg.
  induction Hfail as [|w' failing Hw' _ IH]; intros cfg Hallow; simpl.
  { rewrite Hpage. reflexivity. }
  destruct (askProvider (chosenProvider penv) w' u) as [e|pg] eqn:Hask;
    [|destruct (Hw' pg eq_refl)].
  destruct (askProvider_failure _ _ _ _ Hask) as (m & ->).
  destruct cfg as [n|]; simpl in Hallow.
  - destruct (n <=? 1)%nat eqn:En; [apply Nat.leb_le in En; lia|].
    rewrite (IH (Some (n - 1)%nat)) by (simpl; lia). reflexivity.
  - rewrite (IH None) by exact I. reflexivity.
Qed.

(** [addAd] on an idealista URL whose page fails to load fewer than ten
    times and then loads, with a model that fails fewer than ten times
    and then answers, returns an ad and appends it: the provider was
    called once per attempt, failed or not, and so was the model. *)
Theorem addAd_idealista_recovers (env : Env) (u host : JsString) (s : Store)
    (failing : list Web) (w : Web) (rest : list Web) (page : JsString)
    (msgs : list JsString) (e : Extraction) (rest' : list (Exn + Extraction)) :
  let p := chosenProvider (processEnv env) in
  let shown := slice0 40000 (cleanHtmlForAI page) in
  hostname u = Some host ->
  includes (lit "idealista.it") host = true ->
  web env = failing ++ w :: rest ->
  Forall (fun w' => forall pg, askProvider p w' u <> inr pg) failing ->
  (length failing < 10)%nat ->
  askProvider p w u = inr page ->
  objectModel env Idealista shown = answersAfter msgs e rest' ->
  (length msgs < 10)%nat ->
  exists ad,
    fst (invoke (addAd env u) s) = Ok ad
    /\ adsOf (after (addAd env u) s) = adsOf s ++ [ad]
    /\ calls (snd (invoke (addAd env u) s))
       = replicate (S (length failing)) (CallProvider p u)
         ++ replicate (S (length msgs)) (CallGenerateObject Idealista shown).
Proof.
  intros p shown Hhost Hsite Hweb Hfail Hfew Hpage Hmodel Hfew'.
  assert (Hrun : exists ad x,
             invoke (addAd env u) s = (Ok ad, x)
             /\ adsOf (store x) = adsOf s ++ [ad]
             /\ calls x
                = replicate (S (length failing)) (CallProvider p u)
                  ++ replicate (S (length msgs)) (CallGenerateObject Idealista shown)).
  { unfold invoke, addAd, scrapeIdealistaAd.
    rewrite Hhost, Hsite. cbn [negb].
    unfold bind at 1 2 3. unfold fetch_html, step. rewrite Hweb.
    rewrite (fetch_step_recovers DURABLE_FETCH_RETRY_CONFIG _ u failing w rest page
               Hfail Hpage) by exact Hfew.
    fold shown. rewrite Hmodel.
    unfold bind. rewrite durableCall_answers by exact Hfew'.
    eexists _, _. split; [reflexivity|]. split; reflexivity. }
  destruct Hrun as (ad & x & Hrun & Hads & Hcalls).
  exists ad. unfold after. rewrite Hrun. auto.
Qed.

(** The same on an immobiliare URL, whose fetch step has no cap: the
    page may fail any number of times before it loads; the model has
    three attempts. *)
Theorem addAd_immobiliare_recovers (env : Env) (u host : JsString) (s : Store)
    (failing : list Web) (w : Web) (rest : list Web) (page : JsString)
    (msgs : list JsString) (e : Extraction) (rest' : list (Exn + Extraction)) :
  let p := chosenProvider (processEnv env) in
  let shown := slice0 50000 (stripNoise page) in
  hostname u = Some host ->
  includes (lit "idealista.it") host = false ->
  includes (lit "immobiliare.it") host = true ->
  web env = failing ++ w :: rest ->
  Forall (fun w' => forall pg, askProvider p w' u <> inr pg) failing ->
  askProvider p w u = inr page ->
  objectModel env Immobiliare shown = answersAfter msgs e rest' ->
  (length msgs < 3)%nat ->
  exists ad,
    fst (invoke (addAd env u) s) = Ok ad
    /\ adsOf (after (addAd env u) s) = adsOf s ++ [ad]
    /\ calls (snd (invoke (addAd env u) s))
       = replicate (S (length failing)) (CallProvider p u)
         ++ replicate (S (length msgs)) (CallGenerateObject Immobiliare shown).
Proof.
  intros p shown Hhost Hsite Hsite' Hweb Hfail Hpage Hmodel Hfew'.
  assert (Hrun : exists ad x,
             invoke (addAd env u) s = (Ok ad, x)
             /\ adsOf (store x) = adsOf s ++ [ad]
             /\ calls x
                = replicate (S (length failing)) (CallProvider p u)
                  ++ replicate (S (length msgs))
                       (CallGenerateObject Immobiliare shown)).
  { unfold invoke, addAd, scrapeImmobiliareAd.
    rewrite Hhost, Hsite, Hsite'. cbn [negb].
    unfold bind at 1 2 3. unfold fetch_html, step. rewrite Hweb.
    rewrite (fetch_step_recovers None _ u failing w rest page Hfail Hpage) by exact I.
    fold shown. rewrite Hmodel.
    unfold bind. rewrite durableCall_answers by exact Hfew'.
    eexists _, _. split; [reflexivity|]. split; reflexivity. }
  destruct Hrun as (ad & x & Hrun & Hads & Hcalls).
  exists ad. unfold after. rewrite Hrun. auto.
Qed.

End Recovery.

(** ** Enumerations, providers and scrapers *)

Section Leaves.
Context `{Platform}.

(** [AdStatusSchema] and the status strings: parsing the string of a
    status gives that status back, whatever parses is the string of
    the status it parses to, and so two statuses never share a
    string. *)
Theorem AdStatus_round_trip :
  (forall st, AdStatusSchema_safeParse (AdStatus_str st) = Some st)
  /\ (forall v st, AdStatusSchema_safeParse v = Some st -> AdStatus_str st = v)
  /\ (forall st st', AdStatus_str st = AdStatus_str st' -> st = st').
Proof.
  split; [exact safeParse_complete|]. split; [exact safeParse_sound|].
  intros st st' Heq. pose proof (safeParse_complete st) as Hst.
  rewrite Heq, safeParse_complete in Hst. congruence.
Qed.

(** When a provider returns a page.  The browser only returns a page
    for a response of status 200 or 304, and then its content; a
    scraping service only for a status from 200 to 299, and then the
    body.  A response of any other status is an error: for a service
    it names the service, the status, the body and the URL, for the
    browser a 404 starts with "Ad not found (404): " and the URL.  No
    provider fails with a terminal error, so the step retries what
    they fail with. *)
Theorem providers_return_page_only_if (w : Web) (u name : JsString) (o : FetchOutcome) :
  (forall page,
     fetchWithPuppeteer w u = inr page ->
     exists st headers,
       browser w = GotoResponse st headers page /\ (st = 200 \/ st = 304))
  /\ (forall page,
        fetchWithService name o u = inr page ->
        exists st, o = FetchResponse st page /\ 200 <= st <= 299)
  /\ (forall st headers content,
        browser w = GotoResponse st headers content -> st <> 200 -> st <> 304 ->
        exists m,
          fetchWithPuppeteer w u = inl (Error m)
          /\ (st = 404 -> startsWith (lit "Ad not found (404): " ++ u) m = true))
  /\ (forall st body,
        o = FetchResponse st body -> ~ 200 <= st <= 299 ->
        fetchWithService name o u
        = inl (Error (name ++ lit " error (" ++ decimal st ++ lit "): " ++ body
                      ++ nl ++ lit "URL: " ++ u)))
  /\ (forall m, fetchWithPuppeteer w u <> inl (TerminalError m))
  /\ (forall m, fetchWithService name o u <> inl (TerminalError m)).
Proof.
  split; [|split; [|split; [|split; [|split]]]].
  - intros page. unfold fetchWithPuppeteer.
    destruct (browser w) as [m|m| |st headers content]; try discriminate.
    destruct (st =? 404) eqn:E404; [discriminate|].
    destruct (st =? 403) eqn:E403; [discriminate|].
    destruct (500 <=? st) eqn:E500; [discriminate|].
    destruct (negb (st =? 200) && negb (st =? 304)) eqn:Eok; [discriminate|].
    intros [= <-]. exists st, headers. split; [reflexivity|].
    apply andb_false_iff in Eok as [Eok|Eok]; apply negb_false_iff in Eok;
      apply N.eqb_eq in Eok; auto.
  - intros page. unfold fetchWithService, response_ok.
    destruct o as [m|st text]; [discriminate|].
    destruct ((200 <=? st) && (st <=? 299)) eqn:Eok; [|discriminate].
    intros [= <-]. exists st. split; [reflexivity|].
    apply andb_true_iff in Eok as [Hlo Hhi].
    apply N.leb_le in Hlo. apply N.leb_le in Hhi. lia.
  - intros st headers content Hw H200 H304. unfold fetchWithPuppeteer. rewrite Hw.
    destruct (st =? 404) eqn:E404.
    { eexists. split; [reflexivity|]. intros _.
      rewrite (app_assoc (lit "Ad not found (404): ") u).
      apply startsWith_app, startsWith_refl. }
    apply N.eqb_neq in E404.
    destruct (st =? 403); [eexists; split; [reflexivity | intros; contradiction]|].
    destruct (500 <=? st); [eexists; split; [reflexivity | intros; contradiction]|].
    apply N.eqb_neq in H200. apply N.eqb_neq in H304. rewrite H200, H304.
    eexists; split; [reflexivity | intros; contradiction].
  - intros st body -> Hst. unfold fetchWithService, response_ok.
    destruct ((200 <=? st) && (st <=? 299)) eqn:Eok; [|reflexivity].
    apply andb_true_iff in Eok as [Hlo Hhi].
    apply N.leb_le in Hlo. apply N.leb_le in Hhi. lia.
  - intros m Hm.
    destruct (askProvider_failure Puppeteer w u _ Hm) as (m' & [=]).
  - intros m. unfold fetchWithService.
    destruct o as [m'|st text]; [discriminate|].
    destruct (response_ok st); discriminate.
Qed.

(** A step that returns a value: the attempts before the one that
    returned it failed with ordinary errors, and the cap left room for
    them. *)
Lemma ctx_run_returns {A} (cfg : RetryConfig) (attempts : list (list Call * (Exn + A)))
    (v : A) :
  fst (ctx_run cfg attempts) = Ok v ->
  exists failing cs rest,
    attempts = failing ++ (cs, inr v) :: rest
    /\ Forall failsOrdinarily failing
    /\ (failing = [] \/ allowsAfter cfg (length failing)).
Proof.
  revert cfg. induction attempts as [|[cs r] attempts IH]; intros cfg; simpl;
    [discriminate|].
  destruct r as [[m|m]|a]; simpl; try discriminate.
  - destruct cfg as [n|].
    + destruct (n <=? 1)%nat eqn:En; simpl; [discriminate|].
      apply Nat.leb_gt in En. specialize (IH (Some (n - 1)%nat)).
      destruct (ctx_run (Some (n - 1)%nat) attempts) as [o cs']. simpl in *.
      intros Ho. destruct (IH Ho) as (failing & cs0 & rest & -> & Hfail & Hcap).
      exists ((cs, inl (Error m)) :: failing), cs0, rest.
      split; [reflexivity|]. split.
      * apply Forall_cons. split; [exists m; reflexivity | exact Hfail].
      * right. simpl. destruct Hcap as [->|Hcap]; simpl in *; lia.
    + specialize (IH None). destruct (ctx_run None attempts) as [o cs']. simpl in *.
      intros Ho. destruct (IH Ho) as (failing & cs0 & rest & -> & Hfail & _).
      exists ((cs, inl (Error m)) :: failing), cs0, rest.
      split; [reflexivity|]. split; [|right; exact I].
      apply Forall_cons. split; [exists m; reflexivity | exact Hfail].
  - intros [= <-]. exists [], cs, attempts.
    split; [reflexivity|]. split; [constructor | left; reflexivity].
Qed.

(** The fetch step returned [page]: the chosen provider returned it at
    some attempt, after failing at the ones before. *)
Lemma fetch_step_returns (cfg : RetryConfig) (env : Env) (u page : JsString) :
  let p := chosenProvider (processEnv env) in
  fst (ctx_run cfg (map (fun w => fetchWithBrowser (processEnv env) w u) (web env)))
  = Ok page ->
  exists failing w rest,
    web env = failing ++ w :: rest
    /\ Forall (fun w' => forall pg, askProvider p w' u <> inr pg) failing
    /\ askProvider p w u = inr page
    /\ (failing = [] \/ allowsAfter cfg (length failing)).
Proof.
  intros p Hrun. subst p.
  destruct (ctx_run_returns _ _ _ Hrun) as (failing & cs & rest & Hatts & Hfail & Hcap).
  rewrite fetch_attempt_calls in Hatts.
  apply map_eq_app in Hatts as (ws & ws' & -> & <- & Hrest).
  destruct ws' as [|w ws']; [discriminate|]. simpl in Hrest.
  injection Hrest as _ Hpage _.
  exists ws, w, ws'. split; [reflexivity|]. split; [|split; [exact Hpage|]].
  - apply Forall_forall. intros w' Hw' pg Hpg.
    rewrite Forall_forall in Hfail.
    destruct (Hfail ([CallProvider (chosenProvider (processEnv env)) u],
                     askProvider (chosenProvider (processEnv env)) w' u))
      as (m & Hm).
    + apply list_elem_of_fmap. exists w'. split; [reflexivity | exact Hw'].
    + simpl in Hm. congruence.
  - rewrite length_map in Hcap. destruct Hcap as [Hnil|Hcap]; [left|right; exact Hcap].
    destruct ws; [reflexivity | discriminate].
Qed.

(** The model step returned [a]: the model answered [a] after failing
    with ordinary errors. *)
Lemma durableCall_returns {A} (cfg : RetryConfig) (c : Call) (results : list (Exn + A))
    (a : A) :
  fst (ctx_run cfg (map (fun r => ([c], r)) results)) = Ok a ->
  exists msgs rest,
    results = answersAfter msgs a rest
    /\ (msgs = [] \/ allowsAfter cfg (length msgs)).
Proof.
  intros Hrun.
  destruct (ctx_run_returns _ _ _ Hrun) as (failing & cs & rest & Hatts & Hfail & Hcap).
  apply map_eq_app in Hatts as (rs & rs' & -> & <- & Hrest).
  destruct rs' as [|r rs']; [discriminate|]. simpl in Hrest.
  injection Hrest as _ -> _.
  assert (Hmsgs : exists msgs, rs = map (fun m => inl (Error m)) msgs).
  { clear Hcap Hrun. induction rs as [|r rs IH]; [exists []; reflexivity|].
    simpl in Hfail. apply Forall_cons in Hfail as [(m & Hm) Hfail].
    destruct (IH Hfail) as (msgs & ->). simpl in Hm. subst r.
    exists (m :: msgs). reflexivity. }
  destruct Hmsgs as (msgs & ->). exists msgs, rs'. split; [reflexivity|].
  rewrite !length_map in Hcap. destruct Hcap as [Hnil|Hcap]; [left|right; exact Hcap].
  destruct msgs; [reflexivity | discriminate].
Qed.

(** The ad the idealista scraper builds from an extraction. *)
Lemma scrapeIdealistaAd_returns (env : Env) (u : JsString) (x x' : Exec) (ad : PropertyAd) :
  let p := chosenProvider (processEnv env) in
  scrapeIdealistaAd env u x = (Ok ad, x') ->
  exists failing w rest page msgs e rest',
    web env = failing ++ w :: rest
    /\ Forall (fun w' => forall pg, askProvider p w' u <> inr pg) failing
    /\ askProvider p w u = inr page
    /\ objectModel env Idealista (slice0 40000 (cleanHtmlForAI page))
       = answersAfter msgs e rest'
    /\ ad = {| id := []; url := u; source := Idealista;
               title := or_str (x_title e) (lit "Annuncio senza titolo");
               price := x_price e;
               location := or_str (x_location e)
                             (lit "Localit" ++ [224] ++ lit " non specificata");
               size := x_size e; rooms := x_rooms e; bathrooms := x_bathrooms e;
               description := or_str (x_description e)
                                (lit "Descrizione non disponibile");
               descriptionSummary :=
                 or_str (or_str (x_descriptionSummary e)
                                (slice0 200 (x_description e) ++ lit "..."))
                        (lit "Nessuna descrizione disponibile");
               renovationStatus := x_renovationStatus e;
               features := x_features e;
               status := ToReachOut; notes := None;
               adAge := or_str (x_adAge e) (lit "non specificato");
               scrapedAt := now env (clockReads x) |}
    /\ store x' = store x /\ randDraws x' = randDraws x
    /\ clockReads x' = S (clockReads x).
Proof.
  intros p. subst p. unfold scrapeIdealistaAd.
  destruct (hostname u) as [host|]; [|discriminate].
  destruct (negb (includes (lit "idealista.it") host)); [discriminate|].
  unfold bind, fetch_html, durableCall, step, new_Date_toISOString, ret.
  destruct (ctx_run DURABLE_FETCH_RETRY_CONFIG _) as [[page|?|] cs] eqn:Hfetch;
    try discriminate.
  destruct (ctx_run DURABLE_AI_RETRY_CONFIG _) as [[e|?|] cs'] eqn:Hmodel;
    try discriminate.
  intros [= <- <-].
  destruct (fetch_step_returns _ env u page (f_equal fst Hfetch))
    as (failing & w & rest & Hweb & Hfail & Hpage & _).
  destruct (durableCall_returns _ _ _ e (f_equal fst Hmodel))
    as (msgs & rest' & Hanswers & _).
  exists failing, w, rest, page, msgs, e, rest'.
  split; [exact Hweb|]. split; [exact Hfail|]. split; [exact Hpage|].
  split; [exact Hanswers|]. cbn [store calls randDraws clockReads].
  split; [|repeat split]. f_equal.
  - destruct (x_renovationStatus e); reflexivity.
  - destruct (x_features e); reflexivity.
Qed.

(** The ad the immobiliare scraper builds from an extraction. *)
Lemma scrapeImmobiliareAd_returns (env : Env) (u : JsString) (x x' : Exec)
    (ad : PropertyAd) :
  let p := chosenProvider (processEnv env) in
  scrapeImmobiliareAd env u x = (Ok ad, x') ->
  exists failing w rest page msgs e rest',
    web env = failing ++ w :: rest
    /\ Forall (fun w' => forall pg, askProvider p w' u <> inr pg) failing
    /\ askProvider p w u = inr page
    /\ objectModel env Immobiliare (slice0 50000 (stripNoise page))
       = answersAfter msgs e rest'
    /\ ad = {| id := []; url := u; source := Immobiliare;
               title := x_title e; price := x_price e; location := x_location e;
               size := x_size e; rooms := x_rooms e; bathrooms := x_bathrooms e;
               description := x_description e;
               descriptionSummary := x_descriptionSummary e;
               renovationStatus := x_renovationStatus e;
               features := x_features e;
               status := ToReachOut; notes := None;
               adAge := x_adAge e;
               scrapedAt := now env (clockReads x) |}
    /\ store x' = store x /\ randDraws x' = randDraws x
    /\ clockReads x' = S (clockReads x).
Proof.
  intros p. subst p. unfold scrapeImmobiliareAd.
  destruct (hostname u) as [host|]; [|discriminate].
  destruct (negb (includes (lit "immobiliare.it") host)); [discriminate|].
  unfold bind, fetch_html, durableCall, step, new_Date_toISOString, ret.
  destruct (ctx_run None _) as [[page|?|] cs] eqn:Hfetch; try discriminate.
  destruct (ctx_run (Some 3%nat) _) as [[e|?|] cs'] eqn:Hmodel; try discriminate.
  intros [= <- <-].
  destruct (fetch_step_returns _ env u page (f_equal fst Hfetch))
    as (failing & w & rest & Hweb & Hfail & Hpage & _).
  destruct (durableCall_returns _ _ _ e (f_equal fst Hmodel))
    as (msgs & rest' & Hanswers & _).
  exists failing, w, rest, page, msgs, e, rest'.
  split; [exact Hweb|]. split; [exact Hfail|]. split; [exact Hpage|].
  split; [exact Hanswers|]. cbn [store calls randDraws clockReads].
  repeat split.
Qed.

(** The ad a scraper returns is a fresh one: its id is empty, for the
    caller to set, its status is "to reach out", it has no notes, its
    URL is the one scraped, its source is the scraper's site and its
    time is the one clock reading the scraper makes.  Its features,
    renovation status and numbers are those of the extraction the
    model answered, after its ordinary failures, for the page the
    chosen provider returned after its own; the store is as it was. *)
Theorem scrapers_return_fresh_ad (env : Env) (u : JsString) (x x' : Exec)
    (ad : PropertyAd) (site : Source) :
  let p := chosenProvider (processEnv env) in
  let shown page :=
    match site with
    | Idealista => slice0 40000 (cleanHtmlForAI page)
    | Immobiliare => slice0 50000 (stripNoise page)
    end in
  match site with
  | Idealista => scrapeIdealistaAd env u x
  | Immobiliare => scrapeImmobiliareAd env u x
  end = (Ok ad, x') ->
  id ad = [] /\ status ad = ToReachOut /\ notes ad = None
  /\ url ad = u /\ source ad = site
  /\ scrapedAt ad = now env (clockReads x)
  /\ (exists failing w rest page msgs e rest',
        web env = failing ++ w :: rest
        /\ Forall (fun w' => forall pg, askProvider p w' u <> inr pg) failing
        /\ askProvider p w u = inr page
        /\ objectModel env site (shown page) = answersAfter msgs e rest'
        /\ features ad = x_features e
        /\ renovationStatus ad = x_renovationStatus e
        /\ price ad = x_price e /\ size ad = x_size e
        /\ rooms ad = x_rooms e /\ bathrooms ad = x_bathrooms e)
  /\ store x' = store x
  /\ clockReads x' = S (clockReads x) /\ randDraws x' = randDraws x.
Proof.
  intros p shown. subst p shown. cbv beta. destruct site; intros Hrun.
  - destruct (scrapeIdealistaAd_returns env u x x' ad Hrun)
      as (failing & w & rest & page & msgs & e & rest' & Hweb & Hfail & Hpage
          & Hmodel & -> & Hstore & Hrand & Hclock).
    cbn [id status notes url source scrapedAt features renovationStatus price size
         rooms bathrooms].
    do 6 (split; [reflexivity|]).
    split; [|auto].
    exists failing, w, rest, page, msgs, e, rest'. repeat split; assumption.
  - destruct (scrapeImmobiliareAd_returns env u x x' ad Hrun)
      as (failing & w & rest & page & msgs & e & rest' & Hweb & Hfail & Hpage
          & Hmodel & -> & Hstore & Hrand & Hclock).
    cbn [id status notes url source scrapedAt features renovationStatus price size
         rooms bathrooms].
    do 6 (split; [reflexivity|]).
    split; [|auto].
    exists failing, w, rest, page, msgs, e, rest'. repeat split; assumption.
Qed.

(** The idealista scraper, on the extraction the model answered for
    the page the chosen provider returned: no required text field of
    the ad is empty; a field the model left empty holds its
    placeholder (for the summary, the start of the description
    followed by an ellipsis), a field the model filled is kept; the
    numbers are passed on as they are, present or absent. *)
Theorem scrapeIdealistaAd_fills_placeholders (env : Env) (u : JsString) (x x' : Exec)
    (ad : PropertyAd) :
  let p := chosenProvider (processEnv env) in
  scrapeIdealistaAd env u x = (Ok ad, x') ->
  exists failing w rest page msgs e rest',
    (web env = failing ++ w :: rest
     /\ Forall (fun w' => forall pg, askProvider p w' u <> inr pg) failing
     /\ askProvider p w u = inr page
     /\ objectModel env Idealista (slice0 40000 (cleanHtmlForAI page))
        = answersAfter msgs e rest')
    /\ (title ad <> [] /\ location ad <> [] /\ description ad <> []
        /\ descriptionSummary ad <> [] /\ adAge ad <> [])
    /\ (price ad = x_price e /\ size ad = x_size e
        /\ rooms ad = x_rooms e /\ bathrooms ad = x_bathrooms e)
    /\ (x_title e = [] -> title ad = lit "Annuncio senza titolo")
    /\ (x_location e = [] ->
        location ad = lit "Localit" ++ [224] ++ lit " non specificata")
    /\ (x_description e = [] -> description ad = lit "Descrizione non disponibile")
    /\ (x_descriptionSummary e = [] ->
        descriptionSummary ad = slice0 200 (x_description e) ++ lit "...")
    /\ (x_adAge e = [] -> adAge ad = lit "non specificato")
    /\ (x_title e <> [] -> title ad = x_title e)
    /\ (x_location e <> [] -> location ad = x_location e)
    /\ (x_description e <> [] -> description ad = x_description e)
    /\ (x_descriptionSummary e <> [] ->
        descriptionSummary ad = x_descriptionSummary e)
    /\ (x_adAge e <> [] -> adAge ad = x_adAge e).
Proof.
  intros p Hrun. subst p.
  destruct (scrapeIdealistaAd_returns env u x x' ad Hrun)
    as (failing & w & rest & page & msgs & e & rest' & Hweb & Hfail & Hpage
        & Hmodel & -> & _).
  exists failing, w, rest, page, msgs, e, rest'.
  cbn [title location description descriptionSummary adAge price size rooms bathrooms].
  split; [auto|].
  split; [repeat split; apply or_str_filled; discriminate|].
  split; [repeat split|].
  split; [intros ->; reflexivity|]. split; [intros ->; reflexivity|].
  split; [intros ->; reflexivity|].
  split.
  { intros ->. rewrite or_str_empty. apply or_str_kept.
    intros Hnil. apply app_eq_nil in Hnil as [_ Hnil]. discriminate. }
  split; [intros ->; reflexivity|].
  split; [apply or_str_kept|]. split; [apply or_str_kept|].
  split; [apply or_str_kept|].
  split; [|apply or_str_kept].
  intros Hne. rewrite (or_str_kept (x_descriptionSummary e)) by exact Hne.
  apply or_str_kept. exact Hne.
Qed.

End Leaves.

(** * Properties of the API routes *)

Section Routes.
Context `{Platform}.
Variable clientError : JsString -> JsString.

Lemma nameRegex_test_true (name : JsString) :
  nameRegex_test name = true
  <-> name <> [] /\ Forall (fun c => isNameChar c = true) name.
Proof.
  unfold nameRegex_test. rewrite andb_true_iff. split.
  - intros [Hne Hall]. split; [destruct name; [discriminate | discriminate]|].
    clear Hne. induction name as [|c name IH]; [constructor|].
    simpl in Hall. apply andb_true_iff in Hall as [Hc Hall].
    apply Forall_cons. split; [exact Hc | exact (IH Hall)].
  - intros [Hne Hall]. split; [destruct name; [congruence | reflexivity]|].
    clear Hne. induction Hall as [|c name Hc _ IH]; [reflexivity|].
    simpl. rewrite Hc, IH. reflexivity.
Qed.

Lemma validName_test (name : JsString) :
  validName name
  <-> negb (nameRegex_test name) || (50 <? length name)%nat = false.
Proof.
  unfold validName. rewrite orb_false_iff, negb_false_iff, nameRegex_test_true.
  rewrite Nat.ltb_ge. split.
  - intros (Hne & Hlen & Hall). auto.
  - intros ((Hne & Hall) & Hlen). auto.
Qed.

Lemma nonEmptyString_Some (v : Field) (s : JsString) :
  nonEmptyString v = Some s <-> v = Str s /\ s <> [].
Proof.
  destruct v as [| |[|c t]]; simpl; split;
    try discriminate; try (intros [[=] _]; fail).
  - intros [[= <-] Hne]. congruence.
  - intros [= <-]. split; [reflexivity | discriminate].
  - intros [[= <-] _]. reflexivity.
Qed.

(** The objects after a call through the client: the one called holds
    the store the handler left, the others are untouched. *)
Lemma objectClient_objects {A} (objs : Objects) (key : JsString) (h : M A) (k : JsString) :
  snd (fst (objectClient clientError objs key h)) k
  = if bool_decide (k = key) then after h (objs key) else objs k.
Proof. reflexivity. Qed.

Lemma awaited_objects {A} (call : Settled A * Objects * list Call) done onError :
  objectsOf (awaited call done onError) = snd (fst call).
Proof. destruct call as [[settled objs] cs]. reflexivity. Qed.

Lemma awaited_calls {A} (call : Settled A * Objects * list Call) done onError :
  callsOf (awaited call done onError) = snd call.
Proof. destruct call as [[settled objs] cs]. reflexivity. Qed.

Lemma awaited_response {A} (call : Settled A * Objects * list Call) done onError :
  responseOf (awaited call done onError)
  = match fst (fst call) with
    | Fulfilled a => done a
    | Refused errorMessage => onError errorMessage
    | Unsettled => None
    end.
Proof. destruct call as [[settled objs] cs]. reflexivity. Qed.

Lemma caught_known needle c known failed m :
  keepsMessage clientError ->
  includes needle m = true ->
  caught needle c known failed (clientError m) = respond c (PError known None).
Proof. intros Hkeeps Hin. unfold caught. rewrite (Hkeeps _ _ Hin). reflexivity. Qed.

Lemma caught_part needle c known failed m :
  keepsPart clientError needle ->
  includes needle m = true ->
  caught needle c known failed (clientError m) = respond c (PError known None).
Proof. intros Hkeeps Hin. unfold caught. rewrite (Hkeeps _ Hin). reflexivity. Qed.

(** POST /api/research answers 400, without calling the object, unless
    the body holds a name of one to fifty letters, digits and hyphens
    and a non-empty criteria string; with such a body it never answers
    400. *)
Theorem POST_research_validates (env : Env) (b : ResearchBody) (objs : Objects) :
  let r := POST_research clientError env (inr b) objs in
  let wellFormed :=
    exists name c, b_name b = Str name /\ validName name
                   /\ b_criteria b = Str c /\ c <> [] in
  (wellFormed -> forall p, responseOf r <> respond 400 p)
  /\ (~ wellFormed ->
      (exists p, responseOf r = respond 400 p)
      /\ objectsOf r = objs /\ callsOf r = []).
Proof.
  intros r wellFormed. subst r wellFormed. unfold POST_research.
  destruct (nonEmptyString (b_name b)) as [name|] eqn:Hname.
  2:{ split; [|intros _; split; [eexists; reflexivity | split; reflexivity]].
      intros (name & c & Hn & (Hne & _) & _).
      assert (nonEmptyString (b_name b) = Some name)
        by (apply nonEmptyString_Some; auto). congruence. }
  apply nonEmptyString_Some in Hname as [Hname Hne].
  destruct (nonEmptyString (b_criteria b)) as [c|] eqn:Hcrit.
  2:{ split; [|intros _; split; [eexists; reflexivity | split; reflexivity]].
      intros (name' & c & _ & _ & Hc & Hcne).
      assert (nonEmptyString (b_criteria b) = Some c)
        by (apply nonEmptyString_Some; auto). congruence. }
  apply nonEmptyString_Some in Hcrit as [Hcrit Hcne].
  destruct (negb (nameRegex_test name) || (50 <? length name)%nat) eqn:Htest.
  - split; [|intros _; split; [eexists; reflexivity | split; reflexivity]].
    intros (name' & c' & Hn & Hvalid & _). rewrite Hname in Hn. injection Hn as <-.
    apply validName_test in Hvalid. congruence.
  - split.
    + intros _ p. rewrite awaited_response. cbn [objectClient fst snd].
      destruct (fst (invoke (createResearch env c) (objs name))) as [[]|[m|m]|];
        unfold caught; try destruct (includes _ _); discriminate.
    + intros Hnot. destruct Hnot. exists name, c.
      apply validName_test in Htest. auto.
Qed.

(** Creating the same project twice through the route: the first
    request answers 201 and the object holds the criteria; every later
    well-formed request for that name answers 409 and changes nothing,
    as long as the client keeps the handler's message. *)
Theorem POST_research_twice (env env' : Env) (name c c' : JsString) (objs : Objects) :
  keepsMessage clientError ->
  validName name -> c <> [] -> c' <> [] ->
  truthy_opt (criteria (objs name)) = false ->
  let first :=
    POST_research clientError env
      (inr {| b_name := Str name; b_criteria := Str c |}) objs in
  let second :=
    POST_research clientError env'
      (inr {| b_name := Str name; b_criteria := Str c' |}) (objectsOf first) in
  responseOf first
  = respond 201 (PMessage (lit "Research created successfully") (Some name))
  /\ criteria (objectsOf first name) = Some c
  /\ responseOf second
     = respond 409 (PError (lit "Research with this name already exists") None)
  /\ forall k, objectsOf second k = objectsOf first k.
Proof.
  intros Hkeeps Hvalid Hc Hc' Hunset first second.
  assert (Hfirst : first
            = (respond 201 (PMessage (lit "Research created successfully") (Some name)),
               fun k => if bool_decide (k = name)
                        then {| criteria := Some c; ads := Some [];
                                questions := Some [];
                                createdAt := Some (now env 0%nat) |}
                        else objs k,
               [])).
  { subst first. unfold POST_research. cbn [b_name b_criteria].
    destruct name as [|x name]; [destruct Hvalid as [Hne _]; congruence|].
    destruct c as [|y c]; [congruence|]. cbn [nonEmptyString].
    apply validName_test in Hvalid. rewrite Hvalid.
    unfold awaited, objectClient.
    rewrite createResearch_fresh by exact Hunset. reflexivity. }
  assert (Hstored : objectsOf first name
            = {| criteria := Some c; ads := Some []; questions := Some [];
                 createdAt := Some (now env 0%nat) |}).
  { rewrite Hfirst. unfold objectsOf. cbn [fst snd].
    rewrite bool_decide_eq_true_2 by reflexivity. reflexivity. }
  split; [rewrite Hfirst; reflexivity|].
  split; [rewrite Hstored; reflexivity|].
  subst second. unfold POST_research. cbn [b_name b_criteria].
  destruct name as [|x name]; [destruct Hvalid as [Hne _]; congruence|].
  destruct c' as [|y c']; [congruence|]. cbn [nonEmptyString].
  apply validName_test in Hvalid. rewrite Hvalid.
  unfold awaited, objectClient.
  rewrite createResearch_exists
    by (rewrite Hstored; destruct c; [congruence | reflexivity]).
  cbn [fst snd store calls]. unfold responseOf, objectsOf. cbn [fst snd].
  split.
  - apply caught_known; [exact Hkeeps | reflexivity].
  - intros k. case_bool_decide; [subst k|]; reflexivity.
Qed.

Lemma pointwise_after {A} (objs : Objects) (key : JsString) (h : M A) :
  after h (objs key) = objs key ->
  forall k, (if bool_decide (k = key) then after h (objs key) else objs k) = objs k.
Proof. intros Hsame k. case_bool_decide; [subst k; exact Hsame | reflexivity]. Qed.

(** PATCH .../status: a body whose status is not one of the five enum
    strings gets 400 with the list of the valid ones, and the object is
    not called.  With a valid status, an id that no ad of the project
    has changes nothing and is never answered 200; it is answered 404
    when the message of the client's error still contains "not found",
    which the handler's message does.  The id of an ad gets 200 and the
    status of the first ad with that id is set. *)
Theorem PATCH_status_outcomes (researchName adId : JsString) (v : Field) (objs : Objects) :
  let r := PATCH_status clientError researchName adId (inr v) objs in
  let l := adsOf (objs researchName) in
  ((forall st, v <> Str (AdStatus_str st)) ->
   responseOf r
   = respond 400 (PInvalidStatus (lit "Invalid status value")
                    [lit "to reach out"; lit "visit appointment taken";
                     lit "sent the offer"; lit "bought"; lit "rejected"])
   /\ objectsOf r = objs /\ callsOf r = [])
  /\ (forall st, v = Str (AdStatus_str st) ->
      ((forall ad, ad ∈ l -> id ad <> adId) ->
       (keepsPart clientError (lit "not found") ->
        responseOf r
        = respond 404 (PError (lit "Property ad not found in this research") None))
       /\ (forall p, responseOf r <> respond 200 p)
       /\ forall k, objectsOf r k = objs k)
      /\ (forall i ad, first_with_id adId l i ad ->
          responseOf r
          = respond 200 (PMessage (lit "Status updated successfully") None)
          /\ adsOf (objectsOf r researchName) = alter (with_status st) i l)).
Proof.
  intros r l. subst r l. unfold PATCH_status. split.
  - intros Hout.
    assert (Hparse : match v with Str v' => AdStatusSchema_safeParse v' | _ => None end
                     = None).
    { destruct v as [| |v']; try reflexivity.
      apply safeParse_outside. intros st Hst. apply (Hout st). congruence. }
    rewrite Hparse. split; [|split]; reflexivity.
  - intros st ->. rewrite safeParse_complete. split.
    + intros Hno. rewrite awaited_response, awaited_objects.
      unfold objectClient. cbn [fst snd].
      rewrite updateAdStatus_unknown by exact Hno. cbn [fst snd store].
      split; [intros Hkeeps; apply caught_part; [exact Hkeeps | reflexivity]|].
      split.
      * intros p. unfold AdNotFound, caught, respond. cbv beta iota.
        match goal with |- context [if ?b then _ else _] => destruct b end;
          discriminate.
      * intros k. case_bool_decide; [subst k|]; reflexivity.
    + intros i ad Hfirst. rewrite awaited_response, awaited_objects.
      unfold objectClient. cbn [fst snd].
      rewrite (updateAdStatus_known _ _ _ _ _ Hfirst). cbn [fst snd store].
      split; [reflexivity|].
      rewrite bool_decide_eq_true_2 by reflexivity. reflexivity.
Qed.

(** PATCH .../notes: any string is accepted as notes, the empty one
    included, and anything else gets 400 without a call.  An id that
    no ad of the project has changes nothing and is never answered
    200; it is answered 404 when the message of the client's error
    still contains "not found".  The id of an ad gets 200 and the notes
    of the first ad with that id are set. *)
Theorem PATCH_notes_outcomes (researchName adId : JsString) (v : Field) (objs : Objects) :
  let r := PATCH_notes clientError researchName adId (inr v) objs in
  let l := adsOf (objs researchName) in
  ((forall n, v <> Str n) ->
   responseOf r = respond 400 (PError (lit "Notes must be a string") None)
   /\ objectsOf r = objs /\ callsOf r = [])
  /\ (forall n, v = Str n ->
      ((forall ad, ad ∈ l -> id ad <> adId) ->
       (keepsPart clientError (lit "not found") ->
        responseOf r
        = respond 404 (PError (lit "Property ad not found in this research") None))
       /\ (forall p, responseOf r <> respond 200 p)
       /\ forall k, objectsOf r k = objs k)
      /\ (forall i ad, first_with_id adId l i ad ->
          responseOf r
          = respond 200 (PMessage (lit "Notes updated successfully") None)
          /\ adsOf (objectsOf r researchName) = alter (with_notes n) i l)).
Proof.
  intros r l. subst r l. unfold PATCH_notes. split.
  - intros Hout. destruct v as [| |n]; [split; [|split]; reflexivity..|].
    destruct (Hout n eq_refl).
  - intros n ->. split.
    + intros Hno. rewrite awaited_response, awaited_objects.
      unfold objectClient. cbn [fst snd].
      rewrite updateAdNotes_unknown by exact Hno. cbn [fst snd store].
      split; [intros Hkeeps; apply caught_part; [exact Hkeeps | reflexivity]|].
      split.
      * intros p. unfold AdNotFound, caught, respond. cbv beta iota.
        match goal with |- context [if ?b then _ else _] => destruct b end;
          discriminate.
      * intros k. case_bool_decide; [subst k|]; reflexivity.
    + intros i ad Hfirst. rewrite awaited_response, awaited_objects.
      unfold objectClient. cbn [fst snd].
      rewrite (updateAdNotes_known _ _ _ _ _ Hfirst). cbn [fst snd store].
      split; [reflexivity|].
      rewrite bool_decide_eq_true_2 by reflexivity. reflexivity.
Qed.

(** The handlers behind GET /api/ads and GET /api/questions never fail,
    so for every name, created or not, a request that reaches the
    object is answered 200 with the stored list, or the empty list:
    no state of the object leads to the 404 of these routes.  They
    change no object and call nothing outside. *)
Theorem GET_lists_always_answer (researchName : JsString) (objs : Objects) :
  let r := GET_ads clientError researchName objs in
  let r' := GET_questions clientError researchName objs in
  responseOf r = respond 200 (PAds (adsOf (objs researchName)))
  /\ responseOf r' = respond 200 (PQuestions (questionsOf (objs researchName)))
  /\ (forall k, objectsOf r k = objs k) /\ (forall k, objectsOf r' k = objs k)
  /\ callsOf r = [] /\ callsOf r' = [].
Proof.
  intros r r'. subst r r'. unfold GET_ads, GET_questions.
  rewrite !awaited_response, !awaited_objects, !awaited_calls.
  split; [reflexivity|]. split; [reflexivity|].
  split; [intros k; apply pointwise_after; reflexivity|].
  split; [intros k; apply pointwise_after; reflexivity|].
  split; reflexivity.
Qed.

(** GET /api/research/:name answers 200 with the criteria when the
    project has a non-empty criteria.  Otherwise, also for a project
    created with an empty criteria, it never answers 200, and it
    answers 404 when the message of the client's error still contains
    "not found".  It changes no object and calls nothing outside. *)
Theorem GET_research_outcomes (name : JsString) (objs : Objects) :
  let r := GET_research clientError name objs in
  (forall c, criteria (objs name) = Some c -> c <> [] ->
     responseOf r = respond 200 (PResearch name c))
  /\ (truthy_opt (criteria (objs name)) = false ->
      (keepsPart clientError (lit "not found") ->
       responseOf r = respond 404 (PError (lit "Research not found") None))
      /\ forall p, responseOf r <> respond 200 p)
  /\ (forall k, objectsOf r k = objs k)
  /\ callsOf r = [].
Proof.
  intros r. subst r. unfold GET_research.
  rewrite awaited_response, awaited_objects, awaited_calls.
  unfold objectClient, invoke, getCriteria, bind, ctx_get_criteria, read_store, after.
  cbn [fst snd store]. split; [|split; [|split]].
  - intros c Hc Hne. rewrite Hc. destruct c; [congruence | reflexivity].
  - intros Hunset. rewrite Hunset. cbn [negb fst throw]. split.
    + intros Hkeeps. apply caught_part; [exact Hkeeps | reflexivity].
    + intros p. unfold caught, respond. cbv beta iota.
      match goal with |- context [if ?b then _ else _] => destruct b end;
          discriminate.
  - intros k. case_bool_decide; [subst k|]; [|reflexivity].
    destruct (negb (truthy_opt (criteria (objs name)))); reflexivity.
  - destruct (negb (truthy_opt (criteria (objs name)))); reflexivity.
Qed.

(** A capped step whose attempts all fail with ordinary errors of some
    kind gives up with a terminal error of that kind. *)
Lemma ctx_run_gives_up_with {A} (P : JsString -> Prop) (n : nat)
    (attempts : list (list Call * (Exn + A))) :
  Forall (fun att => exists m, snd att = inl (Error m) /\ P m) attempts ->
  (1 <= n <= length attempts)%nat ->
  exists m, P m /\ fst (ctx_run (Some n) attempts) = Throw (TerminalError m).
Proof.
  intros Hall. revert n.
  induction Hall as [|[cs r] rest (m & Hm & HP) _ IH]; intros n [Hn Hlen]; simpl in *.
  { lia. }
  subst r. destruct (n <=? 1)%nat eqn:En.
  - exists m. split; [exact HP | reflexivity].
  - apply Nat.leb_gt in En. destruct (IH (n - 1)%nat) as (m' & HP' & Hrun); [lia|].
    exists m'. split; [exact HP'|].
    destruct (ctx_run (Some (n - 1)%nat) rest). exact Hrun.
Qed.

(** [addAd] on an idealista URL fetched by the browser, when the page
    answers 404 at each of ten attempts: the terminal error it fails
    with carries the browser's "Ad not found (404)" message. *)
Lemma addAd_idealista_gone (env : Env) (u host : JsString) (s : Store) :
  hostname u = Some host ->
  includes (lit "idealista.it") host = true ->
  chosenProvider (processEnv env) = Puppeteer ->
  (forall w, w ∈ web env -> statusMet Puppeteer w = Some 404) ->
  (10 <= length (web env))%nat ->
  exists m,
    includes (lit "not found") m = true
    /\ invoke (addAd env u) s
       = (Throw (TerminalError m),
          {| store := s; calls := replicate 10 (CallProvider Puppeteer u);
             randDraws := 0; clockReads := 0 |}).
Proof.
  intros Hhost Hsite Hbrowser H404 Hlen.
  assert (H404' : forall w, w ∈ web env ->
            statusMet (chosenProvider (processEnv env)) w = Some 404)
    by (rewrite Hbrowser; exact H404).
  destruct (addAd_idealista_404 env u s host Hhost Hsite H404' Hlen) as (m & Hrun).
  exists m. rewrite Hbrowser in Hrun. split; [|exact Hrun].
  destruct (ctx_run_gives_up_with (fun m => includes (lit "not found") m = true) 10
              (map (fun w => fetchWithBrowser (processEnv env) w u) (web env)))
    as (m' & Hm' & Hstep).
  { apply Forall_forall. intros att Hatt.
    apply list_elem_of_fmap in Hatt as (w & -> & Hw).
    rewrite fetchWithBrowser_chosen, Hbrowser. cbn [snd askProvider].
    specialize (H404 w Hw). unfold statusMet in H404. unfold fetchWithPuppeteer.
    destruct (browser w) as [?|?| |st headers content]; cbn in H404;
      try discriminate.
    injection H404 as ->. cbn [N.eqb Pos.eqb]. eexists. split; [reflexivity|].
    apply (includes_app_l _ (lit "Ad not found (404): ")). reflexivity. }
  { rewrite length_map. lia. }
  assert (Hfst : fst (invoke (addAd env u) s) = Throw (TerminalError m')).
  { unfold invoke, addAd, scrapeIdealistaAd. rewrite Hhost, Hsite. cbn [negb].
    unfold bind, fetch_html, step, DURABLE_FETCH_RETRY_CONFIG.
    destruct (ctx_run (Some 10%nat) _) as [o cs]. cbn [fst] in Hstep. subst o.
    reflexivity. }
  rewrite Hrun in Hfst. injection Hfst as ->. exact Hm'.
Qed.

(** POST /api/ads answers 400, without calling the object or any
    provider, unless the body holds a URL that parses and whose host is
    one of the two sites; with such a URL it never answers 400, and a
    201 carries the ad that is now the last one of the project. *)
Theorem POST_ads_validates (env : Env) (researchName : JsString) (v : Field)
    (objs : Objects) :
  let r := POST_ads clientError env researchName (inr v) objs in
  let supported :=
    exists u host, v = Str u /\ u <> [] /\ hostname u = Some host
                   /\ (includes (lit "idealista.it") host = true
                       \/ includes (lit "immobiliare.it") host = true) in
  (~ supported ->
   (exists p, responseOf r = respond 400 p) /\ objectsOf r = objs /\ callsOf r = [])
  /\ (supported ->
      (forall p, responseOf r <> respond 400 p)
      /\ forall ad, responseOf r = respond 201 (PAd ad) ->
                    adsOf (objectsOf r researchName)
                    = adsOf (objs researchName) ++ [ad]).
Proof.
  intros r supported. subst r supported. unfold POST_ads.
  destruct (nonEmptyString v) as [u|] eqn:Hu.
  2:{ split; [intros _; split; [eexists; reflexivity | split; reflexivity]|].
      intros (u & host & Hv & Hne & _).
      assert (nonEmptyString v = Some u) by (apply nonEmptyString_Some; auto).
      congruence. }
  apply nonEmptyString_Some in Hu as [-> Hne].
  destruct (hostname u) as [host|] eqn:Hhost.
  2:{ split; [intros _; split; [eexists; reflexivity | split; reflexivity]|].
      intros (u' & host & [= <-] & _ & Hh & _). congruence. }
  destruct (negb (includes (lit "idealista.it") host)
            && negb (includes (lit "immobiliare.it") host)) eqn:Hsite.
  { split; [intros _; split; [eexists; reflexivity | split; reflexivity]|].
    intros (u' & host' & [= <-] & _ & Hh & Hsup).
    rewrite Hhost in Hh. injection Hh as <-.
    apply andb_true_iff in Hsite as [H1 H2].
    apply negb_true_iff in H1. apply negb_true_iff in H2.
    destruct Hsup; congruence. }
  split.
  { intros Hnot. destruct Hnot. exists u, host.
    apply andb_false_iff in Hsite as [Hs|Hs]; apply negb_false_iff in Hs; auto. }
  intros _. rewrite awaited_response, awaited_objects.
  unfold objectClient. cbn [fst snd].
  rewrite bool_decide_eq_true_2 by reflexivity.
  destruct (addAd_cases env u (objs researchName)) as [(ad & Hok & Hstore)|[Hno Hstore]];
    cbn zeta in *.
  - rewrite Hok, Hstore. split; [discriminate|].
    intros ad' [= <-]. reflexivity.
  - destruct (fst (invoke (addAd env u) (objs researchName))) as [ad|[m|m]|] eqn:Hout.
    + destruct (Hno ad eq_refl).
    + unfold caught, respond.
      split; destruct (includes (lit "not found") (clientError m));
        intros ? ?; discriminate.
    + unfold respond. split; intros ? ?; discriminate.
    + unfold respond. split; intros ? ?; discriminate.
Qed.

(** A listing that is gone reads as a missing project.  The browser is
    the provider and the page answers 404 until the fetch step gives
    up after ten attempts, with a terminal error that carries the
    message of the last failure; the client's error still contains
    "not found" when the handler's message does.  Then POST /api/ads
    answers 404 "Research not found": the catch block looks for "not
    found" in the message and the browser's message is "Ad not found
    (404)".  Nothing is stored. *)
Theorem POST_ads_gone_page (env : Env) (researchName u host : JsString) (objs : Objects) :
  keepsPart clientError (lit "not found") ->
  u <> [] ->
  hostname u = Some host ->
  includes (lit "idealista.it") host = true ->
  chosenProvider (processEnv env) = Puppeteer ->
  (forall w, w ∈ web env -> statusMet Puppeteer w = Some 404) ->
  (10 <= length (web env))%nat ->
  let r := POST_ads clientError env researchName (inr (Str u)) objs in
  responseOf r = respond 404 (PError (lit "Research not found") None)
  /\ (forall k, objectsOf r k = objs k)
  /\ callsOf r = replicate 10 (CallProvider Puppeteer u).
Proof.
  intros Hkeeps Hne Hhost Hsite Hbrowser H404 Hlen r. subst r. unfold POST_ads.
  destruct u as [|c u]; [congruence|]. cbn [nonEmptyString].
  rewrite Hhost, Hsite. cbn [negb andb].
  rewrite awaited_response, awaited_objects, awaited_calls.
  unfold objectClient. cbn [fst snd].
  destruct (addAd_idealista_gone env (c :: u) host (objs researchName)
              Hhost Hsite Hbrowser H404 Hlen) as (m & Hm & ->).
  cbn [fst snd store calls].
  split; [apply caught_part; assumption|].
  split; [|reflexivity].
  intros k. case_bool_decide; [subst k|]; reflexivity.
Qed.

(** POST /api/questions with a question that is not blank, when the
    model answers within its three attempts, answers 200 with the
    question and the answer, and GET /api/questions then returns the
    earlier history followed by that question and answer.  A body
    without a non-blank question string gets 400 and no call. *)
Theorem POST_questions_then_GET (env : Env) (researchName : JsString) (v : Field)
    (objs : Objects) :
  let s := objs researchName in
  let r := POST_questions clientError env researchName (inr v) objs in
  ((forall q, v = Str q -> blank q) ->
   responseOf r
   = respond 400
       (PError (lit "Question is required and must be a non-empty string") None)
   /\ objectsOf r = objs /\ callsOf r = [])
  /\ (forall q msgs a rest,
        v = Str q -> ~ blank q ->
        textModel env (questionPrompt (criteria s) (adsOf s) q)
        = answersAfter msgs a rest ->
        (length msgs < 3)%nat ->
        responseOf r = respond 200 (PAnswer q a)
        /\ exists qa,
            responseOf (GET_questions clientError researchName (objectsOf r))
            = respond 200 (PQuestions (questionsOf s ++ [qa]))
            /\ question qa = q /\ answer qa = a).
Proof.
  intros s r. subst s r. unfold POST_questions. split.
  - intros Hblank. destruct v as [| |[|c q]]; try (split; [|split]; reflexivity).
    cbn [nonEmptyString]. specialize (Hblank _ eq_refl).
    apply trim_nil_iff in Hblank. rewrite Hblank. split; [|split]; reflexivity.
  - intros q msgs a rest -> Hq Hmodel Hfew.
    destruct q as [|c q]; [destruct Hq; constructor|]. cbn [nonEmptyString].
    destruct (length (trim (c :: q)) =? 0)%nat eqn:Htrim.
    { apply Nat.eqb_eq, length_zero_iff_nil, trim_nil_iff in Htrim. contradiction. }
    rewrite awaited_response, awaited_objects. unfold objectClient. cbn [fst snd].
    rewrite (askQuestion_answered env (c :: q) (objs researchName) msgs a rest
               Hq Hmodel Hfew).
    cbn [fst snd store]. split; [reflexivity|].
    eexists. unfold GET_questions. rewrite awaited_response.
    unfold objectClient. cbn [fst snd].
    rewrite bool_decide_eq_true_2 by reflexivity.
    split; [reflexivity|]. split; reflexivity.
Qed.

Lemma awaited_client_other {A} (objs : Objects) (key : JsString) (h : M A)
    done onError (k : JsString) :
  k <> key ->
  objectsOf (awaited (objectClient clientError objs key h) done onError) k = objs k.
Proof.
  intros Hk. rewrite awaited_objects, objectClient_objects.
  rewrite bool_decide_eq_false_2 by exact Hk. reflexivity.
Qed.

(** A request only touches the object it names, in its path or, for
    POST /api/research, in its body: whatever the body and whatever the
    outcome, every route leaves the store of every other key as it
    was. *)
Theorem routes_touch_one_object (env : Env) (name adId : JsString)
    (b : JsString + ResearchBody) (v : JsString + Field) (objs : Objects) (k : JsString) :
  k <> name ->
  ((forall bd, b = inr bd -> b_name bd <> Str k) ->
   objectsOf (POST_research clientError env b objs) k = objs k)
  /\ objectsOf (GET_research clientError name objs) k = objs k
  /\ objectsOf (POST_ads clientError env name v objs) k = objs k
  /\ objectsOf (GET_ads clientError name objs) k = objs k
  /\ objectsOf (PATCH_status clientError name adId v objs) k = objs k
  /\ objectsOf (PATCH_notes clientError name adId v objs) k = objs k
  /\ objectsOf (POST_questions clientError env name v objs) k = objs k
  /\ objectsOf (GET_questions clientError name objs) k = objs k.
Proof.
  intros Hk.
  split.
  { intros Hb. unfold POST_research. destruct b as [m|bd]; [reflexivity|].
    specialize (Hb bd eq_refl).
    destruct (b_name bd) as [| |[|c n]]; try reflexivity. cbn [nonEmptyString].
    destruct (nonEmptyString (b_criteria bd)); [|reflexivity].
    destruct (negb _ || _); [reflexivity|].
    apply awaited_client_other. congruence. }
  split; [apply awaited_client_other; exact Hk|].
  split.
  { unfold POST_ads. destruct v as [m|f]; [reflexivity|].
    destruct (nonEmptyString f); [|reflexivity].
    destruct (hostname _); [|reflexivity].
    destruct (negb _ && negb _); [reflexivity|].
    apply awaited_client_other; exact Hk. }
  split; [apply awaited_client_other; exact Hk|].
  split.
  { unfold PATCH_status. destruct v as [m|f]; [reflexivity|].
    destruct (match f with Str v' => AdStatusSchema_safeParse v' | _ => None end);
      [|reflexivity].
    apply awaited_client_other; exact Hk. }
  split.
  { unfold PATCH_notes. destruct v as [m|f]; [reflexivity|].
    destruct f; try reflexivity. apply awaited_client_other; exact Hk. }
  split; [|apply awaited_client_other; exact Hk].
  unfold POST_questions. destruct v as [m|f]; [reflexivity|].
  destruct (nonEmptyString f); [|reflexivity].
  destruct (length _ =? 0)%nat; [reflexivity|].
  apply awaited_client_other; exact Hk.
Qed.

End Routes.

(** * The prompt and the client *)

Section Prompt.
Context `{Platform}.

(** What the prompt of [askQuestion] carries, verbatim: the question,
    the criteria ("null" when none is stored), and for every stored ad
    its title, location, summary, renovation status, status, notes ("No
    notes" when there are none or they are empty) and URL. *)
Theorem prompt_carries_the_project (c : option JsString) (l : list PropertyAd)
    (q : JsString) :
  let prompt := questionPrompt c l q in
  includes q prompt = true
  /\ includes (default (lit "null") c) prompt = true
  /\ forall i ad, l !! i = Some ad ->
       includes (title ad) prompt = true
       /\ includes (location ad) prompt = true
       /\ includes (descriptionSummary ad) prompt = true
       /\ includes (RenovationStatus_str (renovationStatus ad)) prompt = true
       /\ includes (AdStatus_str (status ad)) prompt = true
       /\ includes (or_opt (notes ad) (lit "No notes")) prompt = true
       /\ includes (url ad) prompt = true.
Proof.
  intros prompt. subst prompt. unfold questionPrompt.
  split; [find_part|]. split; [find_part|].
  intros i ad Hi.
  assert (Hin : forall x, includes x (adContext i ad) = true ->
                          includes x (adsContext l) = true).
  { intros x Hx. unfold adsContext.
    apply (includes_join _ _ _ (adContext i ad)); [|exact Hx].
    apply elem_of_lookup_imap_2. exact Hi. }
  assert (Hprompt : forall x, includes x (adContext i ad) = true ->
            includes x
              (lit "Sei un assistente di analisi immobiliare utile e competente."
               ++ nl ++ nl ++ lit "Criteri di ricerca: " ++ default (lit "null") c
               ++ nl ++ nl ++ lit "Immobili nella ricerca:" ++ nl
               ++ adsContext l ++ nl ++ nl ++ lit "Domanda dell'utente: " ++ q
               ++ nl ++ nl
               ++ lit "Fornisci una risposta dettagliata e utile analizzando gli immobili in base alla domanda. Considera prezzi, posizioni, dimensioni, necessit"
               ++ [224]
               ++ lit " di ristrutturazione e le note dell'utente quando rilevanti. Rispondi sempre in italiano.")
            = true).
  { intros x Hx. do 9 apply includes_app_r. apply includes_app_l. exact (Hin x Hx). }
  repeat split; apply Hprompt; unfold adContext; find_part.
Qed.

End Prompt.

Section Client.

Lemma getRestateClient_times_set (n : nat) (e : ClientEnv) (m : ClientModule)
    (client : IngressClient) :
  restateClient m = Some client ->
  getRestateClient_times n e m = (replicate n client, m).
Proof.
  intros Hset. induction n as [|n IH]; [reflexivity|].
  simpl. unfold getRestateClient. rewrite Hset. rewrite IH. reflexivity.
Qed.

(** The client is a singleton: however often [getRestateClient] is
    called after the module was loaded, [clients.connect] is called
    once, at the first call, and every call returns that client.  It is
    connected to [RESTATE_URL], or to localhost:8080 when that is unset
    or empty, and carries a bearer token exactly when
    [RESTATE_CLOUD_TOKEN] is set and not empty. *)
Theorem restate_client_is_created_once (n : nat) (e : ClientEnv) :
  let client := fst (getRestateClient e freshModule) in
  fst (getRestateClient_times (S n) e freshModule) = replicate (S n) client
  /\ connects (snd (getRestateClient_times (S n) e freshModule)) = 1%nat
  /\ ingress_url client
     = match RESTATE_URL_var e with
       | Some (c :: u) => c :: u
       | _ => lit "http://localhost:8080"
       end
  /\ ingress_headers client
     = match RESTATE_CLOUD_TOKEN_var e with
       | Some (c :: t) => [(lit "Authorization", lit "Bearer " ++ c :: t)]
       | _ => []
       end.
Proof.
  intros client. subst client.
  cbn [getRestateClient_times getRestateClient freshModule restateClient fst].
  erewrite getRestateClient_times_set by reflexivity. cbn [fst snd connects].
  split; [reflexivity|]. split; [reflexivity|].
  cbn [ingress_url ingress_headers]. unfold RESTATE_URL.
  split.
  - destruct (RESTATE_URL_var e) as [[|c u]|]; reflexivity.
  - destruct (RESTATE_CLOUD_TOKEN_var e) as [[|c t]|]; reflexivity.
Qed.

End Client.

(** * The further properties on concrete projects *)

Section MoreExamples.
#[local] Existing Instance samplePlatform.

Lemma sampleClientError_keeps : keepsMessage sampleClientError.
Proof. intros needle m Hin. apply includes_app_r. exact Hin. Qed.

Lemma sampleClientError_keeps_part (needle : JsString) :
  keepsPart sampleClientError needle.
Proof. intros m Hin. apply includes_app_r. exact Hin. Qed.

Lemma web_replicate_404 (n : nat) (w : Web) :
  w ∈ replicate n page404 -> statusMet Puppeteer w = Some 404.
Proof. intros Hw. apply elem_of_replicate in Hw as [-> _]. reflexivity. Qed.

Lemma milan_second_ad :
  first_with_id (lit "ad-2") (adsOf milanStore) 1 (sampleAd (lit "ad-2")).
Proof.
  split; [reflexivity|]. split; [reflexivity|].
  intros j ad' Hj Hat. assert (j = 0%nat) as -> by lia.
  injection Hat as <-. discriminate.
Qed.

Lemma milan_no_third_ad (ad : PropertyAd) :
  ad ∈ adsOf milanStore -> id ad <> lit "ad-3".
Proof.
  intros Had. unfold adsOf in Had. simpl in Had.
  apply elem_of_cons in Had as [->|Had]; [discriminate|].
  apply elem_of_cons in Had as [->|Had]; [discriminate|].
  inversion Had.
Qed.

Lemma addAd_appends_one_witness :
  exists ad,
    fst (invoke (addAd sampleEnv idealistaUrl) milanStore) = Ok ad
    /\ fst (invoke getAds (after (addAd sampleEnv idealistaUrl) milanStore))
       = Ok (adsOf milanStore ++ [ad]).
Proof.
  eexists. split; [vm_compute; reflexivity|].
  refine (proj1 (proj2 (addAd_appends_one sampleEnv idealistaUrl milanStore _ _))).
  vm_compute. reflexivity.
Defined.

Lemma addAd_refuses_before_fetching_witness :
  calls (snd (invoke (addAd sampleEnv otherUrl) milanStore)) = [].
Proof.
  destruct (addAd_refuses_before_fetching sampleEnv otherUrl milanStore) as [_ Hexec].
  - intros host Hhost. vm_compute in Hhost. injection Hhost as <-.
    split; reflexivity.
  - rewrite Hexec. reflexivity.
Defined.

Lemma addAd_idealista_calls_witness :
  exists k j html,
    calls (snd (invoke (addAd notFoundEnv idealistaUrl) emptyStore))
    = replicate k (CallProvider Puppeteer idealistaUrl)
      ++ replicate j (CallGenerateObject Idealista html)
    /\ (k <= 10)%nat.
Proof.
  destruct (addAd_idealista_calls notFoundEnv idealistaUrl (lit "www.idealista.it")
              emptyStore eq_refl eq_refl) as (k & j & html & Hcalls & Hk & _).
  exists k, j, html. split; [exact Hcalls | exact Hk].
Defined.

Lemma addAd_immobiliare_calls_witness :
  exists k j html,
    calls (snd (invoke (addAd sampleEnv immobiliareUrl) emptyStore))
    = replicate k (CallProvider Puppeteer immobiliareUrl)
      ++ replicate j (CallGenerateObject Immobiliare html)
    /\ (j <= 3)%nat.
Proof.
  destruct (addAd_immobiliare_calls sampleEnv immobiliareUrl (lit "www.immobiliare.it")
              emptyStore eq_refl eq_refl eq_refl) as (k & j & html & Hcalls & _ & Hj & _).
  exists k, j, html. split; [exact Hcalls | exact Hj].
Defined.

Lemma quiet_handlers_witness :
  calls (snd (invoke (handle sampleEnv (UpdateAdNotes (lit "ad-1") (lit "call")))
                milanStore)) = [].
Proof.
  apply (quiet_handlers sampleEnv (UpdateAdNotes (lit "ad-1") (lit "call")) milanStore);
    intros; discriminate.
Defined.


Lemma create_then_read_witness :
  fst (invoke getCriteria
         (after (createResearch sampleEnv (lit "2 bed Milan")) emptyStore))
  = Ok (lit "2 bed Milan").
Proof.
  apply (create_then_read sampleEnv (lit "2 bed Milan") emptyStore);
    [reflexivity | discriminate].
Defined.

Lemma existing_project_frame_witness :
  criteria (store (snd (invoke (handle sampleEnv (AddAd idealistaUrl)) milanStore)))
  = criteria milanStore.
Proof.
  apply (existing_project_frame sampleEnv (AddAd idealistaUrl) milanStore).
  reflexivity.
Defined.

Lemma flaky_first_fail :
  Forall (fun w' => forall pg,
            askProvider (chosenProvider (processEnv flakyEnv)) w' idealistaUrl <> inr pg)
    [page503; page503].
Proof. repeat constructor; intros pg; discriminate. Qed.

Lemma addAd_idealista_recovers_witness :
  exists ad,
    fst (invoke (addAd flakyEnv idealistaUrl) emptyStore) = Ok ad
    /\ adsOf (after (addAd flakyEnv idealistaUrl) emptyStore) = [ad]
    /\ calls (snd (invoke (addAd flakyEnv idealistaUrl) emptyStore))
       = replicate 3 (CallProvider Puppeteer idealistaUrl)
         ++ replicate 2 (CallGenerateObject Idealista (lit "<main>ad</main>")).
Proof.
  apply (addAd_idealista_recovers flakyEnv idealistaUrl (lit "www.idealista.it")
           emptyStore [page503; page503] pageOk [] (lit "<main>ad</main>")
           [lit "rate limited"] sampleExtraction []);
    try reflexivity; try (simpl; lia).
  exact flaky_first_fail.
Defined.

Lemma addAd_immobiliare_recovers_witness :
  exists ad,
    fst (invoke (addAd flakyEnv immobiliareUrl) emptyStore) = Ok ad
    /\ adsOf (after (addAd flakyEnv immobiliareUrl) emptyStore) = [ad]
    /\ calls (snd (invoke (addAd flakyEnv immobiliareUrl) emptyStore))
       = replicate 3 (CallProvider Puppeteer immobiliareUrl)
         ++ replicate 2 (CallGenerateObject Immobiliare (lit "<main>ad</main>")).
Proof.
  apply (addAd_immobiliare_recovers flakyEnv immobiliareUrl (lit "www.immobiliare.it")
           emptyStore [page503; page503] pageOk [] (lit "<main>ad</main>")
           [lit "rate limited"] sampleExtraction []);
    try reflexivity; try (simpl; lia).
  repeat constructor; intros pg; discriminate.
Defined.

Lemma AdStatus_round_trip_witness :
  AdStatus_str Bought = lit "bought".
Proof.
  destruct AdStatus_round_trip as (_ & Hsound & _).
  apply Hsound. reflexivity.
Defined.

Lemma providers_return_page_only_if_witness :
  (exists st, browser pageOk = GotoResponse st (lit "{}") (lit "<main>ad</main>")
              /\ (st = 200 \/ st = 304))
  /\ exists m, fetchWithPuppeteer page404 idealistaUrl = inl (Error m)
               /\ startsWith (lit "Ad not found (404): " ++ idealistaUrl) m = true.
Proof.
  destruct (providers_return_page_only_if pageOk idealistaUrl [] (FetchRejects []))
    as (Hpage & _).
  destruct (providers_return_page_only_if page404 idealistaUrl [] (FetchRejects []))
    as (_ & _ & Hbad & _).
  split.
  - destruct (Hpage (lit "<main>ad</main>") eq_refl) as (st & headers & Hw & Hst).
    exists st. split; [|exact Hst].
    injection Hw as <- <-. reflexivity.
  - destruct (Hbad 404 _ _ eq_refl) as (m & Hm & Hstart); try discriminate.
    exists m. split; [exact Hm | apply Hstart; reflexivity].
Defined.

Lemma scrapers_return_fresh_ad_witness :
  exists ad,
    fst (invoke (scrapeImmobiliareAd sampleEnv immobiliareUrl) emptyStore) = Ok ad
    /\ status ad = ToReachOut /\ notes ad = None
    /\ features ad = x_features sampleExtraction.
Proof.
  destruct (invoke (scrapeImmobiliareAd sampleEnv immobiliareUrl) emptyStore)
    as [[ad|e|] x'] eqn:Hrun; try (vm_compute in Hrun; discriminate).
  destruct (scrapers_return_fresh_ad sampleEnv immobiliareUrl _ x' ad Immobiliare Hrun)
    as (_ & Hstatus & Hnotes & _ & _ & _ & Hmodel & _).
  destruct Hmodel as (failing & w & rest & page & msgs & e & rest' & _ & _ & _
                      & Hanswers & Hfeatures & _).
  exists ad. split; [reflexivity|]. split; [exact Hstatus|]. split; [exact Hnotes|].
  rewrite Hfeatures. f_equal.
  destruct msgs as [|m msgs]; [|discriminate]. injection Hanswers as <- _. reflexivity.
Defined.

Lemma scrapeIdealistaAd_fills_placeholders_witness :
  exists ad,
    fst (invoke (scrapeIdealistaAd blankModelEnv idealistaUrl) emptyStore) = Ok ad
    /\ title ad = lit "Annuncio senza titolo".
Proof.
  destruct (invoke (scrapeIdealistaAd blankModelEnv idealistaUrl) emptyStore)
    as [[ad|e|] x'] eqn:Hrun; try (vm_compute in Hrun; discriminate).
  destruct (scrapeIdealistaAd_fills_placeholders blankModelEnv idealistaUrl _ x' ad Hrun)
    as (failing & w & rest & page & msgs & e & rest' & (_ & _ & _ & Hanswers) & _ & _
        & Htitle & _).
  exists ad. split; [reflexivity|]. apply Htitle.
  destruct msgs as [|m msgs]; [|discriminate]. injection Hanswers as <- _. reflexivity.
Defined.

Lemma POST_research_validates_witness :
  exists p,
    responseOf (POST_research sampleClientError sampleEnv
                  (inr {| b_name := Str (lit "milan apts"); b_criteria := Str (lit "x") |})
                  noObjects)
    = respond 400 p.
Proof.
  apply (POST_research_validates sampleClientError sampleEnv
           {| b_name := Str (lit "milan apts"); b_criteria := Str (lit "x") |} noObjects).
  intros (name & c & [= <-] & (_ & _ & Hchars) & _).
  apply Forall_forall with (x := 32) in Hchars; [discriminate|].
  repeat (first [left; reflexivity | right]).
Defined.

Lemma POST_research_twice_witness :
  responseOf
    (POST_research sampleClientError sampleEnv
       (inr {| b_name := Str (lit "milan-apts"); b_criteria := Str (lit "anything") |})
       (objectsOf (POST_research sampleClientError sampleEnv (inr milanBody) noObjects)))
  = respond 409 (PError (lit "Research with this name already exists") None).
Proof.
  apply (POST_research_twice sampleClientError sampleEnv sampleEnv (lit "milan-apts")
           (lit "2 bed Milan under 300k") (lit "anything") noObjects);
    try discriminate; try reflexivity.
  - exact sampleClientError_keeps.
  - split; [discriminate|]. split; [simpl; lia|].
    repeat constructor.
Defined.

Lemma PATCH_status_outcomes_witness :
  responseOf (PATCH_status sampleClientError (lit "milan-apts") (lit "ad-2")
                (inr (Str (lit "bought"))) milanObjects)
  = respond 200 (PMessage (lit "Status updated successfully") None)
  /\ responseOf (PATCH_status sampleClientError (lit "milan-apts") (lit "ad-3")
                   (inr (Str (lit "bought"))) milanObjects)
     = respond 404 (PError (lit "Property ad not found in this research") None).
Proof.
  destruct (PATCH_status_outcomes sampleClientError (lit "milan-apts") (lit "ad-2")
              (Str (lit "bought")) milanObjects)
    as (_ & Hvalid).
  destruct (Hvalid Bought eq_refl) as (_ & Hknown).
  destruct (PATCH_status_outcomes sampleClientError (lit "milan-apts") (lit "ad-3")
              (Str (lit "bought")) milanObjects)
    as (_ & Hvalid').
  destruct (Hvalid' Bought eq_refl) as (Hunknown & _).
  split.
  - exact (proj1 (Hknown _ _ milan_second_ad)).
  - exact (proj1 (Hunknown milan_no_third_ad) (sampleClientError_keeps_part _)).
Defined.

Lemma PATCH_notes_outcomes_witness :
  responseOf (PATCH_notes sampleClientError (lit "milan-apts") (lit "ad-2")
                (inr (Str [])) milanObjects)
  = respond 200 (PMessage (lit "Notes updated successfully") None)
  /\ responseOf (PATCH_notes sampleClientError (lit "milan-apts") (lit "ad-2")
                   (inr NotAString) milanObjects)
     = respond 400 (PError (lit "Notes must be a string") None)
  /\ responseOf (PATCH_notes sampleClientError (lit "milan-apts") (lit "ad-3")
                   (inr (Str (lit "call"))) milanObjects)
     = respond 404 (PError (lit "Property ad not found in this research") None).
Proof.
  destruct (PATCH_notes_outcomes sampleClientError (lit "milan-apts") (lit "ad-2")
              (Str []) milanObjects) as (_ & Hvalid).
  destruct (Hvalid [] eq_refl) as (_ & Hknown).
  destruct (PATCH_notes_outcomes sampleClientError (lit "milan-apts") (lit "ad-2")
              NotAString milanObjects) as (Hinvalid & _).
  destruct (PATCH_notes_outcomes sampleClientError (lit "milan-apts") (lit "ad-3")
              (Str (lit "call")) milanObjects) as (_ & Hvalid').
  destruct (Hvalid' _ eq_refl) as (Hunknown & _).
  split; [|split].
  - exact (proj1 (Hknown _ _ milan_second_ad)).
  - apply Hinvalid. discriminate.
  - exact (proj1 (Hunknown milan_no_third_ad) (sampleClientError_keeps_part _)).
Defined.

Lemma GET_research_outcomes_witness :
  responseOf (GET_research sampleClientError (lit "nowhere") milanObjects)
  = respond 404 (PError (lit "Research not found") None)
  /\ responseOf (GET_research sampleClientError (lit "milan-apts") milanObjects)
     = respond 200 (PResearch (lit "milan-apts") (lit "2 bed Milan under 300k")).
Proof.
  destruct (GET_research_outcomes sampleClientError (lit "nowhere") milanObjects)
    as (_ & Hmissing & _).
  destruct (GET_research_outcomes sampleClientError (lit "milan-apts") milanObjects)
    as (Hfound & _).
  split; [apply Hmissing; [reflexivity | apply sampleClientError_keeps_part]|].
  apply Hfound; [reflexivity | discriminate].
Defined.

Lemma POST_ads_validates_witness :
  exists p,
    responseOf (POST_ads sampleClientError sampleEnv (lit "milan-apts")
                  (inr (Str otherUrl)) milanObjects)
    = respond 400 p.
Proof.
  apply (POST_ads_validates sampleClientError sampleEnv (lit "milan-apts")
           (Str otherUrl) milanObjects).
  intros (u & host & [= <-] & _ & Hhost & Hsite).
  vm_compute in Hhost. injection Hhost as <-.
  destruct Hsite as [Hsite|Hsite]; vm_compute in Hsite; discriminate.
Defined.

Lemma POST_ads_gone_page_witness :
  responseOf (POST_ads sampleClientError notFoundEnv (lit "milan-apts")
                (inr (Str idealistaUrl)) milanObjects)
  = respond 404 (PError (lit "Research not found") None).
Proof.
  apply (POST_ads_gone_page sampleClientError notFoundEnv (lit "milan-apts")
           idealistaUrl (lit "www.idealista.it") milanObjects);
    try reflexivity; try discriminate.
  - apply sampleClientError_keeps_part.
  - exact (web_replicate_404 12).
  - simpl. lia.
Defined.

Lemma POST_questions_then_GET_witness :
  responseOf (POST_questions sampleClientError sampleEnv (lit "milan-apts")
                (inr (Str (lit "Which is cheapest?"))) milanObjects)
  = respond 200 (PAnswer (lit "Which is cheapest?") (lit "Il primo."))
  /\ responseOf (POST_questions sampleClientError sampleEnv (lit "milan-apts")
                   (inr (Str (lit "  "))) milanObjects)
     = respond 400
         (PError (lit "Question is required and must be a non-empty string") None).
Proof.
  destruct (POST_questions_then_GET sampleClientError sampleEnv (lit "milan-apts")
              (Str (lit "Which is cheapest?")) milanObjects) as (_ & Hanswered).
  destruct (POST_questions_then_GET sampleClientError sampleEnv (lit "milan-apts")
              (Str (lit "  ")) milanObjects) as (Hblank & _).
  split.
  - refine (proj1 (Hanswered _ [] _ [] eq_refl _ eq_refl _)).
    + intros Hq. inversion Hq. discriminate.
    + simpl. lia.
  - apply Hblank. intros q [= <-]. repeat constructor.
Defined.

Lemma routes_touch_one_object_witness :
  objectsOf (PATCH_notes sampleClientError (lit "rome-apts") (lit "ad-2")
               (inr (Str (lit "call"))) milanObjects) (lit "milan-apts")
  = milanStore.
Proof.
  destruct (routes_touch_one_object sampleClientError sampleEnv (lit "rome-apts")
              (lit "ad-2") (inl []) (inr (Str (lit "call"))) milanObjects
              (lit "milan-apts")) as (_ & _ & _ & _ & _ & Hnotes & _).
  - discriminate.
  - rewrite Hnotes. reflexivity.
Defined.

Lemma prompt_carries_the_project_witness :
  includes (lit "Trilocale via Roma")
    (questionPrompt (criteria milanStore) (adsOf milanStore) (lit "Which is cheapest?"))
  = true.
Proof.
  destruct (prompt_carries_the_project (criteria milanStore) (adsOf milanStore)
              (lit "Which is cheapest?")) as (_ & _ & Hads).
  exact (proj1 (Hads 0%nat (sampleAd (lit "ad-1")) eq_refl)).
Defined.

End MoreExamples.
